(** * jema2mqtt: a shallow embedding of [src/index.ts]

    The bridge exposes JEM-A terminals (one control line, one monitor line
    per entity) to an MQTT broker.  The whole program is one module,
    [index.ts]; this file embeds its pure helpers ([getTopic],
    [getDiscoveryMessage]), its async functions ([handleMessage],
    [publishState], [publishAvailability], [shutdownHandler], [main]) as
    finite programs over the calls they make to the outside, and the Node
    event loop that runs them, and states the properties of the
    specification over that embedding. *)

From stdpp Require Import base strings list gmap.
From Stdlib Require Import ZArith Ascii.

Local Open Scope string_scope.
Local Open Scope list_scope.

(** ** Data model *)

(** [type Entity].  [domain] is declared as ["lock" | "switch" | "cover"], but
    the configuration is the unchecked result of [JSON.parse]: at run time the
    field holds whatever string the file has, and [getDiscoveryMessage] has a
    branch for that case.  The field is therefore a string. *)
Record Entity : Type := {
  id : string;
  name : string;
  domain : string;
  controlGpio : Z;
  monitorGpio : Z;
}.

(** [type Config]. *)
Record Config : Type := {
  deviceId : string;
  entities : list Entity;
}.

(** [const TopicType]. *)
Inductive TopicType : Type := COMMAND | STATE | AVAILABILITY.

Definition TopicType_value (type : TopicType) : string :=
  match type with
  | COMMAND => "set"
  | STATE => "state"
  | AVAILABILITY => "availability"
  end.

(** [const StatusMessage]. *)
Module StatusMessage.
Definition ACTIVE : string := "ACTIVE".
Definition INACTIVE : string := "INACTIVE".
End StatusMessage.

(** [function getTopic(device, type)]: the template
    [`jema2mqtt/${device.id}/${type}`]. *)
Definition getTopic (device : Entity) (type : TopicType) : string :=
  "jema2mqtt/" +:+ id device +:+ "/" +:+ TopicType_value type.

(** JSON values, for the discovery message handed to [JSON.stringify].  An
    object keeps its keys in insertion order. *)
#[local] Unset Elimination Schemes.
Inductive JSON : Type :=
| JString (s : string)
| JNumber (n : Z)
| JBool (b : bool)
| JArray (items : list JSON)
| JObject (fields : list (string * JSON)).
#[local] Set Elimination Schemes.

(** Property read [obj.key] on an object literal without duplicate keys. *)
Fixpoint get_field (key : string) (fields : list (string * JSON)) : option JSON :=
  match fields with
  | [] => None
  | (k, v) :: rest => if String.eqb k key then Some v else get_field key rest
  end.

(** What a rejected promise or a [throw] carries, by where it comes from. *)
Inductive Error : Type :=
| JsError (message : string)        (* [throw new Error(message)] in [index.ts] *)
| TypeError (message : string)      (* a member call on [undefined] in [index.ts] *)
| External (reason : string).       (* thrown or rejected by a collaborator *)

(** ** Discovery messages *)

Section Discovery.
(** The variables the closure [getDiscoveryMessage] captures in [main]. *)
Variable deviceId_ : string.
Variable qos : Z.

Definition unique_id_of (entity : Entity) : string :=
  "jema2mqtt_" +:+ deviceId_ +:+ "_" +:+ id entity.

Definition baseMessage (entity : Entity) : list (string * JSON) :=
  [ ("unique_id", JString (unique_id_of entity));
    ("name", JString (name entity));
    ("command_topic", JString (getTopic entity COMMAND));
    ("state_topic", JString (getTopic entity STATE));
    ("availability_topic", JString (getTopic entity AVAILABILITY));
    ("optimistic", JBool false);
    ("qos", JNumber qos);
    ("retain", JBool true);
    ("device", JObject
       [ ("identifiers", JArray [JString ("jema2mqtt_" +:+ deviceId_)]);
         ("name", JString ("jema2mqtt." +:+ deviceId_));
         ("model", JString "jema2mqtt");
         ("manufacturer", JString "nana4rider") ]);
    ("origin", JObject
       [ ("name", JString "jema2mqtt");
         ("sw_version", JString "1.0.0");
         ("support_url", JString "https://github.com/nana4rider/jema2mqtt") ]) ].

(** [getDiscoveryMessage(entity)]: the spread of [baseMessage] followed by
    the four keys of the domain, or the [throw] of the last line. *)
Definition getDiscoveryMessage (entity : Entity) : Error + list (string * JSON) :=
  if String.eqb (domain entity) "lock" then
    inr (baseMessage entity ++
         [ ("payload_lock", JString StatusMessage.ACTIVE);
           ("payload_unlock", JString StatusMessage.INACTIVE);
           ("state_locked", JString StatusMessage.ACTIVE);
           ("state_unlocked", JString StatusMessage.INACTIVE) ])
  else if String.eqb (domain entity) "switch" then
    inr (baseMessage entity ++
         [ ("payload_on", JString StatusMessage.ACTIVE);
           ("payload_off", JString StatusMessage.INACTIVE);
           ("state_on", JString StatusMessage.ACTIVE);
           ("state_off", JString StatusMessage.INACTIVE) ])
  else if String.eqb (domain entity) "cover" then
    inr (baseMessage entity ++
         [ ("payload_close", JString StatusMessage.ACTIVE);
           ("payload_open", JString StatusMessage.INACTIVE);
           ("state_closed", JString StatusMessage.ACTIVE);
           ("state_open", JString StatusMessage.INACTIVE) ])
  else
    inl (JsError ("unknown domain: " +:+ domain entity)).
End Discovery.

(** The closed set of the type [EntityDomain]. *)
Definition known_domain (d : string) : bool :=
  String.eqb d "lock" || String.eqb d "switch" || String.eqb d "cover".

(** ** Calls to the outside *)

(** The object [requestJemaAccess] resolves to.  The module [@/jema] is a
    collaborator of [index.ts]: a binding is known here only by reference,
    and what its [getMonitor], [sendControl] and [setMonitorListener] do is
    the outside's to decide. *)
Inductive Jema : Type := JemaRef (ref : nat).

Inductive Signal : Type := SIGINT | SIGTERM.

Inductive Level : Type := Info | Debug.

(** The payload of a publish: a token, or [JSON.stringify] of an object. *)
Inductive Payload : Type :=
| Text (s : string)
| Stringified (fields : list (string * JSON)).

(** The promise-returning calls of [index.ts], indexed by what the promise
    resolves to.  Any of them may reject instead. *)
Inductive Op : Type -> Type :=
| ReadConfig : Op Config
    (* [JSON.parse(await fs.readFile("./config.json", "utf-8")) as Config] *)
| RequestJemaAccess (control monitor : Z) : Op Jema
| ConnectAsync (broker : string) (username password : option string) : Op unit
| SubscribeAsync (topics : list string) : Op unit
| PublishAsync (topic : string) (payload : Payload) (retain : bool) : Op unit
| EndAsync : Op unit
| GetMonitor (jema : Jema) : Op bool
| SendControl (jema : Jema) : Op unit.

(** The synchronous calls: logging, and the registration of callbacks.  A
    registered callback is recorded by the variables its closure captures. *)
Inductive Effect : Type :=
| Log (level : Level) (text : string)
| LogError (text : string) (err : Error)
| ClientOnMessage (entities : list Entity) (jemas : gmap string Jema)
| SetMonitorListener (jema : Jema) (entity : Entity)
| SetInterval (entities : list Entity) (ms : Z)
| ClearInterval
| ProcessOn (signal : Signal) (entities : list Entity) (jemas : gmap string Jema)
| ProcessExit (code : Z).

(** What an observer of the process sees, in order. *)
Inductive Event : Type :=
| Did (eff : Effect)
| Called {R : Type} (op : Op R).

(** ** Async functions as finite programs *)

(** The body of an async function: it returns, throws, makes a synchronous
    call, leaves the process, or awaits something of kind [E].  There is no
    [try] inside any function of [index.ts], so a rejected [await] rejects
    the function: the continuation only sees fulfilled values. *)
Inductive Free (E : Type -> Type) (A : Type) : Type :=
| Return (a : A)
| Throw (e : Error)
| Halt (code : Z)
| Do (eff : Effect) (k : Free E A)
| Await {R : Type} (aw : E R) (k : R -> Free E A).

Arguments Return {E A} a.
Arguments Throw {E A} e.
Arguments Halt {E A} code.
Arguments Do {E A} eff k.
Arguments Await {E A R} aw k.

Fixpoint bind {E : Type -> Type} {A B : Type}
    (m : Free E A) (f : A -> Free E B) : Free E B :=
  match m with
  | Return a => f a
  | Throw e => Throw e
  | Halt code => Halt code
  | Do eff k => Do eff (bind k f)
  | Await aw k => Await aw (fun x => bind (k x) f)
  end.

Notation "x <- m ;; k" := (bind m (fun x => k))
  (at level 100, m at next level, right associativity).
Notation "m ;; k" := (bind m (fun _ => k))
  (at level 100, right associativity).

(** An async function that awaits single calls only: the arrow functions
    handed to [entities.map] under a [Promise.all]. *)
Definition Async : Type -> Type := Free Op.

(** What the other functions await: one call, or [Promise.all] over the
    promises of a list of async functions, all started before the wait. *)
Inductive Awaitable : Type -> Type :=
| Call {R : Type} (op : Op R) : Awaitable R
| All {R : Type} (tasks : list (Async R)) : Awaitable (list R).

Definition Prog : Type -> Type := Free Awaitable.

Definition act {E} (eff : Effect) : Free E unit := Do eff (Return tt).
Definition await {R} (op : Op R) : Prog R := Await (Call op) Return.
Definition promise {R} (op : Op R) : Async R := Await op Return.
Definition await_all {R} (tasks : list (Async R)) : Prog (list R) :=
  Await (All tasks) Return.
(** An expression of a collaborator that may throw while it is evaluated. *)
Definition eval {E A} (v : string + A) : Free E A :=
  match v with inl reason => Throw (External reason) | inr a => Return a end.

(** ** The functions of [index.ts] *)

(** [new Map(pairs)]: the pairs are set from left to right, so the last
    pair of a key is the one the map keeps. *)
Definition new_Map (pairs : list (string * Jema)) : gmap string Jema :=
  fold_left (fun m kv => <[kv.1 := kv.2]> m) pairs ∅.

(** The [TypeError] of a member call on the [undefined] that
    [jemas.get(entity.id)!] yields for a missing key. *)
Definition undefined_binding (member : string) : Error :=
  TypeError ("Cannot read properties of undefined (reading '" +:+ member +:+ "')").

(** The environment variables as [env-var] hands them over.  [asIntPositive]
    and [required] throw on a bad or missing value: the left injection is the
    reason. *)
Record Settings : Type := {
  HA_DISCOVERY_PREFIX : string;
  QOS : string + Z;
  MQTT_BROKER : string + string;
  MQTT_USERNAME : option string;
  MQTT_PASSWORD : option string;
  AVAILABILITY_INTERVAL : string + Z;
}.

(** [handleMessage(topic, message)], lines 134-148. *)
Definition handleMessage (entities : list Entity) (jemas : gmap string Jema)
    (topic message : string) : Prog unit :=
  match List.find (fun entity => String.eqb (getTopic entity COMMAND) topic) entities with
  | None => Return tt
  | Some entity =>
      match jemas !! id entity with
      | None => Throw (undefined_binding "getMonitor")
      | Some jema =>
          monitor <- await (GetMonitor jema) ;;
          if (String.eqb message StatusMessage.ACTIVE && negb monitor)
             || (String.eqb message StatusMessage.INACTIVE && monitor)
          then await (SendControl jema)
          else Return tt
      end
  end.

(** [publishState(value)], lines 155-160: the promise of one publish. *)
Definition publishState (entity : Entity) (value : bool) : Op unit :=
  PublishAsync (getTopic entity STATE)
    (Text (if value then StatusMessage.ACTIVE else StatusMessage.INACTIVE))
    true.

(** The listener of line 163, [(value) => void publishState(value)]. *)
Definition monitorListener (entity : Entity) (value : bool) : Prog unit :=
  await (publishState entity value).

(** [publishAvailability(value)], lines 176-181.  No options are passed to
    [publishAsync]: the message is not retained. *)
Definition publishAvailability (entities : list Entity) (value : string)
    : list (Async unit) :=
  map (fun entity => promise (PublishAsync (getTopic entity AVAILABILITY) (Text value) false))
      entities.

(** The timer callback of line 185, [() => void publishAvailability("online")]. *)
Definition heartbeat (entities : list Entity) : Prog unit :=
  _ <- await_all (publishAvailability entities "online") ;; Return tt.

(** [shutdownHandler()], lines 189-197.  The last [Promise.all] is handed the
    bindings themselves, which are not promises: it resolves to them. *)
Definition shutdownHandler (entities : list Entity) (jemas : gmap string Jema)
    : Prog unit :=
  act (Log Info "jema2mqtt: shutdown") ;;
  act ClearInterval ;;
  _ <- await_all (publishAvailability entities "offline") ;;
  await EndAsync ;;
  act (Log Info "mqtt-client: closed") ;;
  _ <- await_all (map (fun kv : string * Jema => Return kv.2) (map_to_list jemas)) ;;
  Halt 0.

(** The arrow function of lines 108-111. *)
Definition acquire (entity : Entity) : Async (string * Jema) :=
  Await (RequestJemaAccess (controlGpio entity) (monitorGpio entity))
        (fun jema => Return (id entity, jema)).

(** The arrow function of lines 154-173. *)
Definition announce (haDiscoveryPrefix deviceId : string) (qos : Z)
    (jemas : gmap string Jema) (entity : Entity) : Async unit :=
  match jemas !! id entity with
  | None => Throw (undefined_binding "setMonitorListener")
  | Some jema =>
      Do (SetMonitorListener jema entity)
      (Await (GetMonitor jema) (fun value =>
       Await (publishState entity value) (fun _ =>
       match getDiscoveryMessage deviceId qos entity with
       | inl err => Throw err
       | inr discoveryMessage =>
           let unique_id :=
             match get_field "unique_id" discoveryMessage with
             | Some (JString s) => s
             | _ => "undefined"
             end in
           Await (PublishAsync
                    (haDiscoveryPrefix +:+ "/" +:+ domain entity +:+ "/"
                       +:+ unique_id +:+ "/config")
                    (Stringified discoveryMessage) true)
                 (fun _ => Return tt)
       end)))
  end.

(** The callback of lines 126-130, run by [entities.map] before the
    subscription is sent. *)
Fixpoint log_subscriptions {E A} (entities : list Entity) (k : Free E A) : Free E A :=
  match entities with
  | [] => k
  | entity :: rest =>
      Do (Log Debug ("subscribe: " +:+ getTopic entity COMMAND)) (log_subscriptions rest k)
  end.

(** [main()] from the point where the configuration has been read. *)
Definition main_configured (env : Settings) (qos : Z) (config : Config) : Prog unit :=
  let entities := entities config in
  pairs <- await_all (map acquire entities) ;;
  let jemas := new_Map pairs in
  broker <- eval (MQTT_BROKER env) ;;
  await (ConnectAsync broker (MQTT_USERNAME env) (MQTT_PASSWORD env)) ;;
  act (Log Info "mqtt-client: connected") ;;
  log_subscriptions entities (Return tt) ;;
  await (SubscribeAsync (map (fun entity => getTopic entity COMMAND) entities)) ;;
  act (ClientOnMessage entities jemas) ;;
  _ <- await_all (map (announce (HA_DISCOVERY_PREFIX env) (deviceId config) qos jemas)
                      entities) ;;
  ms <- eval (AVAILABILITY_INTERVAL env) ;;
  act (SetInterval entities ms) ;;
  act (ProcessOn SIGINT entities jemas) ;;
  act (ProcessOn SIGTERM entities jemas) ;;
  _ <- await_all (publishAvailability entities "online") ;;
  act (Log Info "jema2mqtt: ready").

(** [main()], lines 39-205. *)
Definition main (env : Settings) : Prog unit :=
  act (Log Info "jema2mqtt: start") ;;
  qos <- eval (QOS env) ;;
  config <- await ReadConfig ;;
  main_configured env qos config.

(** ** Running async functions *)

(** A member of a [Promise.all]: fulfilled, or suspended at an [await]. *)
Inductive Slot (R : Type) : Type :=
| Fulfilled (r : R)
| Pending {X : Type} (op : Op X) (k : X -> Async R).

Arguments Fulfilled {R} r.
Arguments Pending {R X} op k.

(** The promise of a started async function. *)
Inductive Task (A : Type) : Type :=
| Done (a : A)
| Failed (e : Error)
| Halted (code : Z)
| Waiting {X : Type} (op : Op X) (k : X -> Prog A)
| Joining {R : Type} (slots : list (Slot R)) (k : list R -> Prog A).

Arguments Done {A} a.
Arguments Failed {A} e.
Arguments Halted {A} code.
Arguments Waiting {A X} op k.
Arguments Joining {A R} slots k.

Inductive Started (R : Type) : Type :=
| Suspends (slot : Slot R)
| Rejects (e : Error)
| Exits (code : Z).

Arguments Suspends {R} slot.
Arguments Rejects {R} e.
Arguments Exits {R} code.

(** An async function runs synchronously up to its first [await]. *)
Fixpoint start_async {R : Type} (t : Async R) : list Event * Started R :=
  match t with
  | Return r => ([], Suspends (Fulfilled r))
  | Throw e => ([], Rejects e)
  | Halt code => ([Did (ProcessExit code)], Exits code)
  | Do eff k => let '(evs, s) := start_async k in (Did eff :: evs, s)
  | Await op k => ([Called op], Suspends (Pending op k))
  end.

Inductive Join (R : Type) : Type :=
| JSlots (slots : list (Slot R))
| JFailed (e : Error)
| JHalted (code : Z).

Arguments JSlots {R} slots.
Arguments JFailed {R} e.
Arguments JHalted {R} code.

(** [tasks.map(...)] starts every member in order; a member that throws
    before its first [await] yields a rejected promise and the others are
    still started.  [Promise.all] rejects with the first rejection. *)
Fixpoint launch {R : Type} (tasks : list (Async R)) : list Event * Join R :=
  match tasks with
  | [] => ([], JSlots [])
  | t :: rest =>
      let '(evs, s) := start_async t in
      match s with
      | Exits code => (evs, JHalted code)
      | Rejects e =>
          let '(evs', j) := launch rest in
          (evs ++ evs', match j with JHalted code => JHalted code | _ => JFailed e end)
      | Suspends slot =>
          let '(evs', j) := launch rest in
          (evs ++ evs', match j with JSlots slots => JSlots (slot :: slots) | _ => j end)
      end
  end.

(** The values of the members, when all of them are fulfilled. *)
Fixpoint collect {R : Type} (slots : list (Slot R)) : option (list R) :=
  match slots with
  | [] => Some []
  | Fulfilled r :: rest => option_map (cons r) (collect rest)
  | Pending _ _ :: _ => None
  end.

(** A function runs up to its first [await] that has to wait.  A
    [Promise.all] whose members are all fulfilled already has nothing
    outside to wait for.  When a member of a [Promise.all] rejects, the
    function goes on (here: rejects) without the others; in [index.ts] the
    others are then either bare promises or cut short by [process.exit]. *)
Fixpoint start {A : Type} (p : Prog A) : list Event * Task A :=
  match p with
  | Return a => ([], Done a)
  | Throw e => ([], Failed e)
  | Halt code => ([Did (ProcessExit code)], Halted code)
  | Do eff k => let '(evs, t) := start k in (Did eff :: evs, t)
  | Await aw k =>
      match aw in Awaitable R return (R -> Prog A) -> list Event * Task A with
      | Call op => fun k => ([Called op], Waiting op k)
      | All tasks => fun k =>
          let '(evs, j) := launch tasks in
          match j with
          | JHalted code => (evs, Halted code)
          | JFailed e => (evs, Failed e)
          | JSlots slots =>
              match collect slots with
              | Some rs => let '(evs', t) := start (k rs) in (evs ++ evs', t)
              | None => (evs, Joining slots k)
              end
          end
      end k
  end.

(** What the outside settles a pending promise with. *)
Inductive Value : Type :=
| VUnit
| VBool (b : bool)
| VJema (jema : Jema)
| VConfig (config : Config).

Inductive Response : Type :=
| Resolve (v : Value)
| Reject (reason : string).

(** The value a call can resolve to. *)
Definition decode {R : Type} (op : Op R) (v : Value) : option R :=
  match op in Op R return option R with
  | ReadConfig => match v with VConfig c => Some c | _ => None end
  | RequestJemaAccess _ _ => match v with VJema j => Some j | _ => None end
  | GetMonitor _ => match v with VBool b => Some b | _ => None end
  | ConnectAsync _ _ _ | SubscribeAsync _ | PublishAsync _ _ _ | EndAsync
  | SendControl _ => match v with VUnit => Some tt | _ => None end
  end.

(** The outside settles pending promise number [i] of a suspended function;
    the function runs on to its next wait.  A settlement that addresses no
    pending promise, or has the wrong kind of value, changes nothing. *)
Definition resume {A : Type} (t : Task A) (i : nat) (r : Response)
    : list Event * Task A :=
  match t with
  | Waiting op k =>
      match i, r with
      | O, Reject reason => ([], Failed (External reason))
      | O, Resolve v =>
          match decode op v with
          | Some x => start (k x)
          | None => ([], t)
          end
      | _, _ => ([], t)
      end
  | Joining slots k =>
      match slots !! i with
      | Some (Pending op k') =>
          match r with
          | Reject reason => ([], Failed (External reason))
          | Resolve v =>
              match decode op v with
              | None => ([], t)
              | Some x =>
                  let '(evs, s) := start_async (k' x) in
                  match s with
                  | Exits code => (evs, Halted code)
                  | Rejects e => (evs, Failed e)
                  | Suspends slot =>
                      let slots' := <[i := slot]> slots in
                      match collect slots' with
                      | Some rs => let '(evs', t') := start (k rs) in (evs ++ evs', t')
                      | None => (evs, Joining slots' k)
                      end
                  end
              end
          end
      | _ => ([], t)
      end
  | _ => ([], t)
  end.

(** A function driven by the settlements the outside makes, in order. *)
Fixpoint run {A : Type} (t : Task A) (inputs : list (nat * Response))
    : list Event * Task A :=
  match inputs with
  | [] => ([], t)
  | (i, r) :: rest =>
      let '(evs, t') := resume t i r in
      let '(evs', t'') := run t' rest in
      (evs ++ evs', t'')
  end.

Definition exec {A : Type} (p : Prog A) (inputs : list (nat * Response))
    : list Event * Task A :=
  let '(evs, t) := start p in
  let '(evs', t') := run t inputs in
  (evs ++ evs', t').

(** ** Properties of every execution *)

(** Where a function stands for an observer. *)
Inductive Outcome (A : Type) : Type :=
| Running
| Returned (a : A)
| Threw (e : Error)
| Exited (code : Z).

Arguments Running {A}.
Arguments Returned {A} a.
Arguments Threw {A} e.
Arguments Exited {A} code.

Definition status {A : Type} (t : Task A) : Outcome A :=
  match t with
  | Done a => Returned a
  | Failed e => Threw e
  | Halted code => Exited code
  | Waiting _ _ | Joining _ _ => Running
  end.

(** What a member of a [Promise.all] can do, under some settlements. *)
Inductive Obs (R : Type) : Type :=
| Emits (ev : Event)
| Returns (r : R)
| Throws (e : Error)
| Leaves (code : Z).

Arguments Emits {R} ev.
Arguments Returns {R} r.
Arguments Throws {R} e.
Arguments Leaves {R} code.

Fixpoint may {R : Type} (t : Async R) (o : Obs R) : Prop :=
  match t with
  | Return r => o = Returns r
  | Throw e => o = Throws e
  | Halt code => o = Emits (Did (ProcessExit code)) \/ o = Leaves code
  | Do eff k => o = Emits (Did eff) \/ may k o
  | Await op k =>
      o = Emits (Called op) \/ (exists reason, o = Throws (External reason))
      \/ exists x, may (k x) o
  end.

Definition slot_may {R : Type} (s : Slot R) (o : Obs R) : Prop :=
  match s with
  | Fulfilled r => o = Returns r
  | Pending op k => (exists reason, o = Throws (External reason)) \/ exists x, may (k x) o
  end.

(** A condition on the events so far and on where the function stands. *)
Definition Post (A : Type) : Type := list Event -> Outcome A -> Prop.

(** The condition holds while a [Promise.all] waits, when it rejects and
    when the process exits under it, and [next] holds when it resolves,
    whatever its members have emitted by then. *)
Definition join_holds {M R A : Type} (can : M -> Obs R -> Prop) (members : list M)
    (hist : list Event) (post : Post A) (next : list R -> list Event -> Prop) : Prop :=
  forall evs,
    Forall (fun ev => Exists (fun m => can m (Emits ev)) members) evs ->
    post (hist ++ evs) Running /\
    (forall e, Exists (fun m => can m (Throws e)) members -> post (hist ++ evs) (Threw e)) /\
    (forall code, Exists (fun m => can m (Leaves code)) members ->
                  post (hist ++ evs) (Exited code)) /\
    (forall rs, Forall2 (fun m r => can m (Returns r)) members rs -> next rs (hist ++ evs)).

(** A [Promise.all] over [tasks], entered after the events [hist]: the
    members are started, which emits what they do up to their first
    [await]; when some member is pending the join is that of the members as
    they stand, and otherwise the function goes on at once. *)
Definition launched {R A : Type} (tasks : list (Async R)) (hist : list Event)
    (post : Post A) (next : list R -> list Event -> Prop) : Prop :=
  match launch tasks with
  | (evs, JSlots slots) =>
      match collect slots with
      | Some rs => next rs (hist ++ evs)
      | None => join_holds slot_may slots (hist ++ evs) post next
      end
  | (evs, JFailed e) => post (hist ++ evs) (Threw e)
  | (evs, JHalted code) => post (hist ++ evs) (Exited code)
  end.

(** [holds p hist post]: started after the events [hist], the function
    satisfies [post] at every point where it waits or ends, under every
    order and outcome of the settlements. *)
Fixpoint holds {A : Type} (p : Prog A) (hist : list Event) (post : Post A) : Prop :=
  match p with
  | Return a => post hist (Returned a)
  | Throw e => post hist (Threw e)
  | Halt code => post (hist ++ [Did (ProcessExit code)]) (Exited code)
  | Do eff k => holds k (hist ++ [Did eff]) post
  | Await aw k =>
      match aw in Awaitable R return (R -> Prog A) -> Prop with
      | Call op => fun k =>
          post (hist ++ [Called op]) Running /\
          (forall reason, post (hist ++ [Called op]) (Threw (External reason))) /\
          (forall x, holds (k x) (hist ++ [Called op]) post)
      | All tasks => fun k =>
          launched tasks hist post (fun rs h => holds (k rs) h post)
      end k
  end.

Definition task_holds {A : Type} (t : Task A) (hist : list Event) (post : Post A) : Prop :=
  match t with
  | Done a => post hist (Returned a)
  | Failed e => post hist (Threw e)
  | Halted code => post hist (Exited code)
  | Waiting op k =>
      post hist Running /\
      (forall reason, post hist (Threw (External reason))) /\
      (forall x, holds (k x) hist post)
  | Joining slots k =>
      join_holds slot_may slots hist post (fun rs h => holds (k rs) h post)
  end.

(** ** Rejections and what has been called before them *)

(** A condition on an error and on events that have been emitted by the
    time it is thrown. *)
Definition Blame : Type := list Event -> Error -> Prop.

(** [async_fine t own blame]: whenever the member [t] of a [Promise.all],
    which has [own] behind it, is rejected, [blame] holds of what it has
    behind it by then and of the error. *)
Fixpoint async_fine {R : Type} (t : Async R) (own : list Event) (blame : Blame) : Prop :=
  match t with
  | Return _ | Halt _ => True
  | Throw e => blame own e
  | Do eff k => async_fine k (own ++ [Did eff]) blame
  | Await op k =>
      (forall reason, blame (own ++ [Called op]) (External reason)) /\
      forall x, async_fine (k x) (own ++ [Called op]) blame
  end.

Definition slot_fine {R : Type} (s : Slot R) (own : list Event) (blame : Blame) : Prop :=
  match s with
  | Fulfilled _ => True
  | Pending _ k =>
      (forall reason, blame own (External reason)) /\
      forall x, async_fine (k x) own blame
  end.

(** The same for a function: a member of a [Promise.all] has behind it
    what the function had when it started the join, and its own events; the
    function goes on after the join with at least what it had before. *)
Fixpoint fine {A : Type} (p : Prog A) (hist : list Event) (blame : Blame) : Prop :=
  match p with
  | Return _ | Halt _ => True
  | Throw e => blame hist e
  | Do eff k => fine k (hist ++ [Did eff]) blame
  | Await aw k =>
      match aw in Awaitable R return (R -> Prog A) -> Prop with
      | Call op => fun k =>
          (forall reason, blame (hist ++ [Called op]) (External reason)) /\
          forall x, fine (k x) (hist ++ [Called op]) blame
      | All tasks => fun k =>
          Forall (fun t => async_fine t hist blame) tasks /\
          forall rs h, incl hist h -> fine (k rs) h blame
      end k
  end.

Definition task_fine {A : Type} (t : Task A) (hist : list Event) (blame : Blame) : Prop :=
  match t with
  | Done _ | Halted _ => True
  | Failed e => blame hist e
  | Waiting _ k =>
      (forall reason, blame hist (External reason)) /\
      forall x, fine (k x) hist blame
  | Joining slots k =>
      Forall (fun s => exists own, incl own hist /\ slot_fine s own blame) slots /\
      forall rs h, incl hist h -> fine (k rs) h blame
  end.

(** The condition speaks of events that have been emitted, not of events
    that have not. *)
Definition monotone (blame : Blame) : Prop :=
  forall own hist e, incl own hist -> blame own e -> blame hist e.

(** The error of [getDiscoveryMessage] comes from an entity of unknown
    domain, after the connection was asked for, the command topics were
    subscribed and the state of that entity was published. *)
Definition discovery_blame (env : Settings) (config : Config) : Blame :=
  fun hist err =>
    forall message,
      err = JsError message ->
      (exists broker,
         In (Called (ConnectAsync broker (MQTT_USERNAME env) (MQTT_PASSWORD env))) hist) /\
      In (Called (SubscribeAsync (map (fun e => getTopic e COMMAND) (entities config)))) hist /\
      exists entity value,
        In entity (entities config) /\
        known_domain (domain entity) = false /\
        message = "unknown domain: " +:+ domain entity /\
        In (Called (publishState entity value)) hist.

(** ** The process and its event loop *)

Inductive Ended : Type :=
| ExitCode (code : Z)
| KilledBy (signal : Signal).

(** The variables a registered callback captures from [main]. *)
Definition Closure : Type := (list Entity * gmap string Jema)%type.

Record Process : Type := {
  top : Task unit;                        (* [main()], awaited under the [try] of line 207 *)
  detached : list (Task unit);            (* promises discarded by [void] *)
  message_listeners : list Closure;       (* [client.on("message", ...)] *)
  monitor_listeners : list (Jema * Entity); (* [jema.setMonitorListener(...)] *)
  interval : option (list Entity);        (* [availabilityTimerId], while it runs *)
  signal_listeners : list (Signal * Closure); (* [process.on(signal, ...)] *)
  trace : list Event;
  ended : option Ended;
}.

Definition Signal_eqb (a b : Signal) : bool :=
  match a, b with SIGINT, SIGINT | SIGTERM, SIGTERM => true | _, _ => false end.

(** What a synchronous call changes in the process. *)
Definition perform (eff : Effect) (p : Process) : Process :=
  match eff with
  | Log _ _ | LogError _ _ => p
  | ClientOnMessage entities jemas =>
      {| top := top p; detached := detached p;
         message_listeners := message_listeners p ++ [(entities, jemas)];
         monitor_listeners := monitor_listeners p; interval := interval p;
         signal_listeners := signal_listeners p; trace := trace p; ended := ended p |}
  | SetMonitorListener jema entity =>
      {| top := top p; detached := detached p;
         message_listeners := message_listeners p;
         monitor_listeners := monitor_listeners p ++ [(jema, entity)];
         interval := interval p;
         signal_listeners := signal_listeners p; trace := trace p; ended := ended p |}
  | SetInterval entities _ =>
      {| top := top p; detached := detached p;
         message_listeners := message_listeners p;
         monitor_listeners := monitor_listeners p; interval := Some entities;
         signal_listeners := signal_listeners p; trace := trace p; ended := ended p |}
  | ClearInterval =>
      {| top := top p; detached := detached p;
         message_listeners := message_listeners p;
         monitor_listeners := monitor_listeners p; interval := None;
         signal_listeners := signal_listeners p; trace := trace p; ended := ended p |}
  | ProcessOn signal entities jemas =>
      {| top := top p; detached := detached p;
         message_listeners := message_listeners p;
         monitor_listeners := monitor_listeners p; interval := interval p;
         signal_listeners := signal_listeners p ++ [(signal, (entities, jemas))];
         trace := trace p; ended := ended p |}
  | ProcessExit code =>
      {| top := top p; detached := detached p;
         message_listeners := message_listeners p;
         monitor_listeners := monitor_listeners p; interval := interval p;
         signal_listeners := signal_listeners p;
         trace := trace p; ended := Some (ExitCode code) |}
  end.

Definition record (ev : Event) (p : Process) : Process :=
  {| top := top p; detached := detached p;
     message_listeners := message_listeners p;
     monitor_listeners := monitor_listeners p; interval := interval p;
     signal_listeners := signal_listeners p;
     trace := trace p ++ [ev]; ended := ended p |}.

Definition observe (p : Process) (ev : Event) : Process :=
  match ev with
  | Did eff => perform eff (record ev p)
  | Called _ => record ev p
  end.

Definition absorb (evs : list Event) (p : Process) : Process :=
  fold_left observe evs p.

Definition set_top (t : Task unit) (p : Process) : Process :=
  {| top := t; detached := detached p;
     message_listeners := message_listeners p;
     monitor_listeners := monitor_listeners p; interval := interval p;
     signal_listeners := signal_listeners p; trace := trace p; ended := ended p |}.

Definition set_detached (ts : list (Task unit)) (p : Process) : Process :=
  {| top := top p; detached := ts;
     message_listeners := message_listeners p;
     monitor_listeners := monitor_listeners p; interval := interval p;
     signal_listeners := signal_listeners p; trace := trace p; ended := ended p |}.

Definition kill (signal : Signal) (p : Process) : Process :=
  {| top := top p; detached := detached p;
     message_listeners := message_listeners p;
     monitor_listeners := monitor_listeners p; interval := interval p;
     signal_listeners := signal_listeners p; trace := trace p;
     ended := Some (KilledBy signal) |}.

(** The [catch] of lines 209-212, around [await main()]. *)
Definition rescue (t : Task unit) : list Event :=
  match t with
  | Failed err => [Did (LogError "jema2mqtt:" err); Did (ProcessExit 1)]
  | _ => []
  end.

(** A promise dropped by [void] that is rejected reaches no handler:
    [index.ts] has no [catch] in any callback and installs no listener for
    [unhandledRejection].  Node then raises the rejection as an uncaught
    exception and ends the process with code 1; the error is printed by the
    runtime, no call of [index.ts] is involved. *)
Definition unhandled (t : Task unit) (p : Process) : Process :=
  match t, ended p with
  | Failed _, None =>
      {| top := top p; detached := detached p;
         message_listeners := message_listeners p;
         monitor_listeners := monitor_listeners p; interval := interval p;
         signal_listeners := signal_listeners p; trace := trace p;
         ended := Some (ExitCode 1) |}
  | _, _ => p
  end.

(** [void f(...)]: the function is started and its promise is dropped.
    [index.ts] registers one callback for an event, so the function started
    here is the only one of its turn. *)
Definition spawn (f : Prog unit) (p : Process) : Process :=
  match ended p with
  | Some _ => p
  | None =>
      let '(evs, t) := start f in
      unhandled t (absorb evs (set_detached (detached p ++ [t]) p))
  end.

Inductive Target : Type := Main | Detached (n : nat).

(** What reaches the process from outside. *)
Inductive Input : Type :=
| Settle (target : Target) (i : nat) (r : Response)  (* a pending promise settles *)
| Message (topic payload : string)         (* the broker delivers a message *)
| MonitorChange (n : nat) (value : bool)   (* a binding calls listener number [n] *)
| Tick                                     (* the interval timer fires *)
| Kill (signal : Signal).                  (* a signal arrives *)

Definition react (p : Process) (input : Input) : Process :=
  match ended p with
  | Some _ => p
  | None =>
      match input with
      | Settle Main i r =>
          let '(evs, t) := resume (top p) i r in
          absorb (evs ++ rescue t) (set_top t p)
      | Settle (Detached n) i r =>
          match detached p !! n with
          | Some t =>
              let '(evs, t') := resume t i r in
              unhandled t' (absorb evs (set_detached (<[n := t']> (detached p)) p))
          | None => p
          end
      | Message topic payload =>
          fold_left (fun q '(entities, jemas) =>
                       spawn (handleMessage entities jemas topic payload) q)
                    (message_listeners p) p
      | MonitorChange n value =>
          match monitor_listeners p !! n with
          | Some (_, entity) => spawn (monitorListener entity value) p
          | None => p
          end
      | Tick =>
          match interval p with
          | Some entities => spawn (heartbeat entities) p
          | None => p
          end
      | Kill signal =>
          match filter (fun h => Signal_eqb h.1 signal = true) (signal_listeners p) with
          | [] => kill signal p
          | hs => fold_left (fun q '(_, (entities, jemas)) =>
                               spawn (shutdownHandler entities jemas) q) hs p
          end
      end
  end.

(** The module body, lines 207-212: [main()] is started. *)
Definition boot (env : Settings) : Process :=
  let '(evs, t) := start (main env) in
  absorb (evs ++ rescue t)
    {| top := t; detached := []; message_listeners := []; monitor_listeners := [];
       interval := None; signal_listeners := []; trace := []; ended := None |}.

Definition reacts (p : Process) (inputs : list Input) : Process :=
  fold_left react inputs p.

(** The settlements of the promises of detached function number [n]. *)
Definition settles (n : nat) (inputs : list (nat * Response)) : list Input :=
  map (fun '(i, r) => Settle (Detached n) i r) inputs.

(** ** Reading traces *)

(** The signal handlers the [process.on] calls of a trace have registered. *)
Definition registered (evs : list Event) : list (Signal * Closure) :=
  flat_map (fun ev => match ev with
                      | Did (ProcessOn signal entities jemas) =>
                          [(signal, (entities, jemas))]
                      | _ => []
                      end) evs.

Definition is_message (input : Input) : bool :=
  match input with
  | Message _ _ => true
  | _ => false
  end.

Definition is_subscribe (ev : Event) : bool :=
  match ev with
  | Called (SubscribeAsync _) => true
  | _ => false
  end.

Definition is_pulse (ev : Event) : bool :=
  match ev with
  | Called (SendControl _) => true
  | _ => false
  end.

Definition is_log (ev : Event) : bool :=
  match ev with
  | Did (Log _ _) | Did (LogError _ _) => true
  | _ => false
  end.

Definition is_connect (ev : Event) : bool :=
  match ev with
  | Called (ConnectAsync _ _ _) => true
  | _ => false
  end.

(** A promise that is settled, or a process that is gone: nothing is pending. *)
Definition settled {A : Type} (t : Task A) : bool :=
  match t with
  | Done _ | Failed _ | Halted _ => true
  | Waiting _ _ | Joining _ _ => false
  end.

Definition count (f : Event -> bool) (evs : list Event) : nat :=
  length (List.filter f evs).

Definition is_exit (ev : Event) : bool :=
  match ev with
  | Did (ProcessExit _) => true
  | _ => false
  end.

Definition is_process_on (ev : Event) : bool :=
  match ev with
  | Did (ProcessOn _ _ _) => true
  | _ => false
  end.

Definition is_connected_log (ev : Event) : bool :=
  match ev with
  | Did (Log Info text) => String.eqb text "mqtt-client: connected"
  | _ => false
  end.

Definition is_ready_log (ev : Event) : bool :=
  match ev with
  | Did (Log Info text) => String.eqb text "jema2mqtt: ready"
  | _ => false
  end.

(** The events the members of the [Promise.all]s of [main] emit: calls to
    the bindings and publishes, and the registration of monitor listeners. *)
Definition is_member_event (ev : Event) : bool :=
  match ev with
  | Called (RequestJemaAccess _ _) | Called (GetMonitor _)
  | Called (PublishAsync _ _ _) | Did (SetMonitorListener _ _) => true
  | _ => false
  end.

(** Whether a string has a slash in it. *)
Fixpoint has_slash (s : string) : bool :=
  match s with
  | EmptyString => false
  | String c rest => Ascii.eqb c "/"%char || has_slash rest
  end.

(** Every entity of the list has a binding under its id. *)
Definition bound (entities : list Entity) (jemas : gmap string Jema) : Prop :=
  forall entity, In entity entities -> is_Some (jemas !! id entity).

(** The state the payload of a command asks for, line 143-144. *)
Definition commanded (message : string) : option bool :=
  if String.eqb message StatusMessage.ACTIVE then Some true
  else if String.eqb message StatusMessage.INACTIVE then Some false
  else None.

(** The closure handed to [client.on("message", ...)] has a binding for
    every entity it routes to. *)
Definition registers_bound (ev : Event) : Prop :=
  forall entities jemas, ev = Did (ClientOnMessage entities jemas) -> bound entities jemas.

(** Some entity of the configuration is outside the type [EntityDomain]. *)
Definition has_unknown_domain (config : Config) : Prop :=
  exists entity, In entity (entities config) /\ known_domain (domain entity) = false.

(** What every execution of [main] satisfies once the configuration is
    read: message handlers are registered with bound closures only; an
    error thrown by [index.ts] itself comes after the broker connection is
    there; and with an unknown domain in the configuration [main] does not
    return and does not report that it is ready. *)
Definition main_post (config : Config) : Post unit := fun hist st =>
  Forall registers_bound hist /\
  (forall message, st = Threw (JsError message) ->
     Exists (fun ev => is_connect ev = true) hist /\
     Exists (fun ev => is_connected_log ev = true) hist) /\
  (has_unknown_domain config ->
     st <> Returned tt /\ Forall (fun ev => is_ready_log ev = false) hist).

(** [run] and [exec], one step at a time. *)
Definition continue {A : Type} (r : list Event * Task A)
    (inputs : list (nat * Response)) : list Event * Task A :=
  let '(evs, t) := r in
  let '(evs', t') := run t inputs in
  (evs ++ evs', t').

(** The pending promises [i], [i+1], ... resolve, in this order. *)
Fixpoint settle_from (i : nat) (values : list Value) : list (nat * Response) :=
  match values with
  | [] => []
  | v :: rest => (i, Resolve v) :: settle_from (S i) rest
  end.

(** The steps of [shutdownHandler], as an observer sees them. *)
Definition offline_publish (entity : Entity) : Event :=
  Called (PublishAsync (getTopic entity AVAILABILITY) (Text "offline") false).

Definition shutdown_prefix (entities : list Entity) : list Event :=
  [Did (Log Info "jema2mqtt: shutdown"); Did ClearInterval]
  ++ map offline_publish entities.

Definition shutdown_tail : list Event :=
  [Called EndAsync; Did (Log Info "mqtt-client: closed"); Did (ProcessExit 0)].

(** [shutdownHandler] from the point where the offline publishes are
    through, lines 193-196. *)
Definition shutdown_closing (jemas : gmap string Jema) : Prog unit :=
  await EndAsync ;;
  act (Log Info "mqtt-client: closed") ;;
  _ <- await_all (map (fun kv : string * Jema => Return kv.2) (map_to_list jemas)) ;;
  Halt 0.

(** A member of a join that returns as soon as its promise resolves. *)
Definition bare {R : Type} (s : Slot R) : Prop :=
  match s with
  | Fulfilled _ => True
  | Pending _ k => forall x, exists r, k x = Return r
  end.

(** The handler has cancelled the timer and sent every offline publish; it
    then waits for them, or was rejected by one of them; or has gone on to
    close the connection and waits for that, or was rejected by it; or has
    closed it and left the process with code 0. *)
Definition shutdown_post (entities : list Entity) : Post unit := fun hist st =>
  let stopped := st = Running \/ exists reason, st = Threw (External reason) in
  (hist = shutdown_prefix entities /\ stopped) \/
  (hist = shutdown_prefix entities ++ [Called EndAsync] /\ stopped) \/
  (hist = shutdown_prefix entities ++ shutdown_tail /\ st = Exited 0).

(** Every event the function can emit, under any settlements, satisfies [Q]. *)
Fixpoint async_emits_only (Q : Event -> Prop) {R : Type} (t : Async R) : Prop :=
  match t with
  | Return _ | Throw _ => True
  | Halt code => Q (Did (ProcessExit code))
  | Do eff k => Q (Did eff) /\ async_emits_only Q k
  | Await op k => Q (Called op) /\ forall x, async_emits_only Q (k x)
  end.

Fixpoint emits_only (Q : Event -> Prop) {A : Type} (p : Prog A) : Prop :=
  match p with
  | Return _ | Throw _ => True
  | Halt code => Q (Did (ProcessExit code))
  | Do eff k => Q (Did eff) /\ emits_only Q k
  | Await aw k =>
      match aw in Awaitable R return (R -> Prog A) -> Prop with
      | Call op => fun k => Q (Called op) /\ forall x, emits_only Q (k x)
      | All tasks => fun k =>
          Forall (async_emits_only Q) tasks /\ forall rs, emits_only Q (k rs)
      end k
  end.

(** No control line has been pulsed. *)
Definition never_pulses : Post unit :=
  fun hist _ => Forall (fun ev => is_pulse ev = false) hist.

(** Nothing the process has done is a pulse, and no function it still
    runs will send one. *)
Definition pulse_free (p : Process) : Prop :=
  Forall (fun ev => is_pulse ev = false) (trace p) /\
  (exists hist, task_holds (top p) hist never_pulses) /\
  Forall (fun t => exists hist, task_holds t hist never_pulses) (detached p).

(** A call on a hardware binding, or the request for one. *)
Definition is_binding_call (ev : Event) : bool :=
  match ev with
  | Called (RequestJemaAccess _ _) | Called (GetMonitor _) | Called (SendControl _)
  | Did (SetMonitorListener _ _) => true
  | _ => false
  end.

Definition is_timer (ev : Event) : bool :=
  match ev with
  | Did (SetInterval _ _) | Did ClearInterval => true
  | _ => false
  end.

(** The heartbeat publishes and then returns, or fails with the rejection
    of a publish. *)
Definition heartbeat_post (entities : list Entity) : Post unit :=
  fun evs outcome =>
    evs = map (fun e => Called (PublishAsync (getTopic e AVAILABILITY) (Text "online") false))
              entities /\
    (outcome = Running \/ outcome = Returned tt \/
     exists reason, outcome = Threw (External reason)).

(** The calls of a start-up, as an observer sees them. *)
Definition request_binding (entity : Entity) : Event :=
  Called (RequestJemaAccess (controlGpio entity) (monitorGpio entity)).

Definition online_publish (entity : Entity) : Event :=
  Called (PublishAsync (getTopic entity AVAILABILITY) (Text "online") false).

(** The retained publish of an entity's discovery message, lines 168-172;
    nothing when [getDiscoveryMessage] throws. *)
Definition discovery_publish (haDiscoveryPrefix deviceId : string) (qos : Z)
    (entity : Entity) : list Event :=
  match getDiscoveryMessage deviceId qos entity with
  | inr message =>
      [Called (PublishAsync
                 (haDiscoveryPrefix +:+ "/" +:+ domain entity +:+ "/"
                    +:+ unique_id_of deviceId entity +:+ "/config")
                 (Stringified message) true)]
  | inl _ => []
  end.

(** What the join of lines 153-174 emits when every call resolves, the
    members going on in step: the listeners are set and the monitors read,
    then the states are published, then the discovery messages. *)
Definition announce_trace (haDiscoveryPrefix deviceId : string) (qos : Z)
    (binding : Entity -> Jema) (monitor : Entity -> bool) (entities : list Entity)
    : list Event :=
  flat_map (fun e => [Did (SetMonitorListener (binding e) e);
                      Called (GetMonitor (binding e))]) entities
  ++ flat_map (fun e => [Called (publishState e (monitor e))]) entities
  ++ flat_map (discovery_publish haDiscoveryPrefix deviceId qos) entities.

Definition announce_schedule (monitor : Entity -> bool) (entities : list Entity)
    : list (nat * Response) :=
  settle_from 0 (map (fun e => VBool (monitor e)) entities)
  ++ settle_from 0 (map (fun _ => VUnit) entities)
  ++ settle_from 0 (map (fun _ => VUnit) entities).

(** [main()] from the point where every entity is announced, lines 176-204. *)
Definition main_announced (env : Settings) (entities : list Entity)
    (jemas : gmap string Jema) : Prog unit :=
  ms <- eval (AVAILABILITY_INTERVAL env) ;;
  act (SetInterval entities ms) ;;
  act (ProcessOn SIGINT entities jemas) ;;
  act (ProcessOn SIGTERM entities jemas) ;;
  _ <- await_all (publishAvailability entities "online") ;;
  act (Log Info "jema2mqtt: ready").

(** A start-up in which every call resolves, up to the announcements: the
    configuration, the bindings, the connection, the subscription, and the
    three rounds of the announcements. *)
Definition announced_schedule (config : Config) (binding : Entity -> Jema)
    (monitor : Entity -> bool) : list (nat * Response) :=
  (0, Resolve (VConfig config))
  :: settle_from 0 (map (fun e => VJema (binding e)) (entities config))
  ++ [(0, Resolve VUnit); (0, Resolve VUnit)]
  ++ announce_schedule monitor (entities config).

Definition announced_trace (env : Settings) (qos : Z) (broker : string)
    (config : Config) (binding : Entity -> Jema) (monitor : Entity -> bool)
    : list Event :=
  let entities := entities config in
  [Did (Log Info "jema2mqtt: start"); Called ReadConfig]
  ++ map request_binding entities
  ++ [Called (ConnectAsync broker (MQTT_USERNAME env) (MQTT_PASSWORD env));
      Did (Log Info "mqtt-client: connected")]
  ++ map (fun e => Did (Log Debug ("subscribe: " +:+ getTopic e COMMAND))) entities
  ++ [Called (SubscribeAsync (map (fun e => getTopic e COMMAND) entities));
      Did (ClientOnMessage entities (new_Map (map (fun e => (id e, binding e)) entities)))]
  ++ announce_trace (HA_DISCOVERY_PREFIX env) (deviceId config) qos binding monitor
                    entities.

(** ** Sample configurations *)

Definition front_door : Entity :=
  {| id := "front-door"; name := "Front door"; domain := "lock";
     controlGpio := 17; monitorGpio := 27 |}.

Definition garage : Entity :=
  {| id := "garage"; name := "Garage shutter"; domain := "cover";
     controlGpio := 22; monitorGpio := 23 |}.

Definition porch_light : Entity :=
  {| id := "porch"; name := "Porch light"; domain := "light";
     controlGpio := 5; monitorGpio := 6 |}.

Definition sample_env : Settings :=
  {| HA_DISCOVERY_PREFIX := "homeassistant"; QOS := inr 1%Z;
     MQTT_BROKER := inr "mqtt://broker"; MQTT_USERNAME := None;
     MQTT_PASSWORD := None; AVAILABILITY_INTERVAL := inr 10000%Z |}.

(** Settings with an availability interval that [asIntPositive] refuses. *)
Definition bad_interval_env : Settings :=
  {| HA_DISCOVERY_PREFIX := "homeassistant"; QOS := inr 1%Z;
     MQTT_BROKER := inr "mqtt://broker"; MQTT_USERNAME := None;
     MQTT_PASSWORD := None;
     AVAILABILITY_INTERVAL := inl "AVAILABILITY_INTERVAL should be a positive integer" |}.

(** Settings with a QoS that [asIntPositive] refuses. *)
Definition bad_qos_env : Settings :=
  {| HA_DISCOVERY_PREFIX := "homeassistant";
     QOS := inl "QOS should be a positive integer";
     MQTT_BROKER := inr "mqtt://broker"; MQTT_USERNAME := None;
     MQTT_PASSWORD := None; AVAILABILITY_INTERVAL := inr 10000%Z |}.


(** The binding the outside hands over for an entity, in the samples. *)
Definition sample_binding (entity : Entity) : Jema :=
  JemaRef (Z.to_nat (controlGpio entity)).

Definition sample_config : Config :=
  {| deviceId := "rpi"; entities := [front_door; garage] |}.

(** A configuration with a domain outside the type [EntityDomain]. *)
Definition porch_config : Config :=
  {| deviceId := "rpi"; entities := [porch_light] |}.

Definition porch_startup : list Input :=
  [ Settle Main 0 (Resolve (VConfig porch_config));
    Settle Main 0 (Resolve (VJema (JemaRef 0)));
    Settle Main 0 (Resolve VUnit);              (* connected *)
    Settle Main 0 (Resolve VUnit);              (* subscribed *)
    Settle Main 0 (Resolve (VBool false));      (* porch monitor *)
    Settle Main 0 (Resolve VUnit) ].            (* porch state published *)

Definition sample_jemas : gmap string Jema :=
  new_Map [("front-door", JemaRef 0); ("garage", JemaRef 1)].

(** A start-up of [sample_config] in which every call succeeds. *)
Definition sample_startup : list Input :=
  [ Settle Main 0 (Resolve (VConfig sample_config));
    Settle Main 0 (Resolve (VJema (JemaRef 0)));
    Settle Main 1 (Resolve (VJema (JemaRef 1)));
    Settle Main 0 (Resolve VUnit);              (* connected *)
    Settle Main 0 (Resolve VUnit);              (* subscribed *)
    Settle Main 0 (Resolve (VBool false));      (* front-door monitor *)
    Settle Main 1 (Resolve (VBool true));       (* garage monitor *)
    Settle Main 0 (Resolve VUnit);              (* front-door state published *)
    Settle Main 1 (Resolve VUnit);              (* garage state published *)
    Settle Main 0 (Resolve VUnit);              (* front-door discovery published *)
    Settle Main 1 (Resolve VUnit);              (* garage discovery published *)
    Settle Main 0 (Resolve VUnit);              (* online, front-door *)
    Settle Main 1 (Resolve VUnit) ].            (* online, garage *)

Definition sample_ready : Process := reacts (boot sample_env) sample_startup.

(** * Properties *)

(** ** Topic names *)

Lemma append_nil_l (s : string) : "" +:+ s = s.
Proof. reflexivity. Qed.

Lemma append_cons (c : ascii) (a b : string) :
  String c a +:+ b = String c (a +:+ b).
Proof. reflexivity. Qed.

Lemma append_inj_l (p a b : string) : p +:+ a = p +:+ b -> a = b.
Proof.
  induction p as [|c p IH]; rewrite ?append_nil_l, ?append_cons.
  - trivial.
  - intros Heq. injection Heq as Heq. auto.
Qed.

Lemma has_slash_app_slash (a b : string) :
  has_slash (a +:+ String "/" b) = true.
Proof.
  induction a as [|c a IH].
  - reflexivity.
  - rewrite append_cons. simpl. rewrite IH. apply orb_true_r.
Qed.

Lemma TopicType_value_no_slash (type : TopicType) :
  has_slash (TopicType_value type) = false.
Proof. destruct type; reflexivity. Qed.

(** A segment is cut off unambiguously from a suffix that has no slash. *)
Lemma segment_inj (a1 a2 b1 b2 : string) :
  has_slash b1 = false -> has_slash b2 = false ->
  a1 +:+ String "/" b1 = a2 +:+ String "/" b2 -> a1 = a2 /\ b1 = b2.
Proof.
  intros Hb1 Hb2. revert a2.
  induction a1 as [|c a1 IH]; intros [|c' a2];
    rewrite ?append_nil_l, ?append_cons; intros Heq.
  - injection Heq as ->. split; reflexivity.
  - injection Heq as _ Heq. subst b1.
    rewrite has_slash_app_slash in Hb1. discriminate.
  - injection Heq as _ Heq. subst b2.
    rewrite has_slash_app_slash in Hb2. discriminate.
  - injection Heq as -> Heq.
    destruct (IH a2 Heq) as [-> ->]. split; reflexivity.
Qed.

Lemma getTopic_inj (e1 e2 : Entity) (t1 t2 : TopicType) :
  getTopic e1 t1 = getTopic e2 t2 -> id e1 = id e2 /\ t1 = t2.
Proof.
  unfold getTopic. intros Heq.
  apply append_inj_l in Heq.
  change (id e1 +:+ String "/" (TopicType_value t1)
          = id e2 +:+ String "/" (TopicType_value t2)) in Heq.
  apply segment_inj in Heq; try apply TopicType_value_no_slash.
  destruct Heq as [Hid Hty]. split; [exact Hid|].
  destruct t1, t2; simpl in Hty; congruence.
Qed.

(** C4. [getTopic] is a function of the entity's id and the category alone,
    and entities with distinct ids never share a topic, whatever the two
    categories are. *)
Theorem getTopic_collision_free (e1 e2 : Entity) (t1 t2 : TopicType) :
  id e1 <> id e2 -> getTopic e1 t1 <> getTopic e2 t2.
Proof.
  intros Hne Heq. apply Hne. apply (getTopic_inj e1 e2 t1 t2 Heq).
Qed.

Lemma getTopic_collision_free_witness :
  id front_door <> id garage /\
  getTopic front_door STATE <> getTopic garage AVAILABILITY.
Proof.
  assert (H : id front_door <> id garage) by (simpl; discriminate).
  split; [exact H | exact (getTopic_collision_free front_door garage STATE AVAILABILITY H)].
Defined.

(** ** Discovery messages *)

(** C5. The discovery message of a lock, a switch and a cover carries the
    two command payloads of its domain, mapped to ACTIVE and INACTIVE. *)
Theorem discovery_payload_tokens (deviceId : string) (qos : Z) (entity : Entity) :
  (domain entity = "lock" ->
   exists message, getDiscoveryMessage deviceId qos entity = inr message /\
     get_field "payload_lock" message = Some (JString "ACTIVE") /\
     get_field "payload_unlock" message = Some (JString "INACTIVE")) /\
  (domain entity = "switch" ->
   exists message, getDiscoveryMessage deviceId qos entity = inr message /\
     get_field "payload_on" message = Some (JString "ACTIVE") /\
     get_field "payload_off" message = Some (JString "INACTIVE")) /\
  (domain entity = "cover" ->
   exists message, getDiscoveryMessage deviceId qos entity = inr message /\
     get_field "payload_close" message = Some (JString "ACTIVE") /\
     get_field "payload_open" message = Some (JString "INACTIVE")).
Proof.
  repeat split; intros Hdomain; unfold getDiscoveryMessage; rewrite Hdomain;
    simpl; eexists; (split; [reflexivity|]); split; reflexivity.
Qed.

Lemma discovery_payload_tokens_witness :
  domain front_door = "lock" /\
  exists message, getDiscoveryMessage "rpi" 1 front_door = inr message /\
    get_field "payload_lock" message = Some (JString "ACTIVE") /\
    get_field "payload_unlock" message = Some (JString "INACTIVE").
Proof.
  split; [reflexivity|].
  exact (proj1 (discovery_payload_tokens "rpi" 1 front_door) eq_refl).
Defined.

(** ** Settlements *)

Lemma resume_settled {A} (t : Task A) (i : nat) (r : Response) :
  settled t = true -> resume t i r = ([], t).
Proof. destruct t; simpl; intros H; try discriminate; reflexivity. Qed.

Lemma run_settled {A} (t : Task A) (inputs : list (nat * Response)) :
  settled t = true -> run t inputs = ([], t).
Proof.
  intros Ht. induction inputs as [|[i r] rest IH]; simpl.
  - reflexivity.
  - rewrite resume_settled, IH by exact Ht. reflexivity.
Qed.

(** The last [await] of a function: whatever arrives, nothing more is
    called. *)
Lemma run_last_wait {A X} (op : Op X) (k : X -> Prog A)
    (inputs : list (nat * Response)) :
  (forall x, (start (k x)).1 = [] /\ settled (start (k x)).2 = true) ->
  (run (Waiting op k) inputs).1 = [].
Proof.
  intros Hk. induction inputs as [|[i r] rest IH]; simpl.
  - reflexivity.
  - destruct i as [|i]; [destruct r as [v|reason]; [destruct (decode op v) as [x|]|]|].
    + destruct (Hk x) as [Hevs Hset].
      destruct (start (k x)) as [evs t]. simpl in Hevs, Hset. subst evs.
      rewrite run_settled by exact Hset. reflexivity.
    + destruct (run (Waiting op k) rest). simpl in *. exact IH.
    + rewrite run_settled by reflexivity. reflexivity.
    + destruct (run (Waiting op k) rest). simpl in *. exact IH.
Qed.

(** ** Commands *)

(** The entity [find] picks for a command topic has the id the topic was
    built from. *)
Lemma find_command_topic (entities : list Entity) (entity : Entity) :
  In entity entities ->
  exists found,
    List.find (fun e => String.eqb (getTopic e COMMAND) (getTopic entity COMMAND))
              entities = Some found /\
    In found entities /\ id found = id entity.
Proof.
  induction entities as [|e rest IH]; intros Hin; [destruct Hin|].
  cbn [List.find].
  destruct (String.eqb (getTopic e COMMAND) (getTopic entity COMMAND)) eqn:Heq.
  - exists e. split; [reflexivity|]. split; [left; reflexivity|].
    apply String.eqb_eq in Heq. apply (getTopic_inj _ _ _ _ Heq).
  - destruct Hin as [->|Hin].
    + rewrite String.eqb_refl in Heq. discriminate.
    + destruct (IH Hin) as (found & Hfind & Hfound & Hid).
      exists found. split; [exact Hfind|]. split; [right; exact Hfound|exact Hid].
Qed.

Lemma find_no_topic (entities : list Entity) (topic : string) :
  (forall entity, In entity entities -> getTopic entity COMMAND <> topic) ->
  List.find (fun e => String.eqb (getTopic e COMMAND) topic) entities = None.
Proof.
  induction entities as [|e rest IH]; intros Hno; cbn [List.find].
  - reflexivity.
  - destruct (String.eqb (getTopic e COMMAND) topic) eqn:Heq.
    + apply String.eqb_eq in Heq. destruct (Hno e (or_introl eq_refl) Heq).
    + apply IH. intros entity Hin. apply Hno. right. exact Hin.
Qed.

(** What [handleMessage] is once the topic is that of a configured entity. *)
Lemma handleMessage_bound (entities : list Entity) (jemas : gmap string Jema)
    (entity : Entity) (message : string) :
  In entity entities -> bound entities jemas ->
  exists jema,
    jemas !! id entity = Some jema /\
    handleMessage entities jemas (getTopic entity COMMAND) message =
      Await (Call (GetMonitor jema)) (fun monitor =>
        if (String.eqb message StatusMessage.ACTIVE && negb monitor)
           || (String.eqb message StatusMessage.INACTIVE && monitor)
        then await (SendControl jema)
        else Return tt).
Proof.
  intros Hin Hbound.
  destruct (find_command_topic entities entity Hin) as (found & Hfind & Hfound & Hid).
  destruct (Hbound found Hfound) as [jema Hjema].
  exists jema. split; [rewrite <- Hid; exact Hjema|].
  unfold handleMessage. rewrite Hfind, Hjema. reflexivity.
Qed.

(** C1. A command on the topic of a configured entity reads the monitor of
    the entity's binding; when the payload is ACTIVE and the value read is
    false, or INACTIVE and true, the control line of that binding is pulsed
    exactly once, whatever arrives afterwards; when the payload asks for the
    state the monitor already has, no pulse is sent. *)
Theorem handleMessage_pulses_on_difference
    (entities : list Entity) (jemas : gmap string Jema) (entity : Entity)
    (message : string) (monitor : bool) (rest : list (nat * Response)) :
  In entity entities -> bound entities jemas ->
  exists jema,
    jemas !! id entity = Some jema /\
    let evs := (exec (handleMessage entities jemas (getTopic entity COMMAND) message)
                     ((0, Resolve (VBool monitor)) :: rest)).1 in
    ((message = StatusMessage.ACTIVE /\ monitor = false \/
      message = StatusMessage.INACTIVE /\ monitor = true) ->
     evs = [Called (GetMonitor jema); Called (SendControl jema)] /\
     count is_pulse evs = 1) /\
    ((message = StatusMessage.ACTIVE /\ monitor = true \/
      message = StatusMessage.INACTIVE /\ monitor = false) ->
     evs = [Called (GetMonitor jema)] /\ count is_pulse evs = 0).
Proof.
  intros Hin Hbound.
  destruct (handleMessage_bound entities jemas entity message Hin Hbound)
    as (jema & Hjema & ->).
  exists jema. split; [exact Hjema|].
  unfold exec. cbn [start]. cbn [run resume decode].
  split; intros [[-> ->]|[-> ->]]; cbn [String.eqb Ascii.eqb Bool.eqb andb orb negb StatusMessage.ACTIVE StatusMessage.INACTIVE].
  - unfold await. cbn [start].
    pose proof (run_last_wait (A:=unit) (SendControl jema) Return rest) as Hrest.
    destruct (run (Waiting (SendControl jema) Return) rest) as [evs t].
    simpl in Hrest. rewrite Hrest by (intros []; split; reflexivity).
    split; reflexivity.
  - unfold await. cbn [start].
    pose proof (run_last_wait (A:=unit) (SendControl jema) Return rest) as Hrest.
    destruct (run (Waiting (SendControl jema) Return) rest) as [evs t].
    simpl in Hrest. rewrite Hrest by (intros []; split; reflexivity).
    split; reflexivity.
  - cbn [start]. rewrite run_settled by reflexivity. split; reflexivity.
  - cbn [start]. rewrite run_settled by reflexivity. split; reflexivity.
Qed.

Lemma sample_bound : bound (entities sample_config) sample_jemas.
Proof.
  intros entity [<-|[<-|[]]]; vm_compute; eexists; reflexivity.
Defined.

Lemma handleMessage_pulses_on_difference_witness :
  In front_door (entities sample_config) /\
  bound (entities sample_config) sample_jemas /\
  count is_pulse
    (exec (handleMessage (entities sample_config) sample_jemas
             (getTopic front_door COMMAND) "ACTIVE")
          [(0, Resolve (VBool false)); (0, Resolve VUnit)]).1 = 1.
Proof.
  assert (Hin : In front_door (entities sample_config)) by (left; reflexivity).
  split; [exact Hin|]. split; [exact sample_bound|].
  destruct (handleMessage_pulses_on_difference (entities sample_config) sample_jemas
              front_door "ACTIVE" false [(0, Resolve VUnit)] Hin sample_bound)
    as (jema & _ & Hpulse & _).
  exact (proj2 (Hpulse (or_introl (conj eq_refl eq_refl)))).
Defined.

(** C2, as the code has it.  A payload that is neither ACTIVE nor INACTIVE,
    on the topic of a configured entity, never leads to a pulse: the only
    call made is the monitor read that precedes the test of the payload.
    The handler ends without error once that read resolves, and is rejected
    with the read's own failure when the read is. *)
Theorem handleMessage_unknown_payload
    (entities : list Entity) (jemas : gmap string Jema) (entity : Entity)
    (message : string) :
  In entity entities -> bound entities jemas ->
  message <> StatusMessage.ACTIVE -> message <> StatusMessage.INACTIVE ->
  exists jema,
    jemas !! id entity = Some jema /\
    let handler := handleMessage entities jemas (getTopic entity COMMAND) message in
    (forall inputs,
       (exec handler inputs).1 = [Called (GetMonitor jema)] /\
       count is_pulse (exec handler inputs).1 = 0) /\
    (forall monitor rest,
       (exec handler ((0, Resolve (VBool monitor)) :: rest)).2 = Done tt) /\
    (forall reason rest,
       (exec handler ((0, Reject reason) :: rest)).2 = Failed (External reason)).
Proof.
  intros Hin Hbound Hactive Hinactive.
  destruct (handleMessage_bound entities jemas entity message Hin Hbound)
    as (jema & Hjema & ->).
  exists jema. split; [exact Hjema|].
  apply String.eqb_neq in Hactive, Hinactive.
  rewrite Hactive, Hinactive. cbn [andb orb].
  unfold exec. cbn [start]. repeat split.
  - pose proof (run_last_wait (A:=unit) (GetMonitor jema) (fun _ => Return tt) inputs) as H.
    destruct (run _ inputs) as [evs t]. simpl in H |- *.
    rewrite H by (intros x; split; reflexivity). reflexivity.
  - pose proof (run_last_wait (A:=unit) (GetMonitor jema) (fun _ => Return tt) inputs) as H.
    destruct (run _ inputs) as [evs t]. simpl in H |- *.
    rewrite H by (intros x; split; reflexivity). reflexivity.
  - intros monitor rest. cbn [run resume decode start].
    rewrite run_settled by reflexivity. reflexivity.
  - intros reason rest. cbn [run resume].
    rewrite run_settled by reflexivity. reflexivity.
Qed.

Lemma handleMessage_unknown_payload_witness :
  In front_door (entities sample_config) /\
  bound (entities sample_config) sample_jemas /\
  "TOGGLE" <> StatusMessage.ACTIVE /\ "TOGGLE" <> StatusMessage.INACTIVE /\
  count is_pulse
    (exec (handleMessage (entities sample_config) sample_jemas
             (getTopic front_door COMMAND) "TOGGLE")
          [(0, Resolve (VBool true))]).1 = 0.
Proof.
  assert (Hin : In front_door (entities sample_config)) by (left; reflexivity).
  assert (Ha : "TOGGLE" <> StatusMessage.ACTIVE) by discriminate.
  assert (Hi : "TOGGLE" <> StatusMessage.INACTIVE) by discriminate.
  split; [exact Hin|]. split; [exact sample_bound|].
  split; [exact Ha|]. split; [exact Hi|].
  destruct (handleMessage_unknown_payload (entities sample_config) sample_jemas
              front_door "TOGGLE" Hin sample_bound Ha Hi)
    as (jema & _ & Hquiet & _).
  exact (proj2 (Hquiet [(0, Resolve (VBool true))])).
Defined.

(** C2, as the specification has it, fails: the handler reads the monitor
    before it looks at the payload, so a payload it would drop still raises
    the error of a failed read. *)
Lemma unknown_payload_read_failure :
  "TOGGLE" <> StatusMessage.ACTIVE /\ "TOGGLE" <> StatusMessage.INACTIVE /\
  exec (handleMessage (entities sample_config) sample_jemas
          (getTopic front_door COMMAND) "TOGGLE")
       [(0, Reject "EIO")]
  = ([Called (GetMonitor (JemaRef 0))], Failed (External "EIO")).
Proof.
  split; [discriminate|]. split; [discriminate|]. vm_compute. reflexivity.
Qed.

(** ** Monitor changes *)

Lemma trace_perform (eff : Effect) (p : Process) : trace (perform eff p) = trace p.
Proof. destruct eff; reflexivity. Qed.

Lemma trace_absorb (evs : list Event) (p : Process) :
  trace (absorb evs p) = trace p ++ evs.
Proof.
  revert p. induction evs as [|ev evs IH]; intros p; simpl.
  - rewrite app_nil_r. reflexivity.
  - unfold absorb in IH. rewrite IH.
    destruct ev; simpl; rewrite ?trace_perform; simpl;
      rewrite <- app_assoc; reflexivity.
Qed.

Lemma trace_unhandled (t : Task unit) (p : Process) : trace (unhandled t p) = trace p.
Proof. destruct t; try reflexivity. simpl. destruct (ended p); reflexivity. Qed.

(** A promise that is not rejected ends nothing. *)
Lemma unhandled_running (t : Task unit) (p : Process) :
  (forall e, t <> Failed e) -> unhandled t p = p.
Proof. destruct t as [a|e|code|X op k|R slots k]; try reflexivity. intros H. destruct (H e eq_refl). Qed.

(** C3. When a binding calls the listener registered for an entity with a
    value, one publish is made, to the state topic of the entity, retained,
    with ACTIVE for true and INACTIVE for false; the domain plays no part,
    and nothing else is called when that publish settles. *)
Theorem monitor_change_publishes_state
    (p : Process) (n : nat) (jema : Jema) (entity : Entity) (value : bool) :
  ended p = None -> monitor_listeners p !! n = Some (jema, entity) ->
  let publish :=
    Called (PublishAsync (getTopic entity STATE)
              (Text (if value then "ACTIVE" else "INACTIVE")) true) in
  trace (react p (MonitorChange n value)) = trace p ++ [publish] /\
  forall inputs, (exec (monitorListener entity value) inputs).1 = [publish].
Proof.
  intros Halive Hlistener publish. split.
  - unfold react. rewrite Halive, Hlistener. unfold spawn. rewrite Halive.
    unfold monitorListener, await. cbn [start unhandled]. rewrite trace_absorb.
    destruct value; reflexivity.
  - intros inputs. unfold exec, monitorListener, await. cbn [start].
    pose proof (run_last_wait (A:=unit) (publishState entity value) Return inputs) as H.
    destruct (run _ inputs) as [evs t]. simpl in H |- *.
    rewrite H by (intros []; split; reflexivity).
    destruct value; reflexivity.
Qed.

Lemma monitor_change_publishes_state_witness :
  ended sample_ready = None /\
  monitor_listeners sample_ready !! 1 = Some (JemaRef 1, garage) /\
  trace (react sample_ready (MonitorChange 1 false))
  = trace sample_ready
    ++ [Called (PublishAsync "jema2mqtt/garage/state" (Text "INACTIVE") true)].
Proof.
  assert (Halive : ended sample_ready = None) by (vm_compute; reflexivity).
  assert (Hl : monitor_listeners sample_ready !! 1 = Some (JemaRef 1, garage))
    by (vm_compute; reflexivity).
  split; [exact Halive|]. split; [exact Hl|].
  exact (proj1 (monitor_change_publishes_state sample_ready 1 (JemaRef 1) garage false
                  Halive Hl)).
Defined.

(** ** Soundness of [holds] *)

Lemma start_async_may {R} (t : Async R) :
  Forall (fun ev => may t (Emits ev)) (start_async t).1 /\
  match (start_async t).2 with
  | Suspends slot => forall o, slot_may slot o -> may t o
  | Rejects e => may t (Throws e)
  | Exits code => may t (Leaves code)
  end.
Proof.
  induction t as [r|e|code|eff k IH|X op k IH]; simpl.
  - split; [constructor|]. intros o Ho. exact Ho.
  - split; [constructor|]. reflexivity.
  - split; [|right; reflexivity]. repeat constructor.
  - destruct (start_async k) as [evs s]. simpl in *. destruct IH as [Hevs Hs]. split.
    + constructor; [left; reflexivity|].
      eapply Forall_impl; [exact Hevs|]. intros ev Hev. right. exact Hev.
    + destruct s; [intros o Ho|..]; right; auto.
  - split; [repeat constructor|]. intros o Ho. right. exact Ho.
Qed.

Lemma launch_may {R} (tasks : list (Async R)) :
  Forall (fun ev => Exists (fun t => may t (Emits ev)) tasks) (launch tasks).1 /\
  match (launch tasks).2 with
  | JSlots slots => Forall2 (fun t s => forall o, slot_may s o -> may t o) tasks slots
  | JFailed e => Exists (fun t => may t (Throws e)) tasks
  | JHalted code => Exists (fun t => may t (Leaves code)) tasks
  end.
Proof.
  induction tasks as [|t rest IH]; simpl.
  - split; constructor.
  - pose proof (start_async_may t) as [Hevs Hs].
    destruct (start_async t) as [evs s]. simpl in Hevs, Hs.
    assert (Hhead : Forall (fun ev => Exists (fun t0 => may t0 (Emits ev)) (t :: rest)) evs).
    { eapply Forall_impl; [exact Hevs|]. intros ev Hev. left. exact Hev. }
    destruct s as [slot|e|code].
    + destruct (launch rest) as [evs' j]. simpl in IH |- *. destruct IH as [Hevs' Hj].
      split.
      * apply Forall_app. split; [exact Hhead|].
        eapply Forall_impl; [exact Hevs'|]. intros ev Hev. right. exact Hev.
      * destruct j; [constructor; assumption|right; exact Hj..].
    + destruct (launch rest) as [evs' j]. simpl in IH |- *. destruct IH as [Hevs' Hj].
      split.
      * apply Forall_app. split; [exact Hhead|].
        eapply Forall_impl; [exact Hevs'|]. intros ev Hev. right. exact Hev.
      * destruct j; [left; exact Hs..|right; exact Hj].
    + simpl. split; [exact Hhead|left; exact Hs].
Qed.

Lemma collect_may {R} (slots : list (Slot R)) (rs : list R) :
  collect slots = Some rs -> Forall2 (fun s r => slot_may s (Returns r)) slots rs.
Proof.
  revert rs. induction slots as [|s rest IH]; intros rs; simpl.
  - intros [= <-]. constructor.
  - destruct s as [r|X op k]; [|discriminate].
    destruct (collect rest) as [rs'|]; simpl; [|discriminate].
    intros [= <-]. constructor; [reflexivity|]. apply IH. reflexivity.
Qed.

(** A join that allows more, later, is allowed as well. *)
Lemma join_holds_mono {M N R A} (can : M -> Obs R -> Prop) (can' : N -> Obs R -> Prop)
    (members : list M) (members' : list N) (hist evs : list Event) (post : Post A)
    (next : list R -> list Event -> Prop) :
  Forall2 (fun m m' => forall o, can' m' o -> can m o) members members' ->
  Forall (fun ev => Exists (fun m => can m (Emits ev)) members) evs ->
  join_holds can members hist post next ->
  join_holds can' members' (hist ++ evs) post next.
Proof.
  intros Hsub Hevs Hjoin evs' Hevs'.
  assert (Hex : forall o, Exists (fun m' => can' m' o) members' ->
                          Exists (fun m => can m o) members).
  { intros o. clear -Hsub. induction Hsub as [|m m' ms ms' Hm _ IH]; intros Hex.
    - inversion Hex.
    - inversion Hex; subst; [left; auto|right; auto]. }
  rewrite <- app_assoc.
  destruct (Hjoin (evs ++ evs')) as (Hrun & Hthrow & Hexit & Hnext).
  { apply Forall_app. split; [exact Hevs|].
    eapply Forall_impl; [exact Hevs'|]. intros ev. apply Hex. }
  split; [exact Hrun|]. split; [intros e He; apply Hthrow, Hex, He|].
  split; [intros code Hc; apply Hexit, Hex, Hc|].
  intros rs Hrs. apply Hnext.
  clear -Hsub Hrs. revert rs Hrs.
  induction Hsub as [|m m' ms ms' Hm _ IH]; intros rs Hrs; inversion Hrs; subst;
    constructor; auto.
Qed.

(** The members' own view of a join: it is enough to allow, at any time,
    whatever some member can do. *)
Lemma launched_may {R A} (tasks : list (Async R)) (hist : list Event)
    (post : Post A) (next : list R -> list Event -> Prop) :
  join_holds may tasks hist post next -> launched tasks hist post next.
Proof.
  intros Hjoin. unfold launched.
  pose proof (launch_may tasks) as [Hevs Hj].
  destruct (launch tasks) as [evs j]. simpl in Hevs, Hj.
  destruct (Hjoin evs Hevs) as (_ & Hthrow & Hexit & Hnext).
  destruct j as [slots|e|code]; [|apply Hthrow, Hj|apply Hexit, Hj].
  destruct (collect slots) as [rs|] eqn:Hcollect.
  - apply Hnext. apply collect_may in Hcollect. clear -Hj Hcollect. revert rs Hcollect.
    induction Hj as [|t s ts ss Hts _ IHj]; intros rs Hc; inversion Hc; subst;
      constructor; auto.
  - eapply join_holds_mono in Hjoin; [exact Hjoin|exact Hj|exact Hevs].
Qed.

Lemma start_holds {A} (p : Prog A) (hist : list Event) (post : Post A) :
  holds p hist post -> task_holds (start p).2 (hist ++ (start p).1) post.
Proof.
  revert hist. induction p as [a|e|code|eff k IH|R aw k IH]; intros hist Hp.
  - simpl. rewrite app_nil_r. exact Hp.
  - simpl. rewrite app_nil_r. exact Hp.
  - exact Hp.
  - simpl in Hp. specialize (IH _ Hp). simpl.
    destruct (start k) as [evs t]. simpl in IH |- *.
    rewrite <- app_assoc in IH. exact IH.
  - destruct aw as [R op|R tasks].
    + exact Hp.
    + simpl in Hp. unfold launched in Hp. cbn [start].
      destruct (launch tasks) as [evs [slots|e|code]]; [|exact Hp..].
      destruct (collect slots) as [rs|] eqn:Hcollect; [|exact Hp].
      specialize (IH rs _ Hp).
      destruct (start (k rs)) as [evs' t]. simpl in IH |- *.
      rewrite app_assoc. exact IH.
Qed.

Lemma resume_holds {A} (t : Task A) (i : nat) (r : Response)
    (hist : list Event) (post : Post A) :
  task_holds t hist post ->
  task_holds (resume t i r).2 (hist ++ (resume t i r).1) post.
Proof.
  intros Ht. destruct t as [a|e|code|X op k|R slots k];
    try (simpl; rewrite app_nil_r; exact Ht).
  - destruct Ht as (Hrun & Hthrow & Hnext). simpl.
    destruct i as [|i]; [|simpl; rewrite app_nil_r; repeat split; assumption].
    destruct r as [v|reason].
    + destruct (decode op v) as [x|].
      * apply start_holds, Hnext.
      * simpl. rewrite app_nil_r. repeat split; assumption.
    + simpl. rewrite app_nil_r. apply Hthrow.
  - simpl in Ht |- *.
    assert (Hsame : task_holds (Joining slots k) (hist ++ []) post).
    { rewrite app_nil_r. exact Ht. }
    destruct (slots !! i) as [[r0|X op k']|] eqn:Hi; try exact Hsame.
    assert (Hin : forall o, slot_may (Pending op k') o ->
                            Exists (fun s => slot_may s o) slots).
    { intros o Ho. apply Exists_exists. exists (Pending op k'). split; [|exact Ho].
      eapply list_elem_of_lookup_2. exact Hi. }
    destruct r as [v|reason].
    + destruct (decode op v) as [x|]; [|exact Hsame].
      pose proof (start_async_may (k' x)) as [Hevs Hs].
      destruct (start_async (k' x)) as [evs s]. simpl in Hevs, Hs.
      assert (Hevs' : Forall (fun ev => Exists (fun s => slot_may s (Emits ev)) slots) evs).
      { eapply Forall_impl; [exact Hevs|]. intros ev Hev. apply Hin. right. exists x. exact Hev. }
      destruct (Ht evs Hevs') as (Hrun & Hthrow & Hexit & Hnext).
      destruct s as [slot|e|code].
      * assert (Hsub : Forall2 (fun s s' => forall o, slot_may s' o -> slot_may s o)
                               slots (<[i := slot]> slots)).
        { rewrite <- (list_insert_id slots i (Pending op k')) at 1 by exact Hi.
          apply Forall2_insert.
          - apply Forall_Forall2_diag, Forall_forall. auto.
          - intros o Ho. right. exists x. apply Hs, Ho. }
        destruct (collect (<[i := slot]> slots)) as [rs|] eqn:Hcollect.
        -- assert (Hrs : Forall2 (fun s r => slot_may s (Returns r)) slots rs).
           { apply collect_may in Hcollect. clear -Hsub Hcollect. revert rs Hcollect.
             induction Hsub as [|s s' ss ss' Hss _ IHs]; intros rs Hc; inversion Hc; subst;
               constructor; auto. }
           pose proof (start_holds (k rs) _ post (Hnext rs Hrs)) as Hk.
           destruct (start (k rs)) as [evs' t']. simpl in Hk |- *.
           rewrite app_assoc. exact Hk.
        -- simpl. eapply join_holds_mono in Ht; [exact Ht|exact Hsub|exact Hevs'].
      * simpl. apply Hthrow, Hin. right. exists x. exact Hs.
      * simpl. apply Hexit, Hin. right. exists x. exact Hs.
    + simpl. rewrite app_nil_r.
      destruct (Ht [] (List.Forall_nil _)) as (_ & Hthrow & _).
      rewrite app_nil_r in Hthrow. apply Hthrow, Hin. left. exists reason. reflexivity.
Qed.

Lemma run_holds {A} (t : Task A) (inputs : list (nat * Response))
    (hist : list Event) (post : Post A) :
  task_holds t hist post ->
  task_holds (run t inputs).2 (hist ++ (run t inputs).1) post.
Proof.
  revert t hist. induction inputs as [|[i r] rest IH]; intros t hist Ht; simpl.
  - rewrite app_nil_r. exact Ht.
  - pose proof (resume_holds t i r hist post Ht) as Hstep.
    destruct (resume t i r) as [evs t']. simpl in Hstep.
    specialize (IH t' _ Hstep).
    destruct (run t' rest) as [evs' t'']. simpl in IH |- *.
    rewrite app_assoc. exact IH.
Qed.

Lemma task_holds_status {A} (t : Task A) (hist : list Event) (post : Post A) :
  task_holds t hist post -> post hist (status t).
Proof.
  destruct t as [a|e|code|X op k|R slots k]; simpl; try (intros H; exact H).
  - intros [H _]. exact H.
  - intros H. destruct (H [] (List.Forall_nil _)) as [Hrun _].
    rewrite app_nil_r in Hrun. exact Hrun.
Qed.

(** Where a function satisfies a condition throughout, every execution of
    it ends or waits in a state that satisfies the condition. *)
Lemma holds_exec {A} (p : Prog A) (inputs : list (nat * Response))
    (hist : list Event) (post : Post A) :
  holds p hist post ->
  post (hist ++ (exec p inputs).1) (status (exec p inputs).2).
Proof.
  intros Hp. apply task_holds_status. unfold exec.
  pose proof (start_holds p hist post Hp) as Hstart.
  destruct (start p) as [evs t]. simpl in Hstart.
  pose proof (run_holds t inputs _ post Hstart) as Hrun.
  destruct (run t inputs) as [evs' t']. simpl in Hrun |- *.
  rewrite app_assoc. exact Hrun.
Qed.

(** ** The bindings [main] collects *)

Lemma new_Map_lookup_acc (pairs : list (string * Jema)) (m : gmap string Jema)
    (key : string) :
  In key (map fst pairs) \/ is_Some (m !! key) ->
  is_Some (fold_left (fun m kv => <[kv.1 := kv.2]> m) pairs m !! key).
Proof.
  revert m. induction pairs as [|[k v] rest IH]; intros m H; simpl.
  - destruct H as [[]|H]. exact H.
  - apply IH. destruct H as [[Hk|Hin]|Hm].
    + right. simpl in Hk. subst k. rewrite lookup_insert_eq. eauto.
    + left. exact Hin.
    + right. simpl. destruct (decide (k = key)) as [->|Hne].
      * rewrite lookup_insert_eq. eauto.
      * rewrite lookup_insert_ne by exact Hne. exact Hm.
Qed.

(** A map built from one pair per entity, keyed by the entity's id, has a
    binding for every entity. *)
Lemma new_Map_bound (entities : list Entity) (pairs : list (string * Jema)) :
  map fst pairs = map id entities -> bound entities (new_Map pairs).
Proof.
  intros Hkeys entity Hin. apply new_Map_lookup_acc. left.
  rewrite Hkeys. apply in_map. exact Hin.
Qed.

Lemma acquire_returns (entities : list Entity) (pairs : list (string * Jema)) :
  Forall2 (fun t r => may t (Returns r)) (map acquire entities) pairs ->
  map fst pairs = map id entities.
Proof.
  revert pairs. induction entities as [|e rest IH]; intros pairs H;
    inversion H as [|t r ts rs Hhead Htail]; subst; simpl.
  - reflexivity.
  - f_equal; [|apply IH; exact Htail].
    simpl in Hhead. destruct Hhead as [Hh|[[reason Hh]|[jema Hh]]];
      try discriminate. injection Hh as Hh. subst r. reflexivity.
Qed.

(** ** What the members of the joins of [main] can do *)

Lemma acquire_may (entity : Entity) (o : Obs (string * Jema)) :
  may (acquire entity) o ->
  match o with
  | Emits ev => is_member_event ev = true
  | Throws e => exists reason, e = External reason
  | Returns _ => True
  | Leaves _ => False
  end.
Proof.
  simpl. intros [->|[[reason ->]|[jema ->]]]; simpl; eauto.
Qed.

Lemma promise_may {R} (op : Op R) (o : Obs R) :
  may (promise op) o ->
  match o with
  | Emits ev => ev = Called op
  | Throws e => exists reason, e = External reason
  | Returns _ => True
  | Leaves _ => False
  end.
Proof.
  simpl. intros [->|[[reason ->]|[x ->]]]; simpl; eauto.
Qed.

Lemma announce_may (prefix deviceId : string) (qos : Z) (jemas : gmap string Jema)
    (entity : Entity) (o : Obs unit) :
  may (announce prefix deviceId qos jemas entity) o ->
  match o with
  | Emits ev => is_member_event ev = true
  | Throws _ => True
  | Returns _ => known_domain (domain entity) = true
  | Leaves _ => False
  end.
Proof.
  unfold announce, getDiscoveryMessage, known_domain.
  destruct (jemas !! id entity) as [jema|]; [|simpl; intros ->; exact I].
  destruct (String.eqb (domain entity) "lock");
    [|destruct (String.eqb (domain entity) "switch");
      [|destruct (String.eqb (domain entity) "cover")]];
    simpl; intros H;
    repeat match goal with
           | H : _ \/ _ |- _ => destruct H as [H|H]
           | H : exists _, _ |- _ => destruct H as [? H]
           end; subst o; simpl; auto.
Qed.

Lemma publishAvailability_may (entities : list Entity) (value : string) (o : Obs unit) :
  Exists (fun t => may t o) (publishAvailability entities value) ->
  match o with
  | Emits ev => is_member_event ev = true
  | Throws e => exists reason, e = External reason
  | Returns _ => True
  | Leaves _ => False
  end.
Proof.
  unfold publishAvailability. intros H. apply Exists_exists in H.
  destruct H as (t & Ht & Hmay). apply list_elem_of_In, in_map_iff in Ht.
  destruct Ht as (entity & <- & _). apply promise_may in Hmay.
  destruct o; auto. subst ev. reflexivity.
Qed.

Lemma bind_log_subscriptions {E A} (entities : list Entity) (k : Free E unit)
    (f : unit -> Free E A) :
  bind (log_subscriptions entities k) f = log_subscriptions entities (bind k f).
Proof.
  induction entities as [|e rest IH]; simpl; [reflexivity|]. rewrite IH. reflexivity.
Qed.

Lemma holds_log_subscriptions {A} (entities : list Entity) (k : Prog A)
    (hist : list Event) (post : Post A) :
  holds (log_subscriptions entities k) hist post
  = holds k (hist ++ map (fun e => Did (Log Debug ("subscribe: " +:+ getTopic e COMMAND)))
                         entities) post.
Proof.
  revert hist. induction entities as [|e rest IH]; intros hist; simpl.
  - rewrite app_nil_r. reflexivity.
  - rewrite IH, <- app_assoc. reflexivity.
Qed.

Lemma member_events_plain (evs : list Event) :
  Forall (fun ev => is_member_event ev = true) evs ->
  Forall registers_bound evs /\ Forall (fun ev => is_ready_log ev = false) evs /\
  Forall (fun ev => is_connect ev = false) evs.
Proof.
  intros H. repeat split; (eapply Forall_impl; [exact H|]); intros ev Hev.
  - intros entities jemas ->. discriminate.
  - destruct ev as [[]|R []]; try discriminate; reflexivity.
  - destruct ev as [[]|R []]; try discriminate; reflexivity.
Qed.

Lemma Forall_snoc {X} (P : X -> Prop) (l : list X) (x : X) :
  Forall P l -> P x -> Forall P (l ++ [x]).
Proof. intros Hl Hx. apply Forall_app. split; [exact Hl|]. constructor; [exact Hx|constructor]. Qed.

Lemma main_post_pending (config : Config) (hist : list Event) :
  Forall registers_bound hist ->
  Forall (fun ev => is_ready_log ev = false) hist ->
  main_post config hist Running /\
  forall reason, main_post config hist (Threw (External reason)).
Proof.
  intros Hreg Hready. split; [|intros reason];
    (split; [exact Hreg|]; split; [intros message; discriminate|]);
    intros _; (split; [discriminate|exact Hready]).
Qed.

Lemma main_post_threw (config : Config) (hist : list Event) (e : Error) :
  Forall registers_bound hist ->
  Forall (fun ev => is_ready_log ev = false) hist ->
  Exists (fun ev => is_connect ev = true) hist ->
  Exists (fun ev => is_connected_log ev = true) hist ->
  main_post config hist (Threw e).
Proof.
  intros Hreg Hready Hconnect Hlog. split; [exact Hreg|].
  split; [intros message _; split; assumption|].
  intros _. split; [discriminate|exact Hready].
Qed.

(** A join whose members only emit member events and never leave. *)
Lemma join_holds_members {R A} (tasks : list (Async R)) (hist : list Event)
    (post : Post A) (next : list R -> list Event -> Prop) :
  (forall t o, In t tasks -> may t o ->
     match o with
     | Emits ev => is_member_event ev = true
     | Leaves _ => False
     | _ => True
     end) ->
  (forall evs, Forall (fun ev => is_member_event ev = true) evs ->
     post (hist ++ evs) Running /\
     (forall e, Exists (fun t => may t (Throws e)) tasks -> post (hist ++ evs) (Threw e)) /\
     (forall rs, Forall2 (fun t r => may t (Returns r)) tasks rs -> next rs (hist ++ evs))) ->
  launched tasks hist post next.
Proof.
  intros Hmembers Hpost. apply launched_may. intros evs Hevs.
  assert (Hmem : Forall (fun ev => is_member_event ev = true) evs).
  { eapply Forall_impl; [exact Hevs|]. intros ev Hex.
    apply Exists_exists in Hex. destruct Hex as (t & Ht & Hmay).
    apply list_elem_of_In in Ht. exact (Hmembers t (Emits ev) Ht Hmay). }
  destruct (Hpost evs Hmem) as (Hrun & Hthrow & Hnext).
  split; [exact Hrun|]. split; [exact Hthrow|]. split; [|exact Hnext].
  intros code Hex. apply Exists_exists in Hex. destruct Hex as (t & Ht & Hmay).
  apply list_elem_of_In in Ht. destruct (Hmembers t (Leaves code) Ht Hmay).
Qed.

Lemma announce_returns (prefix deviceId : string) (qos : Z) (jemas : gmap string Jema)
    (entities : list Entity) (rs : list unit) :
  Forall2 (fun t r => may t (Returns r))
          (map (announce prefix deviceId qos jemas) entities) rs ->
  forall entity, In entity entities -> known_domain (domain entity) = true.
Proof.
  revert rs. induction entities as [|e rest IH]; intros rs H entity Hin;
    [destruct Hin|].
  inversion H as [|t r ts rs' Hhead Htail]; subst.
  destruct Hin as [<-|Hin].
  - exact (announce_may _ _ _ _ _ _ Hhead).
  - exact (IH _ Htail entity Hin).
Qed.

Lemma main_configured_holds (env : Settings) (qos : Z) (config : Config)
    (hist : list Event) :
  Forall registers_bound hist ->
  Forall (fun ev => is_ready_log ev = false) hist ->
  holds (main_configured env qos config) hist (main_post config).
Proof.
  intros Hreg Hready. unfold main_configured.
  cbn [bind await_all await act eval]. cbn [holds].
  (* the bindings are requested *)
  apply join_holds_members.
  { intros t o Ht Hmay. apply in_map_iff in Ht. destruct Ht as (e & <- & _).
    apply acquire_may in Hmay. destruct o; auto. }
  intros evs Hevs. destruct (member_events_plain evs Hevs) as (Hreg1 & Hready1 & _).
  assert (Hreg' : Forall registers_bound (hist ++ evs))
    by (apply Forall_app; split; assumption).
  assert (Hready' : Forall (fun ev => is_ready_log ev = false) (hist ++ evs))
    by (apply Forall_app; split; assumption).
  clear Hreg Hready Hreg1 Hready1 Hevs. revert Hreg' Hready'.
  generalize (hist ++ evs). clear hist evs. intros hist Hreg Hready.
  destruct (main_post_pending config hist Hreg Hready) as [Hrun Hext].
  split; [exact Hrun|]. split.
  { intros e Hex. apply Exists_exists in Hex. destruct Hex as (t & Ht & Hmay).
    apply list_elem_of_In, in_map_iff in Ht. destruct Ht as (e' & <- & _).
    apply acquire_may in Hmay. destruct Hmay as [reason ->]. apply Hext. }
  intros pairs Hpairs. apply acquire_returns in Hpairs.
  pose proof (new_Map_bound _ _ Hpairs) as Hbound.
  generalize dependent (new_Map pairs). clear pairs Hpairs. intros jemas Hbound.
  (* the broker is connected *)
  destruct (MQTT_BROKER env) as [reason|broker]; cbn [bind holds]; [apply Hext|].
  clear Hrun Hext.
  set (connect := Called (ConnectAsync broker (MQTT_USERNAME env) (MQTT_PASSWORD env))).
  assert (Hreg' : Forall registers_bound (hist ++ [connect]))
    by (apply Forall_snoc; [assumption|intros ? ?; discriminate]).
  assert (Hready' : Forall (fun ev => is_ready_log ev = false) (hist ++ [connect]))
    by (apply Forall_snoc; [assumption|reflexivity]).
  destruct (main_post_pending config _ Hreg' Hready') as [Hrun Hext].
  split; [exact Hrun|]. split; [exact Hext|]. intros _.
  rewrite bind_log_subscriptions. cbn [holds].
  rewrite holds_log_subscriptions. cbn [bind holds].
  (* the command topics are subscribed *)
  match goal with |- main_post _ ?h _ /\ _ => set (subscribed := h) end.
  assert (Hconnect : Exists (fun ev => is_connect ev = true) subscribed).
  { subst subscribed. rewrite <- !app_assoc. apply Exists_app. right. left. reflexivity. }
  assert (Hlog : Exists (fun ev => is_connected_log ev = true) subscribed).
  { subst subscribed. rewrite <- !app_assoc. apply Exists_app. right. right. left.
    reflexivity. }
  assert (Hreg2 : Forall registers_bound subscribed).
  { subst subscribed. repeat apply Forall_snoc; try assumption;
      try (intros ? ?; discriminate).
    apply Forall_app. split; [apply Forall_snoc; [assumption|intros ? ?; discriminate]|].
    apply Forall_forall. intros ev Hev. apply list_elem_of_In, in_map_iff in Hev.
    destruct Hev as (e & <- & _). intros ? ?. discriminate. }
  assert (Hready2 : Forall (fun ev => is_ready_log ev = false) subscribed).
  { subst subscribed. repeat apply Forall_snoc; try assumption; try reflexivity.
    apply Forall_app. split; [apply Forall_snoc; [assumption|reflexivity]|].
    apply Forall_forall. intros ev Hev. apply list_elem_of_In, in_map_iff in Hev.
    destruct Hev as (e & <- & _). reflexivity. }
  clearbody subscribed. clear Hrun Hext Hreg' Hready' Hreg Hready hist connect.
  destruct (main_post_pending config _ Hreg2 Hready2) as [Hrun Hext].
  split; [exact Hrun|]. split; [exact Hext|]. intros _. clear Hrun Hext.
  (* the message handler is registered, and every entity is announced *)
  apply join_holds_members.
  { intros t o Ht Hmay. apply in_map_iff in Ht. destruct Ht as (e & <- & _).
    apply announce_may in Hmay. destruct o; auto. }
  intros evs Hevs. destruct (member_events_plain evs Hevs) as (Hreg1 & Hready1 & _).
  match goal with |- main_post _ ?h _ /\ _ => set (announced := h) end.
  assert (Hconnect' : Exists (fun ev => is_connect ev = true) announced).
  { subst announced. rewrite <- !app_assoc. apply Exists_app. left. exact Hconnect. }
  assert (Hlog' : Exists (fun ev => is_connected_log ev = true) announced).
  { subst announced. rewrite <- !app_assoc. apply Exists_app. left. exact Hlog. }
  assert (Hreg3 : Forall registers_bound announced).
  { subst announced. apply Forall_app. split; [|exact Hreg1].
    apply Forall_snoc; [exact Hreg2|]. intros entities jemas' [= <- <-]. exact Hbound. }
  assert (Hready3 : Forall (fun ev => is_ready_log ev = false) announced).
  { subst announced. apply Forall_app. split; [|exact Hready1].
    apply Forall_snoc; [exact Hready2|reflexivity]. }
  clearbody announced. clear Hconnect Hlog Hreg2 Hready2 Hreg1 Hready1 Hevs subscribed evs.
  destruct (main_post_pending config _ Hreg3 Hready3) as [Hrun Hext].
  split; [exact Hrun|]. split.
  { intros e _. apply main_post_threw; assumption. }
  intros rs Hknown. pose proof (announce_returns _ _ _ _ _ _ Hknown) as Hdomains.
  clear rs Hknown.
  (* the heartbeat and the signal handlers are installed *)
  destruct (AVAILABILITY_INTERVAL env) as [reason|ms]; cbn [bind holds]; [apply Hext|].
  clear Hrun Hext.
  apply join_holds_members.
  { intros t o Ht Hmay.
    assert (Hex : Exists (fun t => may t o) (publishAvailability (entities config) "online")).
    { apply Exists_exists. exists t. split; [apply list_elem_of_In; exact Ht|exact Hmay]. }
    apply publishAvailability_may in Hex. destruct o; auto. }
  intros evs Hevs. destruct (member_events_plain evs Hevs) as (Hreg1 & Hready1 & _).
  match goal with |- main_post _ ?h _ /\ _ => set (online := h) end.
  assert (Hreg4 : Forall registers_bound online).
  { subst online. apply Forall_app. split; [|exact Hreg1].
    repeat apply Forall_snoc; try assumption; intros ? ?; discriminate. }
  assert (Hready4 : Forall (fun ev => is_ready_log ev = false) online).
  { subst online. apply Forall_app. split; [|exact Hready1].
    repeat apply Forall_snoc; try assumption; reflexivity. }
  destruct (main_post_pending config _ Hreg4 Hready4) as [Hrun Hext].
  split; [exact Hrun|]. split.
  { intros e Hex. apply publishAvailability_may in Hex. destruct Hex as [reason ->].
    apply Hext. }
  intros _ _. cbn [holds].
  split; [apply Forall_snoc; [exact Hreg4|intros ? ?; discriminate]|].
  split; [intros message; discriminate|].
  intros (entity & Hin & Hunknown). rewrite (Hdomains entity Hin) in Hunknown.
  discriminate.
Qed.

Lemma join_holds_impl {M R A} (can : M -> Obs R -> Prop) (members : list M)
    (hist : list Event) (post post' : Post A)
    (next next' : list R -> list Event -> Prop) :
  (forall h st, post h st -> post' h st) ->
  (forall rs h, next rs h -> next' rs h) ->
  join_holds can members hist post next -> join_holds can members hist post' next'.
Proof.
  intros Hpost Hnext Hjoin evs Hevs.
  destruct (Hjoin evs Hevs) as (Hrun & Hthrow & Hexit & Hk).
  repeat split; auto.
Qed.

(** A weaker condition holds wherever a stronger one does. *)
Lemma holds_impl {A} (p : Prog A) (hist : list Event) (post post' : Post A) :
  (forall h st, post h st -> post' h st) ->
  holds p hist post -> holds p hist post'.
Proof.
  intros Hpost. revert hist.
  induction p as [a|e|code|eff k IH|R aw k IH]; intros hist; simpl; auto.
  destruct aw as [R op|R tasks].
  - intros (Hrun & Hthrow & Hk). repeat split; auto.
  - unfold launched. destruct (launch tasks) as [evs [slots|e|code]]; auto.
    destruct (collect slots) as [rs|]; [apply IH|].
    apply join_holds_impl; [exact Hpost|]. intros rs h. apply IH.
Qed.

Lemma main_registers_bound (env : Settings) :
  holds (main env) [] (fun hist _ => Forall registers_bound hist).
Proof.
  unfold main. cbn [bind act eval].
  destruct (QOS env) as [reason|qos]; cbn [bind await holds].
  - repeat constructor. intros ? ?. discriminate.
  - assert (Hreg : Forall registers_bound
                     ([] ++ [Did (Log Info "jema2mqtt: start")] ++ [Called ReadConfig])).
    { repeat constructor; intros ? ?; discriminate. }
    rewrite app_assoc in Hreg.
    split; [exact Hreg|]. split; [intros _; exact Hreg|].
    intros config.
    apply (holds_impl _ _ (main_post config)); [intros h st [H _]; exact H|].
    apply main_configured_holds; [exact Hreg|].
    repeat constructor.
Qed.

(** C10. A message on a topic that is no entity's command topic ends the
    handler at once: nothing is read, nothing is pulsed, nothing is thrown.
    And in every execution of [main], the closure registered for messages
    has a binding for each entity [find] can return, so that the lookup
    [jemas.get(entity.id)!] yields a binding and the handler goes on to read
    its monitor. *)
Theorem registered_handler_lookup_succeeds
    (env : Settings) (inputs : list (nat * Response))
    (entities : list Entity) (jemas : gmap string Jema) :
  In (Did (ClientOnMessage entities jemas)) (exec (main env) inputs).1 ->
  (forall topic message settlements,
     (forall entity, In entity entities -> getTopic entity COMMAND <> topic) ->
     exec (handleMessage entities jemas topic message) settlements = ([], Done tt)) /\
  (forall topic message entity,
     List.find (fun e => String.eqb (getTopic e COMMAND) topic) entities = Some entity ->
     exists jema k,
       jemas !! id entity = Some jema /\
       handleMessage entities jemas topic message = Await (Call (GetMonitor jema)) k).
Proof.
  intros Hregistered. split.
  - intros topic message settlements Hno.
    unfold exec, handleMessage. rewrite (find_no_topic entities topic Hno).
    cbn [start]. rewrite run_settled by reflexivity. reflexivity.
  - intros topic message entity Hfind.
    pose proof (holds_exec (main env) inputs [] _ (main_registers_bound env)) as Hall.
    simpl in Hall. rewrite Forall_forall in Hall.
    assert (Hbound : bound entities jemas).
    { apply (Hall _ (proj2 (list_elem_of_In _ _) Hregistered)). reflexivity. }
    destruct (find_some _ _ Hfind) as [Hin _].
    destruct (Hbound entity Hin) as [jema Hjema].
    exists jema. eexists. split; [exact Hjema|].
    unfold handleMessage. rewrite Hfind, Hjema. reflexivity.
Qed.

Lemma registered_handler_lookup_succeeds_witness :
  In (Did (ClientOnMessage (entities sample_config) sample_jemas))
     (exec (main sample_env)
           [ (0, Resolve (VConfig sample_config));
             (0, Resolve (VJema (JemaRef 0))); (1, Resolve (VJema (JemaRef 1)));
             (0, Resolve VUnit); (0, Resolve VUnit) ]).1 /\
  exec (handleMessage (entities sample_config) sample_jemas "jema2mqtt/attic/set" "ACTIVE")
       [(0, Resolve (VBool true))] = ([], Done tt).
Proof.
  assert (Hregistered :
    In (Did (ClientOnMessage (entities sample_config) sample_jemas))
       (exec (main sample_env)
             [ (0, Resolve (VConfig sample_config));
               (0, Resolve (VJema (JemaRef 0))); (1, Resolve (VJema (JemaRef 1)));
               (0, Resolve VUnit); (0, Resolve VUnit) ]).1).
  { vm_compute. do 9 right. left. reflexivity. }
  split; [exact Hregistered|].
  apply (proj1 (registered_handler_lookup_succeeds sample_env _ _ _ Hregistered)).
  intros entity [<-|[<-|[]]]; discriminate.
Defined.

(** ** Joins over bare promises *)

Lemma launch_awaits {X R' R} (op : X -> Op R') (k : X -> R' -> Async R) (xs : list X) :
  launch (map (fun x => Await (op x) (k x)) xs)
  = (map (fun x => Called (op x)) xs, JSlots (map (fun x => Pending (op x) (k x)) xs)).
Proof.
  induction xs as [|x rest IH]; simpl; [reflexivity|]. rewrite IH. reflexivity.
Qed.

Lemma launch_returns {X R} (g : X -> R) (xs : list X) :
  launch (map (fun x => Return (g x)) xs)
  = ([], JSlots (map (fun x => Fulfilled (g x)) xs)).
Proof.
  induction xs as [|x rest IH]; simpl; [reflexivity|]. rewrite IH. reflexivity.
Qed.

Lemma collect_fulfilled {X R} (g : X -> R) (xs : list X) :
  collect (map (fun x => Fulfilled (g x)) xs) = Some (map g xs).
Proof.
  induction xs as [|x rest IH]; simpl; [reflexivity|]. rewrite IH. reflexivity.
Qed.

(** Pending promises whose function returns as soon as they resolve emit
    nothing more and fail with the promise's rejection only. *)
Lemma bare_slots_may {X R' R} (op : X -> Op R') (f : X -> R' -> R) (xs : list X)
    (o : Obs R) :
  Exists (fun s => slot_may s o) (map (fun x => Pending (op x) (fun r => Return (f x r))) xs) ->
  match o with
  | Emits _ | Leaves _ => False
  | Throws e => exists reason, e = External reason
  | Returns _ => True
  end.
Proof.
  intros H. apply Exists_exists in H. destruct H as (s & Hs & Hmay).
  apply list_elem_of_In, in_map_iff in Hs. destruct Hs as (x & <- & _).
  destruct Hmay as [[reason ->]|[r Hr]]; [eauto|]. simpl in Hr. subst o. exact I.
Qed.

(** The join rule for bare promises: all of them are called on entry, in
    order, and nothing else is emitted until the join settles. *)
Lemma launched_bare {X R' R A} (op : X -> Op R') (f : X -> R' -> R) (xs : list X)
    (hist : list Event) (post : Post A) (next : list R -> list Event -> Prop) :
  let called := hist ++ map (fun x => Called (op x)) xs in
  post called Running ->
  (forall reason, post called (Threw (External reason))) ->
  (forall rs, next rs called) ->
  launched (map (fun x => Await (op x) (fun r => Return (f x r))) xs) hist post next.
Proof.
  intros called Hrun Hthrow Hnext. unfold launched.
  rewrite (launch_awaits op (fun x r => Return (f x r))).
  destruct (collect _) as [rs|]; [apply Hnext|].
  intros evs Hevs.
  assert (evs = []) as ->.
  { destruct evs as [|ev evs]; [reflexivity|]. inversion Hevs as [|? ? Hev _]; subst.
    destruct (bare_slots_may op f xs (Emits ev) Hev). }
  rewrite app_nil_r. split; [exact Hrun|]. split.
  { intros e He. apply (bare_slots_may op f xs (Throws e)) in He.
    destruct He as [reason ->]. apply Hthrow. }
  split; [|intros rs _; apply Hnext].
  intros code Hc. destruct (bare_slots_may op f xs (Leaves code) Hc).
Qed.

Lemma launched_values {X R A} (g : X -> R) (xs : list X)
    (hist : list Event) (post : Post A) (next : list R -> list Event -> Prop) :
  next (map g xs) hist ->
  launched (map (fun x => Return (g x)) xs) hist post next.
Proof.
  intros Hnext. unfold launched. rewrite launch_returns, collect_fulfilled, app_nil_r.
  exact Hnext.
Qed.

(** ** Shutdown *)

Lemma shutdownHandler_holds (entities : list Entity) (jemas : gmap string Jema) :
  holds (shutdownHandler entities jemas) [] (shutdown_post entities).
Proof.
  unfold shutdownHandler, publishAvailability, promise.
  cbn [bind act await_all await holds].
  apply (launched_bare
           (fun entity => PublishAsync (getTopic entity AVAILABILITY) (Text "offline") false)
           (fun _ r => r)).
  - left. split; [reflexivity|]. left. reflexivity.
  - intros reason. left. split; [reflexivity|]. right. eauto.
  - intros _.
    change (([] ++ [Did (Log Info "jema2mqtt: shutdown")]) ++ [Did ClearInterval]
            ++ map _ entities)%list with (shutdown_prefix entities).
    split; [right; left; split; [reflexivity|left; reflexivity]|].
    split; [intros reason; right; left; split; [reflexivity|right; eauto]|].
    intros _. apply launched_values.
    right. right. split; [|reflexivity].
    unfold shutdown_tail. rewrite <- !app_assoc. reflexivity.
Qed.

Lemma lookup_map {X Y} (g : X -> Y) (xs : list X) (i : nat) (x : X) :
  xs !! i = Some x -> map g xs !! i = Some (g x).
Proof.
  revert i. induction xs as [|x' rest IH]; intros [|i]; simpl; try discriminate.
  - intros [= ->]. reflexivity.
  - apply IH.
Qed.

Lemma collect_app_fulfilled {R} (done : list R) (slots : list (Slot R)) :
  collect (map Fulfilled done ++ slots) = option_map (app done) (collect slots).
Proof.
  induction done as [|r rest IH]; simpl.
  - destruct (collect slots); reflexivity.
  - rewrite IH. destruct (collect slots); reflexivity.
Qed.

Lemma run_cons {A} (t : Task A) (i : nat) (r : Response) (rest : list (nat * Response)) :
  run t ((i, r) :: rest) = continue (resume t i r) rest.
Proof. reflexivity. Qed.

Lemma exec_continue {A} (p : Prog A) (inputs : list (nat * Response)) :
  exec p inputs = continue (start p) inputs.
Proof. reflexivity. Qed.

Lemma continue_nil_events {A} (t : Task A) (inputs : list (nat * Response)) :
  continue ([], t) inputs = run t inputs.
Proof. unfold continue. destruct (run t inputs). reflexivity. Qed.

(** The first pending promise of a join resolves, and its function returns. *)
Lemma resume_first_pending {X R A} (done : list R) (op : Op X) (f : X -> R)
    (slots : list (Slot R)) (k : list R -> Prog A) (v : Value) (x : X) :
  decode op v = Some x ->
  resume (Joining (map Fulfilled done ++ Pending op (fun r => Return (f r)) :: slots) k)
         (length done) (Resolve v)
  = match collect slots with
    | Some rs => start (k (done ++ f x :: rs))
    | None => ([], Joining (map Fulfilled (done ++ [f x]) ++ slots) k)
    end.
Proof.
  intros Hv. unfold resume.
  rewrite list_lookup_middle by (rewrite length_map; reflexivity).
  rewrite Hv. cbn [start_async].
  rewrite insert_app_r_alt by (rewrite length_map; reflexivity).
  rewrite length_map, Nat.sub_diag. cbn [insert list_insert].
  rewrite collect_app_fulfilled. cbn [collect].
  destruct (collect slots) as [rs|]; cbn [option_map].
  - destruct (start (k (done ++ f x :: rs))). reflexivity.
  - rewrite map_app, <- app_assoc. reflexivity.
Qed.

(** Every promise of a join over bare promises resolves, first to last:
    the function goes on with the values. *)
Lemma join_completes {X R' R A} (op : X -> Op R') (f : X -> R' -> R)
    (val : X -> Value) (res : X -> R') (k : list R -> Prog A)
    (xs : list X) (done : list R) (rest : list (nat * Response)) :
  xs <> [] -> (forall x, decode (op x) (val x) = Some (res x)) ->
  run (Joining (map Fulfilled done
                ++ map (fun x => Pending (op x) (fun r => Return (f x r))) xs) k)
      (settle_from (length done) (map val xs) ++ rest)
  = continue (start (k (done ++ map (fun x => f x (res x)) xs))) rest.
Proof.
  intros Hxs Hval. revert done. induction xs as [|x xs IH]; [contradiction|].
  intros done. cbn [map settle_from app]. rewrite run_cons.
  rewrite (resume_first_pending done (op x) (f x) _ k (val x) (res x) (Hval x)).
  destruct xs as [|x' xs'].
  - reflexivity.
  - cbn [map collect]. rewrite continue_nil_events.
    specialize (IH ltac:(discriminate) (done ++ [f x (res x)])).
    rewrite length_app, Nat.add_1_r in IH. cbn [map] in IH.
    rewrite IH, <- app_assoc. reflexivity.
Qed.

(** ** Soundness of [fine] *)

Lemma incl_app_app {X} (a b c : list X) : incl a b -> incl (a ++ c) (b ++ c).
Proof. intros H. apply incl_app; [apply incl_appl; exact H|apply incl_appr, incl_refl]. Qed.

Lemma start_async_fine {R} (t : Async R) (own : list Event) (blame : Blame) :
  async_fine t own blame ->
  match (start_async t).2 with
  | Suspends s => slot_fine s (own ++ (start_async t).1) blame
  | Rejects e => blame (own ++ (start_async t).1) e
  | Exits _ => True
  end.
Proof.
  revert own. induction t as [r|e|code|eff k IH|X op k IH]; intros own Ht; simpl.
  - exact I.
  - rewrite app_nil_r. exact Ht.
  - exact I.
  - specialize (IH _ Ht). destruct (start_async k) as [evs s]. simpl in IH |- *.
    rewrite <- app_assoc in IH. exact IH.
  - exact Ht.
Qed.

Lemma launch_fine {R} (tasks : list (Async R)) (hist : list Event) (blame : Blame) :
  monotone blame ->
  Forall (fun t => async_fine t hist blame) tasks ->
  match (launch tasks).2 with
  | JSlots slots =>
      Forall (fun s => exists own, incl own (hist ++ (launch tasks).1) /\
                                   slot_fine s own blame) slots
  | JFailed e => blame (hist ++ (launch tasks).1) e
  | JHalted _ => True
  end.
Proof.
  intros Hmono. induction 1 as [|t rest Ht _ IH]; simpl; [constructor|].
  pose proof (start_async_fine t hist blame Ht) as Hstart.
  destruct (start_async t) as [evs s]. cbn [fst snd] in Hstart.
  destruct s as [slot|e|code]; [| |exact I].
  - destruct (launch rest) as [evs' j]. cbn [fst snd] in IH |- *.
    destruct j as [slots|e|code]; [| |exact I].
    + constructor.
      * exists (hist ++ evs). split; [|exact Hstart].
        rewrite app_assoc. apply incl_appl, incl_refl.
      * eapply Forall_impl; [exact IH|]. intros s (own & Hown & Hs).
        exists own. split; [|exact Hs].
        eapply incl_tran; [exact Hown|].
        apply incl_app; [apply incl_appl, incl_refl|apply incl_appr, incl_appr, incl_refl].
    + eapply Hmono; [|exact IH].
      apply incl_app; [apply incl_appl, incl_refl|apply incl_appr, incl_appr, incl_refl].
  - destruct (launch rest) as [evs' j]. cbn [fst snd] in IH |- *.
    destruct j as [slots|e'|code]; [| |exact I];
      (eapply Hmono; [|exact Hstart]; rewrite app_assoc; apply incl_appl, incl_refl).
Qed.

Lemma start_fine {A} (p : Prog A) (hist : list Event) (blame : Blame) :
  monotone blame -> fine p hist blame ->
  task_fine (start p).2 (hist ++ (start p).1) blame.
Proof.
  intros Hmono. revert hist.
  induction p as [a|e|code|eff k IH|R aw k IH]; intros hist Hp.
  - exact I.
  - simpl. rewrite app_nil_r. exact Hp.
  - exact I.
  - simpl in Hp. specialize (IH _ Hp). simpl.
    destruct (start k) as [evs t]. simpl in IH |- *.
    rewrite <- app_assoc in IH. exact IH.
  - destruct aw as [R op|R tasks].
    + exact Hp.
    + destruct Hp as [Htasks Hk]. cbn [start].
      pose proof (launch_fine tasks hist blame Hmono Htasks) as Hlaunch.
      destruct (launch tasks) as [evs j]. cbn [fst snd] in Hlaunch.
      destruct j as [slots|e|code]; [|exact Hlaunch|exact I].
      destruct (collect slots) as [rs|].
      * specialize (IH rs (hist ++ evs) (Hk rs _ (incl_appl _ (incl_refl _)))).
        destruct (start (k rs)) as [evs' t]. cbn [fst snd] in IH |- *.
        rewrite <- app_assoc in IH. exact IH.
      * cbn [fst snd task_fine]. split; [exact Hlaunch|].
        intros rs h Hh. apply Hk. eapply incl_tran; [|exact Hh].
        apply incl_appl, incl_refl.
Qed.

Lemma resume_fine {A} (t : Task A) (i : nat) (r : Response)
    (hist : list Event) (blame : Blame) :
  monotone blame -> task_fine t hist blame ->
  task_fine (resume t i r).2 (hist ++ (resume t i r).1) blame.
Proof.
  intros Hmono Ht.
  assert (Hstay : task_fine t (hist ++ []) blame) by (rewrite app_nil_r; exact Ht).
  destruct t as [a|e|code|X op k|R slots k]; try exact Hstay.
  - destruct Ht as [Hreject Hnext]. cbn [resume].
    destruct i as [|i]; [|exact Hstay].
    destruct r as [v|reason].
    + destruct (decode op v) as [x|]; [|exact Hstay].
      apply start_fine; [exact Hmono|apply Hnext].
    + cbn [fst snd task_fine]. rewrite app_nil_r. apply Hreject.
  - destruct Ht as [Hslots Hnext]. cbn [resume].
    destruct (slots !! i) as [[r0|X op k']|] eqn:Hi; try exact Hstay.
    assert (Hslot : exists own, incl own hist /\ slot_fine (Pending op k') own blame).
    { rewrite Forall_forall in Hslots. apply Hslots.
      apply list_elem_of_lookup. exists i. exact Hi. }
    destruct Hslot as (own & Hown & Hreject & Hmember).
    destruct r as [v|reason].
    + destruct (decode op v) as [x|]; [|exact Hstay].
      pose proof (start_async_fine (k' x) own blame (Hmember x)) as Hstart.
      destruct (start_async (k' x)) as [evs s]. cbn [fst snd] in Hstart.
      destruct s as [slot|e|code]; [| |exact I].
      * assert (Hslots' : Forall (fun s => exists own, incl own (hist ++ evs) /\
                                                       slot_fine s own blame)
                                 (<[i := slot]> slots)).
        { apply Forall_insert.
          - eapply Forall_impl; [exact Hslots|]. intros s (own' & Hown' & Hs).
            exists own'. split; [apply incl_appl; exact Hown'|exact Hs].
          - exists (own ++ evs). split; [apply incl_app_app; exact Hown|exact Hstart]. }
        destruct (collect (<[i := slot]> slots)) as [rs|].
        -- pose proof (start_fine (k rs) (hist ++ evs) blame Hmono
                         (Hnext rs _ (incl_appl _ (incl_refl _)))) as Hgo.
           destruct (start (k rs)) as [evs' t']. cbn [fst snd] in Hgo |- *.
           rewrite <- app_assoc in Hgo. exact Hgo.
        -- cbn [fst snd task_fine]. split; [exact Hslots'|].
           intros rs h Hh. apply Hnext. eapply incl_tran; [|exact Hh].
           apply incl_appl, incl_refl.
      * cbn [fst snd task_fine]. eapply Hmono; [|exact Hstart].
        apply incl_app_app. exact Hown.
    + cbn [fst snd task_fine]. rewrite app_nil_r. eapply Hmono; [exact Hown|apply Hreject].
Qed.

Lemma run_fine {A} (t : Task A) (inputs : list (nat * Response))
    (hist : list Event) (blame : Blame) :
  monotone blame -> task_fine t hist blame ->
  task_fine (run t inputs).2 (hist ++ (run t inputs).1) blame.
Proof.
  intros Hmono. revert t hist.
  induction inputs as [|[i r] rest IH]; intros t hist Ht; simpl.
  - rewrite app_nil_r. exact Ht.
  - pose proof (resume_fine t i r hist blame Hmono Ht) as Hstep.
    destruct (resume t i r) as [evs t']. simpl in Hstep.
    specialize (IH _ _ Hstep). destruct (run t' rest) as [evs' t'']. simpl in IH |- *.
    rewrite <- app_assoc in IH. exact IH.
Qed.

(** Where a function satisfies [fine], every rejection of it, in every
    execution, comes with the events the condition names. *)
Lemma fine_exec {A} (p : Prog A) (inputs : list (nat * Response))
    (hist : list Event) (blame : Blame) (e : Error) :
  monotone blame -> fine p hist blame ->
  (exec p inputs).2 = Failed e -> blame (hist ++ (exec p inputs).1) e.
Proof.
  intros Hmono Hp Hfailed. unfold exec in *.
  pose proof (start_fine p hist blame Hmono Hp) as Hstart.
  destruct (start p) as [evs t]. simpl in Hstart.
  pose proof (run_fine t inputs _ blame Hmono Hstart) as Hrun.
  destruct (run t inputs) as [evs' t']. simpl in Hrun, Hfailed |- *. subst t'.
  rewrite app_assoc. exact Hrun.
Qed.

(** ** Start-up with an unknown domain *)

Lemma exec_main_config (env : Settings) (qos : Z) (config : Config)
    (rest : list (nat * Response)) :
  QOS env = inr qos ->
  exec (main env) ((0, Resolve (VConfig config)) :: rest)
  = ([Did (Log Info "jema2mqtt: start"); Called ReadConfig]
     ++ (exec (main_configured env qos config) rest).1,
     (exec (main_configured env qos config) rest).2).
Proof.
  intros Hqos. unfold exec, main. rewrite Hqos.
  cbn [bind act eval await start run resume decode].
  destruct (start (main_configured env qos config)) as [evs t].
  destruct (run t rest) as [evs' t']. reflexivity.
Qed.

Lemma status_failed {A} (t : Task A) (e : Error) : t = Failed e -> status t = Threw e.
Proof. intros ->. reflexivity. Qed.

Lemma getDiscoveryMessage_unknown (deviceId : string) (qos : Z) (entity : Entity) :
  known_domain (domain entity) = false ->
  getDiscoveryMessage deviceId qos entity
  = inl (JsError ("unknown domain: " +:+ domain entity)).
Proof.
  unfold known_domain, getDiscoveryMessage. intros H.
  apply orb_false_elim in H as [H Hcover]. apply orb_false_elim in H as [Hlock Hswitch].
  rewrite Hlock, Hswitch, Hcover. reflexivity.
Qed.

(** Whatever rejects [main], the [catch] around it logs the error and
    leaves the process with code 1. *)
Lemma main_rejection_exits (p : Process) (i : nat) (r : Response) (e : Error) :
  ended p = None -> (resume (top p) i r).2 = Failed e ->
  let p' := react p (Settle Main i r) in
  trace p' = trace p ++ (resume (top p) i r).1
             ++ [Did (LogError "jema2mqtt:" e); Did (ProcessExit 1)] /\
  ended p' = Some (ExitCode 1).
Proof.
  intros Halive Hfailed. cbn zeta. unfold react. rewrite Halive.
  destruct (resume (top p) i r) as [evs t]. cbn [fst snd] in Hfailed |- *. subst t.
  cbn [rescue]. split.
  - rewrite trace_absorb. reflexivity.
  - unfold absorb. rewrite !fold_left_app. reflexivity.
Qed.

(** *** The failure does happen *)

Lemma collect_pending {R X} (slots : list (Slot R)) (j : nat) (op : Op X)
    (k : X -> Async R) :
  slots !! j = Some (Pending op k) -> collect slots = None.
Proof.
  revert j. induction slots as [|s rest IH]; intros [|j]; simpl; try discriminate.
  - intros [= ->]. reflexivity.
  - intros Hj. destruct s; [|reflexivity]. rewrite (IH j Hj). reflexivity.
Qed.

(** Members that all reach an [await] leave a join of pending promises. *)
Lemma launch_suspended {R} (tasks : list (Async R)) :
  (forall t, In t tasks -> exists slot, (start_async t).2 = Suspends slot) ->
  exists slots,
    (launch tasks).2 = JSlots slots /\
    forall j t, tasks !! j = Some t ->
      exists slot, slots !! j = Some slot /\ (start_async t).2 = Suspends slot.
Proof.
  induction tasks as [|t rest IH]; intros Hall; simpl.
  - exists []. split; [reflexivity|]. intros j t Hj. destruct j; discriminate.
  - destruct (Hall t (or_introl eq_refl)) as [slot Hslot].
    destruct IH as (slots & Hlaunch & Hslots).
    { intros t' Hin. apply Hall. right. exact Hin. }
    destruct (start_async t) as [evs s] eqn:Hstart. simpl in Hslot. subst s.
    destruct (launch rest) as [evs' j']. simpl in Hlaunch. subst j'.
    exists (slot :: slots). split; [reflexivity|].
    intros [|j] t' Hj; simpl in Hj.
    + injection Hj as <-. exists slot. split; [reflexivity|].
      rewrite Hstart. reflexivity.
    + apply Hslots. exact Hj.
Qed.

Lemma join_member_suspends {R A X Y} (slots : list (Slot R)) (k : list R -> Prog A)
    (j : nat) (op : Op X) (k' : X -> Async R) (v : Value) (x : X)
    (evs : list Event) (op' : Op Y) (k'' : Y -> Async R) :
  slots !! j = Some (Pending op k') -> decode op v = Some x ->
  start_async (k' x) = (evs, Suspends (Pending op' k'')) ->
  resume (Joining slots k) j (Resolve v)
  = (evs, Joining (<[j := Pending op' k'']> slots) k).
Proof.
  intros Hj Hv Hstart. unfold resume. rewrite Hj, Hv, Hstart.
  rewrite (collect_pending (<[j := Pending op' k'']> slots) j op' k''); [reflexivity|].
  apply list_lookup_insert_eq. eapply lookup_lt_Some. exact Hj.
Qed.

Lemma join_member_rejects {R A X} (slots : list (Slot R)) (k : list R -> Prog A)
    (j : nat) (op : Op X) (k' : X -> Async R) (v : Value) (x : X)
    (evs : list Event) (e : Error) :
  slots !! j = Some (Pending op k') -> decode op v = Some x ->
  start_async (k' x) = (evs, Rejects e) ->
  resume (Joining slots k) j (Resolve v) = (evs, Failed e).
Proof.
  intros Hj Hv Hstart. unfold resume. rewrite Hj, Hv, Hstart. reflexivity.
Qed.

(** The steps of [announce] for an entity that has a binding and a domain
    outside the three. *)
Lemma announce_unknown_domain (prefix deviceId : string) (qos : Z)
    (jemas : gmap string Jema) (entity : Entity) (jema : Jema) :
  jemas !! id entity = Some jema -> known_domain (domain entity) = false ->
  exists k1 k2,
    start_async (announce prefix deviceId qos jemas entity)
    = ([Did (SetMonitorListener jema entity); Called (GetMonitor jema)],
       Suspends (Pending (GetMonitor jema) k1)) /\
    (forall monitor,
       start_async (k1 monitor)
       = ([Called (publishState entity monitor)],
          Suspends (Pending (publishState entity monitor) k2))) /\
    start_async (k2 tt)
    = ([], Rejects (JsError ("unknown domain: " +:+ domain entity))).
Proof.
  intros Hjema Hunknown. unfold announce.
  rewrite Hjema, (getDiscoveryMessage_unknown _ _ _ Hunknown).
  eexists. eexists. split; [reflexivity|]. split; [intros monitor|]; reflexivity.
Qed.

Lemma announce_suspends (prefix deviceId : string) (qos : Z)
    (jemas : gmap string Jema) (entity : Entity) :
  is_Some (jemas !! id entity) ->
  exists slot, (start_async (announce prefix deviceId qos jemas entity)).2 = Suspends slot.
Proof.
  intros [jema Hjema]. unfold announce. rewrite Hjema. eexists. reflexivity.
Qed.

(** In the join that announces the entities, the member of an entity with an
    unknown domain rejects the join once its monitor is read and its state
    is published. *)
Lemma announce_join_rejects {A} (prefix deviceId : string) (qos : Z)
    (jemas : gmap string Jema) (entities : list Entity) (k : list unit -> Prog A)
    (j : nat) (entity : Entity) (monitor : bool) (rest : list (nat * Response)) :
  bound entities jemas -> entities !! j = Some entity ->
  known_domain (domain entity) = false ->
  (run (start (Await (All (map (announce prefix deviceId qos jemas) entities)) k)).2
       ((j, Resolve (VBool monitor)) :: (j, Resolve VUnit) :: rest)).2
  = Failed (JsError ("unknown domain: " +:+ domain entity)).
Proof.
  intros Hbound Hj Hunknown.
  assert (Hin : In entity entities).
  { apply list_elem_of_In. eapply list_elem_of_lookup_2. exact Hj. }
  destruct (Hbound entity Hin) as [jema Hjema].
  destruct (announce_unknown_domain prefix deviceId qos jemas entity jema Hjema Hunknown)
    as (k1 & k2 & Hstart & Hk1 & Hk2).
  destruct (launch_suspended (map (announce prefix deviceId qos jemas) entities))
    as (slots & Hlaunch & Hslots).
  { intros t Ht. apply in_map_iff in Ht. destruct Ht as (e & <- & He).
    apply announce_suspends, Hbound, He. }
  destruct (Hslots j _ (lookup_map _ _ _ _ Hj)) as (slot & Hslot & Hsusp).
  rewrite Hstart in Hsusp. simpl in Hsusp. injection Hsusp as <-.
  cbn [start]. destruct (launch _) as [evs j']. simpl in Hlaunch. subst j'.
  rewrite (collect_pending slots j _ _ Hslot). cbn [snd].
  rewrite run_cons.
  rewrite (join_member_suspends slots k j _ _ (VBool monitor) monitor _ _ _
             Hslot eq_refl (Hk1 monitor)).
  cbn [continue]. rewrite run_cons.
  rewrite (join_member_rejects _ k j (publishState entity monitor) k2 VUnit tt _ _
             (list_lookup_insert_eq _ _ _ (lookup_lt_Some _ _ _ Hslot)) eq_refl Hk2).
  cbn [continue]. rewrite run_settled by reflexivity. reflexivity.
Qed.

Lemma continue_snd {A} (r : list Event * Task A) (rest : list (nat * Response)) :
  (continue r rest).2 = (run r.2 rest).2.
Proof. destruct r as [evs t]. simpl. destruct (run t rest). reflexivity. Qed.

Lemma start_do_snd {A} (eff : Effect) (k : Prog A) : (start (Do eff k)).2 = (start k).2.
Proof. simpl. destruct (start k). reflexivity. Qed.

Lemma start_log_subscriptions_snd {A} (entities : list Entity) (k : Prog A) :
  (start (log_subscriptions entities k)).2 = (start k).2.
Proof.
  induction entities as [|e rest IH]; [reflexivity|].
  cbn [log_subscriptions]. rewrite start_do_snd. exact IH.
Qed.

(** With valid settings and every call resolving, [main] rejects with the
    error of [getDiscoveryMessage] when an entity has an unknown domain. *)
Lemma main_rejects_unknown_domain (env : Settings) (qos : Z) (broker : string)
    (config : Config) (binding : Entity -> Jema) (j : nat) (entity : Entity)
    (monitor : bool) :
  QOS env = inr qos -> MQTT_BROKER env = inr broker ->
  entities config !! j = Some entity -> known_domain (domain entity) = false ->
  (exec (main env)
        ((0, Resolve (VConfig config))
         :: settle_from 0 (map (fun e => VJema (binding e)) (entities config))
         ++ [ (0, Resolve VUnit); (0, Resolve VUnit);
              (j, Resolve (VBool monitor)); (j, Resolve VUnit) ])).2
  = Failed (JsError ("unknown domain: " +:+ domain entity)).
Proof.
  intros Hqos Hbroker Hj Hunknown.
  rewrite (exec_main_config env qos config _ Hqos). cbn [snd].
  rewrite exec_continue, continue_snd.
  unfold main_configured, acquire. cbn [bind await_all await act eval start].
  rewrite (launch_awaits (fun e => RequestJemaAccess (controlGpio e) (monitorGpio e))
                         (fun e jema => Return (id e, jema))).
  assert (Hne : entities config <> []) by (intros H; rewrite H in Hj; discriminate).
  assert (Hpending : collect (map (fun e => Pending
              (RequestJemaAccess (controlGpio e) (monitorGpio e))
              (fun jema => @Return Op _ (id e, jema))) (entities config)) = None).
  { destruct (entities config); [contradiction|reflexivity]. }
  rewrite Hpending. cbn [snd].
  rewrite (join_completes
             (fun e => RequestJemaAccess (controlGpio e) (monitorGpio e))
             (fun e jema => (id e, jema)) (fun e => VJema (binding e)) binding
             _ (entities config) [] _ Hne (fun _ => eq_refl)).
  rewrite continue_snd. cbn [app]. rewrite Hbroker. cbn [bind eval start snd].
  set (pairs := map (fun e => (id e, binding e)) (entities config)).
  assert (Hbound : bound (entities config) (new_Map pairs)).
  { apply new_Map_bound. subst pairs. rewrite map_map. reflexivity. }
  rewrite run_cons. cbn [resume decode]. rewrite continue_snd, start_do_snd.
  rewrite bind_log_subscriptions, start_log_subscriptions_snd.
  cbn [bind start snd]. rewrite run_cons. cbn [resume decode].
  rewrite continue_snd, start_do_snd.
  apply announce_join_rejects; assumption.
Qed.

(** *** Where the error comes from *)

Lemma discovery_blame_monotone (env : Settings) (config : Config) :
  monotone (discovery_blame env config).
Proof.
  intros own hist e Hown Hblame message He.
  destruct (Hblame message He) as ((broker & Hconnect) & Hsubscribe & entity & value & H).
  split; [exists broker; apply Hown; exact Hconnect|].
  split; [apply Hown; exact Hsubscribe|].
  exists entity, value. destruct H as (H1 & H2 & H3 & H4).
  repeat split; try assumption. apply Hown. exact H4.
Qed.

Lemma discovery_blame_other (env : Settings) (config : Config) (hist : list Event)
    (e : Error) :
  (forall message, e <> JsError message) -> discovery_blame env config hist e.
Proof. intros He message Heq. destruct (He message Heq). Qed.

Lemma getDiscoveryMessage_throws (deviceId : string) (qos : Z) (entity : Entity)
    (err : Error) :
  getDiscoveryMessage deviceId qos entity = inl err ->
  known_domain (domain entity) = false /\
  err = JsError ("unknown domain: " +:+ domain entity).
Proof.
  unfold getDiscoveryMessage, known_domain.
  destruct (String.eqb (domain entity) "lock"); [discriminate|].
  destruct (String.eqb (domain entity) "switch"); [discriminate|].
  destruct (String.eqb (domain entity) "cover"); [discriminate|].
  intros [= <-]. split; reflexivity.
Qed.

Lemma fine_log_subscriptions {A} (entities : list Entity) (k : Prog A)
    (hist : list Event) (blame : Blame) :
  (forall h, incl hist h -> fine k h blame) ->
  fine (log_subscriptions entities k) hist blame.
Proof.
  revert hist. induction entities as [|e rest IH]; intros hist Hk.
  - apply Hk, incl_refl.
  - cbn [log_subscriptions fine]. apply IH. intros h Hh. apply Hk.
    eapply incl_tran; [|exact Hh]. apply incl_appl, incl_refl.
Qed.

Ltac in_list := rewrite ?in_app_iff; cbn [In]; tauto.

Ltac other_error :=
  apply discovery_blame_other; intros ? ?; discriminate.

(** In every execution of [main], an error of [getDiscoveryMessage] is
    thrown for an entity whose state has been published, after the
    connection and the subscription. *)
Lemma main_configured_fine (env : Settings) (qos : Z) (config : Config)
    (hist : list Event) :
  fine (main_configured env qos config) hist (discovery_blame env config).
Proof.
  unfold main_configured. cbn [bind act eval await await_all fine]. split.
  { apply Forall_forall. intros t Ht. apply list_elem_of_In, in_map_iff in Ht.
    destruct Ht as (e & <- & _). split; [intros reason; other_error|]. intros x. exact I. }
  intros pairs h _.
  destruct (MQTT_BROKER env) as [reason|broker]; cbn [bind fine]; [other_error|].
  split; [intros reason; other_error|]. intros _.
  rewrite bind_log_subscriptions. apply fine_log_subscriptions. intros h1 Hh1.
  cbn [bind fine]. split; [intros reason; other_error|]. intros _. split.
  { apply Forall_forall. intros t Ht. apply list_elem_of_In, in_map_iff in Ht.
    destruct Ht as (e & <- & He). unfold announce.
    destruct (new_Map pairs !! id e) as [jema|]; [|other_error].
    cbn [async_fine]. split; [intros reason; other_error|]. intros value.
    split; [intros reason; other_error|]. intros _.
    destruct (getDiscoveryMessage (deviceId config) qos e) as [err|message] eqn:Hmessage.
    - apply getDiscoveryMessage_throws in Hmessage. destruct Hmessage as [Hunknown ->].
      assert (Hconnect :
        In (Called (ConnectAsync broker (MQTT_USERNAME env) (MQTT_PASSWORD env))) h1).
      { apply Hh1. in_list. }
      intros message [= <-]. split; [|split].
      + exists broker. in_list.
      + in_list.
      + exists e, value. split; [exact He|]. split; [exact Hunknown|].
        split; [reflexivity|]. in_list.
    - split; [intros reason; other_error|]. intros _. exact I. }
  intros _ h2 _.
  destruct (AVAILABILITY_INTERVAL env) as [reason|ms]; cbn [bind fine]; [other_error|].
  split.
  { apply Forall_forall. intros t Ht. apply list_elem_of_In, in_map_iff in Ht.
    destruct Ht as (e & <- & _). split; [intros reason; other_error|]. intros x. exact I. }
  intros _ h3 _. exact I.
Qed.

(** C6, as the code has it.  With an entity whose domain is outside lock,
    switch and cover, [main] never returns and never reports that it is
    ready.  In every execution, the error [getDiscoveryMessage] throws
    rejects [main] only after the connection to the broker has been made
    and logged, the command topics have been subscribed, and the state of
    the very entity the error names has been published.  With valid
    settings and every call resolving this rejection does happen.  A
    rejection of [main] is logged by the [catch] around it, which then
    leaves the process with code 1. *)
Theorem unknown_domain_fails_after_connecting (env : Settings) (config : Config) :
  has_unknown_domain config ->
  (forall rest,
     let outcome := exec (main env) ((0, Resolve (VConfig config)) :: rest) in
     status outcome.2 <> Returned tt /\
     Forall (fun ev => is_ready_log ev = false) outcome.1 /\
     (forall message, outcome.2 = Failed (JsError message) ->
        Exists (fun ev => is_connect ev = true) outcome.1 /\
        Exists (fun ev => is_connected_log ev = true) outcome.1 /\
        In (Called (SubscribeAsync (map (fun e => getTopic e COMMAND) (entities config))))
           outcome.1 /\
        exists entity value,
          In entity (entities config) /\
          known_domain (domain entity) = false /\
          message = "unknown domain: " +:+ domain entity /\
          In (Called (publishState entity value)) outcome.1)) /\
  (forall qos broker binding monitor,
     QOS env = inr qos -> MQTT_BROKER env = inr broker ->
     exists j entity,
       entities config !! j = Some entity /\
       known_domain (domain entity) = false /\
       (exec (main env)
             ((0, Resolve (VConfig config))
              :: settle_from 0 (map (fun e => VJema (binding e)) (entities config))
              ++ [ (0, Resolve VUnit); (0, Resolve VUnit);
                   (j, Resolve (VBool monitor)); (j, Resolve VUnit) ])).2
       = Failed (JsError ("unknown domain: " +:+ domain entity))) /\
  (forall p i r e,
     ended p = None -> (resume (top p) i r).2 = Failed e ->
     let p' := react p (Settle Main i r) in
     trace p' = trace p ++ (resume (top p) i r).1
                ++ [Did (LogError "jema2mqtt:" e); Did (ProcessExit 1)] /\
     ended p' = Some (ExitCode 1)).
Proof.
  intros Hunknown. split; [|split].
  - intros rest outcome. subst outcome.
    destruct (QOS env) as [reason|qos] eqn:Hqos.
    + unfold exec, main. rewrite Hqos. cbn [bind act eval start].
      rewrite run_settled by reflexivity. cbn [fst snd app status].
      split; [discriminate|]. split; [repeat constructor|]. intros message [=].
    + rewrite (exec_main_config env qos config rest Hqos). cbn [fst snd].
      pose proof (holds_exec (main_configured env qos config) rest
                    [Did (Log Info "jema2mqtt: start"); Called ReadConfig]
                    (main_post config)) as Hpost.
      destruct Hpost as (_ & Herror & Hnever).
      { apply main_configured_holds; repeat constructor; intros ? ?; discriminate. }
      destruct (Hnever Hunknown) as [Hreturn Hready].
      split; [exact Hreturn|]. split; [exact Hready|].
      intros message Hfailed.
      destruct (Herror message (status_failed _ _ Hfailed)) as [Hconnect Hlogged].
      split; [exact Hconnect|]. split; [exact Hlogged|].
      destruct (fine_exec (main_configured env qos config) rest
                  [Did (Log Info "jema2mqtt: start"); Called ReadConfig]
                  (discovery_blame env config) (JsError message)
                  (discovery_blame_monotone env config)
                  (main_configured_fine env qos config _) Hfailed message eq_refl)
        as (_ & Hsubscribe & Hpublished).
      split; [exact Hsubscribe|exact Hpublished].
  - intros qos broker binding monitor Hqos Hbroker.
    destruct Hunknown as (entity & Hin & Hdomain).
    apply list_elem_of_In, list_elem_of_lookup in Hin. destruct Hin as [j Hj].
    exists j, entity. split; [exact Hj|]. split; [exact Hdomain|].
    apply (main_rejects_unknown_domain env qos broker); assumption.
  - intros p i r e Halive Hfailed.
    apply (main_rejection_exits p i r e Halive Hfailed).
Qed.

Lemma unknown_domain_fails_after_connecting_witness :
  has_unknown_domain porch_config /\
  let outcome :=
    exec (main sample_env)
         ((0, Resolve (VConfig porch_config))
          :: [ (0, Resolve (VJema (JemaRef 0))); (0, Resolve VUnit); (0, Resolve VUnit);
               (0, Resolve (VBool false)); (0, Resolve VUnit) ]) in
  outcome.2 = Failed (JsError "unknown domain: light") /\
  In (Called (SubscribeAsync (map (fun e => getTopic e COMMAND) (entities porch_config))))
     outcome.1 /\
  exists entity value,
    In entity (entities porch_config) /\
    known_domain (domain entity) = false /\
    "unknown domain: light" = "unknown domain: " +:+ domain entity /\
    In (Called (publishState entity value)) outcome.1.
Proof.
  assert (Hunknown : has_unknown_domain porch_config).
  { exists porch_light. split; [left; reflexivity|reflexivity]. }
  split; [exact Hunknown|]. cbn zeta.
  assert (Hfailed :
    (exec (main sample_env)
          ((0, Resolve (VConfig porch_config))
           :: [ (0, Resolve (VJema (JemaRef 0))); (0, Resolve VUnit); (0, Resolve VUnit);
                (0, Resolve (VBool false)); (0, Resolve VUnit) ])).2
    = Failed (JsError "unknown domain: light")) by (vm_compute; reflexivity).
  split; [exact Hfailed|].
  destruct (proj1 (unknown_domain_fails_after_connecting sample_env porch_config Hunknown)
              [ (0, Resolve (VJema (JemaRef 0))); (0, Resolve VUnit); (0, Resolve VUnit);
                (0, Resolve (VBool false)); (0, Resolve VUnit) ])
    as (_ & _ & Herror).
  destruct (Herror "unknown domain: light" Hfailed) as (_ & _ & Hsubscribe & Hpublished).
  split; [exact Hsubscribe|exact Hpublished].
Defined.

(** C6, as the specification has it, fails: the unknown domain is found by
    [getDiscoveryMessage], which [main] calls for an entity after it has
    connected to the broker, subscribed and published the entity's state. *)
Lemma unknown_domain_surfaces_after_connect :
  has_unknown_domain porch_config /\
  ended (reacts (boot sample_env) porch_startup) = Some (ExitCode 1) /\
  trace (reacts (boot sample_env) porch_startup)
  = [ Did (Log Info "jema2mqtt: start"); Called ReadConfig;
      Called (RequestJemaAccess 5 6);
      Called (ConnectAsync "mqtt://broker" None None);
      Did (Log Info "mqtt-client: connected");
      Did (Log Debug "subscribe: jema2mqtt/porch/set");
      Called (SubscribeAsync ["jema2mqtt/porch/set"]);
      Did (ClientOnMessage [porch_light] (new_Map [("porch", JemaRef 0)]));
      Did (SetMonitorListener (JemaRef 0) porch_light);
      Called (GetMonitor (JemaRef 0));
      Called (PublishAsync "jema2mqtt/porch/state" (Text "INACTIVE") true);
      Did (LogError "jema2mqtt:" (JsError "unknown domain: light"));
      Did (ProcessExit 1) ].
Proof.
  split; [exists porch_light; split; [left; reflexivity|reflexivity]|].
  split; vm_compute; reflexivity.
Qed.

(** ** Joins that resolve, and joins that are rejected *)

Lemma continue_events {A} (evs : list Event) (r : list Event * Task A)
    (inputs : list (nat * Response)) :
  continue (evs ++ r.1, r.2) inputs
  = (evs ++ (continue r inputs).1, (continue r inputs).2).
Proof.
  destruct r as [evs' t]. cbn [continue fst snd].
  destruct (run t inputs) as [evs'' t']. cbn [fst snd].
  rewrite app_assoc. reflexivity.
Qed.

(** A [Promise.all] over bare promises that all resolve, first to last. *)
Lemma start_all_bare {X R' R A} (op : X -> Op R') (f : X -> R' -> R)
    (val : X -> Value) (res : X -> R') (k : list R -> Prog A)
    (xs : list X) (rest : list (nat * Response)) :
  (forall x, decode (op x) (val x) = Some (res x)) ->
  continue (start (Await (All (map (fun x => Await (op x) (fun r => Return (f x r))) xs)) k))
           (settle_from 0 (map val xs) ++ rest)
  = (map (fun x => Called (op x)) xs
       ++ (continue (start (k (map (fun x => f x (res x)) xs))) rest).1,
     (continue (start (k (map (fun x => f x (res x)) xs))) rest).2).
Proof.
  intros Hval. cbn [start].
  rewrite (launch_awaits op (fun x r => Return (f x r))).
  destruct xs as [|x xs].
  - cbn [map collect settle_from app].
    destruct (start (k [])) as [evs t]. cbn [continue].
    destruct (run t rest) as [evs' t']. reflexivity.
  - remember (x :: xs) as ys eqn:Hys.
    assert (Hne : ys <> []) by (subst; discriminate).
    assert (Hpending : collect (map (fun x => Pending (op x) (fun r => Return (f x r))) ys)
                       = None) by (subst; reflexivity).
    rewrite Hpending. cbn [continue].
    pose proof (join_completes op f val res k ys [] rest Hne Hval) as Hjoin.
    cbn [map app length] in Hjoin. rewrite Hjoin.
    destruct (continue (start (k (map (fun x => f x (res x)) ys))) rest) as [evs t].
    reflexivity.
Qed.

Lemma continue_do {A} (eff : Effect) (k : Prog A) (inputs : list (nat * Response)) :
  continue (start (Do eff k)) inputs
  = (Did eff :: (continue (start k) inputs).1, (continue (start k) inputs).2).
Proof.
  cbn [start]. destruct (start k) as [evs t]. cbn [continue].
  destruct (run t inputs) as [evs' t']. reflexivity.
Qed.

Lemma continue_call {A X} (op : Op X) (k : X -> Prog A) (v : Value) (x : X)
    (rest : list (nat * Response)) :
  decode op v = Some x ->
  continue (start (Await (Call op) k)) ((0, Resolve v) :: rest)
  = (Called op :: (continue (start (k x)) rest).1, (continue (start (k x)) rest).2).
Proof.
  intros Hv. cbn [start continue run resume]. rewrite Hv.
  destruct (start (k x)) as [evs t]. cbn [continue].
  destruct (run t rest) as [evs' t']. reflexivity.
Qed.

Lemma run_app {A} (t : Task A) (inputs rest : list (nat * Response)) :
  run t (inputs ++ rest) = continue (run t inputs) rest.
Proof.
  revert t. induction inputs as [|[i r] inputs IH]; intros t.
  - cbn [app run]. rewrite continue_nil_events. reflexivity.
  - cbn [app run]. destruct (resume t i r) as [evs t1]. rewrite IH.
    destruct (run t1 inputs) as [evs' t2]. cbn [continue].
    destruct (run t2 rest) as [evs'' t3]. rewrite app_assoc. reflexivity.
Qed.

Lemma exec_parts {A} (p : Prog A) (inputs : list (nat * Response)) :
  exec p inputs
  = ((start p).1 ++ (run (start p).2 inputs).1, (run (start p).2 inputs).2).
Proof.
  unfold exec. destruct (start p) as [evs t]. cbn [fst snd].
  destruct (run t inputs). reflexivity.
Qed.

(** A join of bare promises in which some resolve, in any order, and then
    one that is still pending is rejected: the join is rejected with it,
    and nothing has been called in between. *)
Lemma bare_join_rejected {R A X} (slots : list (Slot R)) (k : list R -> Prog A)
    (resolved : list (nat * Value)) (i : nat) (op : Op X) (k' : X -> Async R)
    (reason : string) (rest : list (nat * Response)) :
  Forall bare slots -> slots !! i = Some (Pending op k') ->
  ~ In i (map fst resolved) ->
  run (Joining slots k)
      (map (fun jv : nat * Value => (jv.1, Resolve jv.2)) resolved
       ++ (i, Reject reason) :: rest)
  = ([], Failed (External reason)).
Proof.
  revert slots. induction resolved as [|[j v] resolved IH]; intros slots Hbare Hi Hnot.
  - cbn [map app run resume]. rewrite Hi. rewrite run_settled by reflexivity. reflexivity.
  - cbn [map app fst snd]. rewrite run_cons.
    assert (Hji : j <> i) by (intros ->; apply Hnot; left; reflexivity).
    assert (Hnot' : ~ In i (map fst resolved)) by (intros H; apply Hnot; right; exact H).
    assert (Hstay : continue ([], Joining slots k)
                      (map (fun jv : nat * Value => (jv.1, Resolve jv.2)) resolved
                       ++ (i, Reject reason) :: rest)
                    = ([], Failed (External reason))).
    { rewrite continue_nil_events. apply IH; assumption. }
    cbn [resume].
    destruct (slots !! j) as [[r0|X0 op0 k0]|] eqn:Hj; try exact Hstay.
    destruct (decode op0 v) as [x|]; [|exact Hstay].
    assert (Hslot : bare (Pending op0 k0)).
    { rewrite Forall_forall in Hbare. apply Hbare.
      apply list_elem_of_lookup. exists j. exact Hj. }
    destruct (Hslot x) as [r Hr]. rewrite Hr. cbn [start_async].
    assert (Hi' : <[j := Fulfilled r]> slots !! i = Some (Pending op k')).
    { rewrite list_lookup_insert_ne by exact Hji. exact Hi. }
    rewrite (collect_pending _ i op k' Hi'). rewrite continue_nil_events.
    apply IH; [|exact Hi'|exact Hnot'].
    apply Forall_insert; [exact Hbare|exact I].
Qed.

(** ** The process and the promises it drops *)

Lemma detached_absorb (evs : list Event) (p : Process) :
  detached (absorb evs p) = detached p.
Proof.
  revert p. induction evs as [|ev evs IH]; intros p; [reflexivity|].
  cbn [absorb fold_left]. unfold absorb in IH. rewrite IH.
  destruct ev as [[]|R op]; reflexivity.
Qed.

Lemma top_absorb (evs : list Event) (p : Process) : top (absorb evs p) = top p.
Proof.
  revert p. induction evs as [|ev evs IH]; intros p; [reflexivity|].
  cbn [absorb fold_left]. unfold absorb in IH. rewrite IH.
  destruct ev as [[]|R op]; reflexivity.
Qed.

Lemma ended_absorb (evs : list Event) (p : Process) :
  Forall (fun ev => is_exit ev = false) evs -> ended (absorb evs p) = ended p.
Proof.
  revert p. induction evs as [|ev evs IH]; intros p Hquiet; [reflexivity|].
  inversion Hquiet as [|? ? Hev Hevs]; subst.
  cbn [absorb fold_left]. unfold absorb in IH. rewrite (IH _ Hevs).
  destruct ev as [[]|R op]; try reflexivity. discriminate.
Qed.

Lemma absorb_app (evs evs' : list Event) (p : Process) :
  absorb (evs ++ evs') p = absorb evs' (absorb evs p).
Proof. unfold absorb. apply fold_left_app. Qed.

Lemma detached_unhandled (t : Task unit) (p : Process) :
  detached (unhandled t p) = detached p.
Proof. destruct t; try reflexivity. simpl. destruct (ended p); reflexivity. Qed.

Lemma top_unhandled (t : Task unit) (p : Process) : top (unhandled t p) = top p.
Proof. destruct t; try reflexivity. simpl. destruct (ended p); reflexivity. Qed.

(** A rejected promise that nothing handles ends the live process with code 1. *)
Lemma ended_unhandled (t : Task unit) (p : Process) :
  ended p = None ->
  ended (unhandled t p)
  = match t with Failed _ => Some (ExitCode 1) | _ => None end.
Proof. intros Halive. destruct t; simpl; rewrite Halive; reflexivity. Qed.

Lemma react_ended (p : Process) (input : Input) : ended p <> None -> react p input = p.
Proof. intros H. unfold react. destruct (ended p); [reflexivity|contradiction]. Qed.

Lemma reacts_ended (p : Process) (inputs : list Input) :
  ended p <> None -> reacts p inputs = p.
Proof.
  intros H. induction inputs as [|input rest IH]; [reflexivity|].
  unfold reacts in *. cbn [fold_left]. rewrite (react_ended p input H). exact IH.
Qed.

Lemma lookup_snoc {X} (l : list X) (x : X) : (l ++ [x]) !! length l = Some x.
Proof. apply list_lookup_middle. reflexivity. Qed.

Lemma insert_snoc {X} (l : list X) (x y : X) : <[length l := y]> (l ++ [x]) = l ++ [y].
Proof.
  rewrite insert_app_r_alt by reflexivity. rewrite Nat.sub_diag. reflexivity.
Qed.

(** What changes when a promise of the last started operation settles: the
    function runs on; when this rejects its promise, the process ends. *)
Lemma settle_last_detached (p : Process) (ts : list (Task unit)) (t : Task unit)
    (i : nat) (r : Response) :
  ended p = None -> detached p = ts ++ [t] ->
  Forall (fun ev => is_exit ev = false) (resume t i r).1 ->
  let p' := react p (Settle (Detached (length ts)) i r) in
  trace p' = trace p ++ (resume t i r).1 /\
  detached p' = ts ++ [(resume t i r).2] /\
  top p' = top p /\
  ended p' = match (resume t i r).2 with Failed _ => Some (ExitCode 1) | _ => None end.
Proof.
  intros Halive Hdetached Hquiet. cbn zeta. unfold react.
  rewrite Halive, Hdetached, lookup_snoc.
  destruct (resume t i r) as [evs t']. cbn [fst snd] in *.
  rewrite trace_unhandled, detached_unhandled, top_unhandled.
  rewrite ended_unhandled by (rewrite (ended_absorb _ _ Hquiet); exact Halive).
  rewrite insert_snoc, trace_absorb, detached_absorb, top_absorb.
  repeat split; reflexivity.
Qed.

(** The same, over several settlements: the process follows the function
    as [run] drives it, until the function's promise is rejected. *)
Lemma reacts_last_detached (p : Process) (ts : list (Task unit)) (t : Task unit)
    (inputs : list (nat * Response)) :
  ended p = None -> detached p = ts ++ [t] -> (forall e, t <> Failed e) ->
  Forall (fun ev => is_exit ev = false) (run t inputs).1 ->
  let p' := reacts p (settles (length ts) inputs) in
  trace p' = trace p ++ (run t inputs).1 /\
  detached p' = ts ++ [(run t inputs).2] /\
  top p' = top p /\
  ended p' = match (run t inputs).2 with Failed _ => Some (ExitCode 1) | _ => None end.
Proof.
  revert p t. induction inputs as [|[i r] rest IH]; intros p t Halive Hdetached Ht Hquiet.
  - cbn. rewrite app_nil_r. repeat split; try assumption.
    destruct t as [a|e|code|X op k|R slots k]; try assumption. destruct (Ht e eq_refl).
  - cbn zeta. unfold reacts, settles. cbn [map fold_left].
    fold (settles (length ts) rest). fold (reacts (react p (Settle (Detached (length ts)) i r))
                                             (settles (length ts) rest)).
    rewrite run_cons in Hquiet |- *.
    destruct (resume t i r) as [evs t1] eqn:Hresume.
    assert (Hevs : Forall (fun ev => is_exit ev = false) evs).
    { unfold continue in Hquiet. destruct (run t1 rest). cbn [fst] in Hquiet.
      apply Forall_app in Hquiet. exact (proj1 Hquiet). }
    destruct (settle_last_detached p ts t i r Halive Hdetached) as (Htr & Hdet & Htop & Hend).
    { rewrite Hresume. exact Hevs. }
    rewrite Hresume in Htr, Hdet, Hend. cbn [fst snd] in Htr, Hdet, Hend.
    destruct (settled t1) eqn:Hsettled.
    + unfold continue. rewrite (run_settled t1 rest Hsettled). cbn [fst snd].
      destruct t1 as [a|e|code|X op k|R slots k]; try discriminate.
      * specialize (IH _ (Done a) Hend Hdet ltac:(discriminate)).
        rewrite (run_settled (Done a) rest eq_refl) in IH. cbn [fst snd] in IH.
        destruct (IH (List.Forall_nil _)) as (H1 & H2 & H3 & H4).
        rewrite H1, H2, H3, H4, Htr, Htop, !app_nil_r. repeat split; reflexivity.
      * rewrite reacts_ended by (rewrite Hend; discriminate).
        rewrite Htr, Hdet, Htop, Hend, app_nil_r. repeat split; reflexivity.
      * specialize (IH _ (Halted code) Hend Hdet ltac:(discriminate)).
        rewrite (run_settled (Halted code) rest eq_refl) in IH. cbn [fst snd] in IH.
        destruct (IH (List.Forall_nil _)) as (H1 & H2 & H3 & H4).
        rewrite H1, H2, H3, H4, Htr, Htop, !app_nil_r. repeat split; reflexivity.
    + assert (Hnot : forall e, t1 <> Failed e) by (intros e ->; discriminate).
      assert (Halive1 : ended (react p (Settle (Detached (length ts)) i r)) = None).
      { rewrite Hend. destruct t1; try reflexivity. destruct (Hnot e eq_refl). }
      specialize (IH _ t1 Halive1 Hdet Hnot).
      unfold continue in Hquiet |- *. destruct (run t1 rest) as [evs' t2].
      cbn [fst snd] in *. apply Forall_app in Hquiet.
      destruct (IH (proj2 Hquiet)) as (H1 & H2 & H3 & H4).
      rewrite H1, H2, H3, H4, Htr, Htop, app_assoc. repeat split; reflexivity.
Qed.

(** What changes when the broker delivers a message. *)
Lemma receive_message (p : Process) (entities : list Entity) (jemas : gmap string Jema)
    (topic message : string) :
  ended p = None -> message_listeners p = [(entities, jemas)] ->
  Forall (fun ev => is_exit ev = false)
         (start (handleMessage entities jemas topic message)).1 ->
  let p' := react p (Message topic message) in
  trace p' = trace p ++ (start (handleMessage entities jemas topic message)).1 /\
  detached p' = detached p ++ [(start (handleMessage entities jemas topic message)).2] /\
  top p' = top p /\
  ended p' = match (start (handleMessage entities jemas topic message)).2 with
             | Failed _ => Some (ExitCode 1)
             | _ => None
             end.
Proof.
  intros Halive Hlisteners Hquiet. cbn zeta. unfold react.
  rewrite Halive, Hlisteners. cbn [fold_left]. unfold spawn. rewrite Halive.
  destruct (start (handleMessage entities jemas topic message)) as [evs t].
  cbn [fst snd] in *.
  rewrite trace_unhandled, detached_unhandled, top_unhandled.
  rewrite ended_unhandled by (rewrite (ended_absorb _ _ Hquiet); exact Halive).
  rewrite trace_absorb, detached_absorb, top_absorb.
  repeat split; reflexivity.
Qed.

(** C9, as the code has it.  When the monitor read or the pulse of a command
    fails, the promise of that run of [handleMessage] is rejected.  The
    message callback has dropped the promise and nothing handles the
    rejection: [index.ts] logs nothing and calls nothing more for the
    command, and the process ends with code 1, so that from then on it
    reacts to nothing, for this entity or any other. *)
Theorem command_failure_ends_process_unlogged
    (p : Process) (entities : list Entity) (jemas : gmap string Jema)
    (entity : Entity) (message reason : string) :
  ended p = None -> message_listeners p = [(entities, jemas)] ->
  In entity entities -> bound entities jemas ->
  let n := length (detached p) in
  let received := react p (Message (getTopic entity COMMAND) message) in
  exists jema,
    jemas !! id entity = Some jema /\
    (let failed := react received (Settle (Detached n) 0 (Reject reason)) in
     trace failed = trace p ++ [Called (GetMonitor jema)] /\
     detached failed = detached p ++ [Failed (External reason)] /\
     ended failed = Some (ExitCode 1) /\
     forall inputs, reacts failed inputs = failed) /\
    (forall monitor,
       commanded message = Some (negb monitor) ->
       let failed :=
         reacts received [ Settle (Detached n) 0 (Resolve (VBool monitor));
                           Settle (Detached n) 0 (Reject reason) ] in
       trace failed = trace p ++ [Called (GetMonitor jema); Called (SendControl jema)] /\
       detached failed = detached p ++ [Failed (External reason)] /\
       ended failed = Some (ExitCode 1) /\
       forall inputs, reacts failed inputs = failed).
Proof.
  intros Halive Hlisteners Hin Hbound n received.
  destruct (handleMessage_bound entities jemas entity message Hin Hbound)
    as (jema & Hjema & Hhandler).
  exists jema. split; [exact Hjema|].
  destruct (receive_message p entities jemas (getTopic entity COMMAND) message
              Halive Hlisteners) as (Htrace & Hdetached & Htop & Hended).
  { rewrite Hhandler. repeat constructor. }
  fold received in Htrace, Hdetached, Htop, Hended. clearbody received.
  rewrite Hhandler in Htrace, Hdetached, Hended.
  cbn [start fst snd] in Htrace, Hdetached, Hended.
  split.
  - destruct (settle_last_detached received _ _ 0 (Reject reason) Hended Hdetached)
      as (Htrace' & Hdetached' & Htop' & Hended'); [constructor|].
    fold n in Htrace', Hdetached', Htop', Hended'. cbn zeta.
    cbn [resume fst snd] in Htrace', Hdetached', Hended'.
    rewrite Htrace', Hdetached', Htrace, app_nil_r.
    split; [reflexivity|]. split; [reflexivity|]. split; [exact Hended'|].
    intros inputs. apply reacts_ended. rewrite Hended'. discriminate.
  - intros monitor Hcommanded.
    assert (Hpulse : (String.eqb message StatusMessage.ACTIVE && negb monitor)
                     || (String.eqb message StatusMessage.INACTIVE && monitor) = true).
    { unfold commanded in Hcommanded.
      destruct (String.eqb message StatusMessage.ACTIVE);
        [|destruct (String.eqb message StatusMessage.INACTIVE)];
        destruct monitor; try discriminate; reflexivity. }
    cbn zeta.
    pose proof (reacts_last_detached received _ _
                  [(0, Resolve (VBool monitor)); (0, Reject reason)]
                  Hended Hdetached ltac:(discriminate)) as Hrun.
    cbn [run resume decode] in Hrun. rewrite Hpulse in Hrun.
    unfold await in Hrun. cbn [start run resume fst snd app] in Hrun.
    destruct Hrun as (Htrace' & Hdetached' & Htop' & Hended'); [repeat constructor|].
    fold n in Htrace', Hdetached', Htop', Hended'.
    change (settles n [(0, Resolve (VBool monitor)); (0, Reject reason)])
      with [Settle (Detached n) 0 (Resolve (VBool monitor));
            Settle (Detached n) 0 (Reject reason)] in *.
    rewrite Htrace', Hdetached', Htrace, <- app_assoc.
    split; [reflexivity|]. split; [reflexivity|]. split; [exact Hended'|].
    intros inputs. apply reacts_ended. rewrite Hended'. discriminate.
Qed.

Lemma command_failure_ends_process_unlogged_witness :
  ended sample_ready = None /\
  message_listeners sample_ready = [(entities sample_config, sample_jemas)] /\
  In garage (entities sample_config) /\
  bound (entities sample_config) sample_jemas /\
  trace (react (react sample_ready (Message (getTopic garage COMMAND) "INACTIVE"))
               (Settle (Detached 0) 0 (Reject "EIO")))
  = trace sample_ready ++ [Called (GetMonitor (JemaRef 1))] /\
  ended (react (react sample_ready (Message (getTopic garage COMMAND) "INACTIVE"))
               (Settle (Detached 0) 0 (Reject "EIO")))
  = Some (ExitCode 1).
Proof.
  assert (Halive : ended sample_ready = None) by (vm_compute; reflexivity).
  assert (Hlisteners :
    message_listeners sample_ready = [(entities sample_config, sample_jemas)])
    by (vm_compute; reflexivity).
  assert (Hin : In garage (entities sample_config)) by (right; left; reflexivity).
  split; [exact Halive|]. split; [exact Hlisteners|]. split; [exact Hin|].
  split; [exact sample_bound|].
  destruct (command_failure_ends_process_unlogged sample_ready (entities sample_config)
              sample_jemas garage "INACTIVE" "EIO" Halive Hlisteners Hin sample_bound)
    as (jema & Hjema & (Htrace & _ & Hended & _) & _).
  vm_compute in Hjema. injection Hjema as <-. split; [exact Htrace|exact Hended].
Defined.

(** C9, as the specification has it, fails: the failure of a monitor read
    while a command is handled leaves no log record, and it ends the
    process, which then no longer answers a command for another entity. *)
Lemma failed_read_leaves_no_log :
  let failed :=
    reacts sample_ready [ Message "jema2mqtt/garage/set" "INACTIVE";
                          Settle (Detached 0) 0 (Reject "EIO") ] in
  count is_log (trace failed) = count is_log (trace sample_ready) /\
  detached failed = [Failed (External "EIO")] /\
  ended failed = Some (ExitCode 1) /\
  trace (react failed (Message "jema2mqtt/front-door/set" "ACTIVE")) = trace failed.
Proof. cbv zeta. split; [|split; [|split]]; vm_compute; reflexivity. Qed.

(** ** Signals *)

Lemma signal_listeners_absorb (evs : list Event) (p : Process) :
  signal_listeners (absorb evs p) = signal_listeners p ++ registered evs.
Proof.
  revert p. induction evs as [|ev evs IH]; intros p.
  - cbn. rewrite app_nil_r. reflexivity.
  - cbn [absorb fold_left]. unfold absorb in IH. rewrite IH.
    destruct ev as [[]|R op]; cbn; rewrite ?app_nil_r, <- ?app_assoc; reflexivity.
Qed.

Lemma signal_listeners_unhandled (t : Task unit) (p : Process) :
  signal_listeners (unhandled t p) = signal_listeners p.
Proof. destruct t; try reflexivity. simpl. destruct (ended p); reflexivity. Qed.

Lemma registered_quiet (evs : list Event) :
  Forall (fun ev => is_process_on ev = false) evs -> registered evs = [].
Proof.
  induction 1 as [|ev evs Hev _ IH]; [reflexivity|].
  unfold registered in *. cbn [flat_map]. rewrite IH.
  destruct ev as [[]|R op]; try reflexivity. discriminate.
Qed.

(** What [shutdownHandler] does before it first waits. *)
Lemma start_shutdownHandler (entities : list Entity) (jemas : gmap string Jema) :
  (start (shutdownHandler entities jemas)).1
  = shutdown_prefix entities
    ++ match entities with [] => [Called EndAsync] | _ :: _ => [] end.
Proof.
  unfold shutdownHandler, publishAvailability, promise.
  cbn [bind act await_all await start].
  rewrite (launch_awaits
             (fun e => PublishAsync (getTopic e AVAILABILITY) (Text "offline") false)
             (fun _ => Return)).
  destruct entities as [|e es]; [reflexivity|].
  cbn [map collect fst]. rewrite app_nil_r. reflexivity.
Qed.

(** It then waits: for its offline publishes or, without entities, for the
    connection to close. *)
Lemma start_shutdownHandler_waits (entities : list Entity) (jemas : gmap string Jema) :
  status (start (shutdownHandler entities jemas)).2 = Running.
Proof.
  unfold shutdownHandler, publishAvailability, promise.
  cbn [bind act await_all await start].
  rewrite (launch_awaits
             (fun e => PublishAsync (getTopic e AVAILABILITY) (Text "offline") false)
             (fun _ => Return)).
  destruct entities as [|e es]; reflexivity.
Qed.

Lemma shutdown_start_quiet (entities : list Entity) (jemas : gmap string Jema) :
  Forall (fun ev => is_exit ev = false /\ is_process_on ev = false)
         (start (shutdownHandler entities jemas)).1.
Proof.
  rewrite start_shutdownHandler. unfold shutdown_prefix.
  apply Forall_app. split; [apply Forall_app; split|].
  - constructor; [split; reflexivity|]. constructor; [split; reflexivity|constructor].
  - apply Forall_forall. intros ev Hev. apply list_elem_of_In, in_map_iff in Hev.
    destruct Hev as (e & <- & _). split; reflexivity.
  - destruct entities; [|constructor].
    constructor; [split; reflexivity|constructor].
Qed.

(** A signal with one registered handler starts that handler. *)
Lemma handled_signal (p : Process) (signal : Signal) (entities : list Entity)
    (jemas : gmap string Jema) :
  ended p = None ->
  filter (fun h => Signal_eqb h.1 signal = true) (signal_listeners p)
  = [(signal, (entities, jemas))] ->
  let p' := react p (Kill signal) in
  trace p' = trace p ++ (start (shutdownHandler entities jemas)).1 /\
  detached p' = detached p ++ [(start (shutdownHandler entities jemas)).2] /\
  signal_listeners p' = signal_listeners p /\
  ended p' = None.
Proof.
  intros Halive Hlisteners. cbn zeta.
  pose proof (shutdown_start_quiet entities jemas) as Hquiet.
  pose proof (start_shutdownHandler_waits entities jemas) as Hwaits.
  assert (Hexit : Forall (fun ev => is_exit ev = false)
                         (start (shutdownHandler entities jemas)).1)
    by (eapply Forall_impl; [exact Hquiet|]; intros ev [H _]; exact H).
  assert (Hon : Forall (fun ev => is_process_on ev = false)
                       (start (shutdownHandler entities jemas)).1)
    by (eapply Forall_impl; [exact Hquiet|]; intros ev [_ H]; exact H).
  unfold react. rewrite Halive, Hlisteners. cbn [fold_left].
  unfold spawn. rewrite Halive.
  destruct (start (shutdownHandler entities jemas)) as [evs t].
  cbn [fst snd] in *.
  rewrite unhandled_running by (intros e ->; discriminate).
  rewrite trace_absorb, detached_absorb, signal_listeners_absorb,
    (registered_quiet _ Hon), (ended_absorb _ _ Hexit), app_nil_r.
  repeat split; assumption.
Qed.

(** The handler, once started by a signal, followed through the
    settlements of its promises. *)
Lemma handled_signal_runs (p : Process) (signal : Signal) (entities : list Entity)
    (jemas : gmap string Jema) (inputs : list (nat * Response)) :
  ended p = None ->
  filter (fun h => Signal_eqb h.1 signal = true) (signal_listeners p)
  = [(signal, (entities, jemas))] ->
  Forall (fun ev => is_exit ev = false) (exec (shutdownHandler entities jemas) inputs).1 ->
  let p' := reacts (react p (Kill signal)) (settles (length (detached p)) inputs) in
  trace p' = trace p ++ (exec (shutdownHandler entities jemas) inputs).1 /\
  detached p' = detached p ++ [(exec (shutdownHandler entities jemas) inputs).2] /\
  ended p' = match (exec (shutdownHandler entities jemas) inputs).2 with
             | Failed _ => Some (ExitCode 1)
             | _ => None
             end.
Proof.
  intros Halive Hlisteners Hquiet. cbn zeta.
  destruct (handled_signal p signal entities jemas Halive Hlisteners)
    as (Htrace & Hdetached & _ & Hended).
  pose proof (start_shutdownHandler_waits entities jemas) as Hwaits.
  rewrite exec_parts in Hquiet |- *. cbn [fst snd] in Hquiet |- *.
  apply Forall_app in Hquiet. destruct Hquiet as [_ Hquiet].
  destruct (reacts_last_detached _ _ _ inputs Hended Hdetached) as (H1 & H2 & _ & H4).
  { intros e He. rewrite He in Hwaits. discriminate. }
  { exact Hquiet. }
  rewrite H1, H2, H4, Htrace, app_assoc. repeat split; reflexivity.
Qed.

(** *** The handler by itself *)

Lemma shutdownHandler_closing (entities : list Entity) (jemas : gmap string Jema) :
  shutdownHandler entities jemas
  = (act (Log Info "jema2mqtt: shutdown") ;;
     act ClearInterval ;;
     _ <- await_all (publishAvailability entities "offline") ;;
     shutdown_closing jemas).
Proof. reflexivity. Qed.

(** Every offline publish resolves, first to last: the handler goes on to
    close the connection. *)
Lemma shutdown_published (entities : list Entity) (jemas : gmap string Jema)
    (rest : list (nat * Response)) :
  exec (shutdownHandler entities jemas)
       (settle_from 0 (map (fun _ => VUnit) entities) ++ rest)
  = (shutdown_prefix entities ++ (continue (start (shutdown_closing jemas)) rest).1,
     (continue (start (shutdown_closing jemas)) rest).2).
Proof.
  rewrite exec_continue, shutdownHandler_closing.
  unfold publishAvailability, promise. cbn [bind act await_all]. rewrite !continue_do.
  rewrite (start_all_bare
             (fun e => PublishAsync (getTopic e AVAILABILITY) (Text "offline") false)
             (fun _ r => r) (fun _ => VUnit) (fun _ => tt)); [|reflexivity].
  cbn [fst snd]. unfold shutdown_prefix. rewrite <- app_assoc. reflexivity.
Qed.

(** An offline publish is rejected, after any of the others have resolved,
    in any order. *)
Lemma shutdown_publish_rejected (entities : list Entity) (jemas : gmap string Jema)
    (resolved : list nat) (i : nat) (entity : Entity) (reason : string)
    (rest : list (nat * Response)) :
  ~ In i resolved -> entities !! i = Some entity ->
  exec (shutdownHandler entities jemas)
       (map (fun j => (j, Resolve VUnit)) resolved ++ (i, Reject reason) :: rest)
  = (shutdown_prefix entities, Failed (External reason)).
Proof.
  intros Hnot Hi.
  unfold exec, shutdownHandler, publishAvailability, promise.
  cbn [bind act await_all await start].
  rewrite (launch_awaits
             (fun e => PublishAsync (getTopic e AVAILABILITY) (Text "offline") false)
             (fun _ => Return)).
  assert (Hpending : collect (map (fun e => Pending
               (PublishAsync (getTopic e AVAILABILITY) (Text "offline") false)
               (@Return Op unit)) entities) = None).
  { destruct entities; [discriminate|reflexivity]. }
  rewrite Hpending.
  pose proof (bare_join_rejected
                (map (fun e => Pending
                        (PublishAsync (getTopic e AVAILABILITY) (Text "offline") false)
                        (@Return Op unit)) entities)
                (fun _ : list unit => shutdown_closing jemas)
                (map (fun j => (j, VUnit)) resolved) i
                (PublishAsync (getTopic entity AVAILABILITY) (Text "offline") false)
                Return reason rest) as Hrun.
  rewrite !map_map in Hrun. cbn [fst snd] in Hrun. rewrite map_id in Hrun.
  unfold shutdown_closing, await in Hrun. cbn [bind act await_all] in Hrun.
  rewrite Hrun.
  - unfold shutdown_prefix. rewrite !app_nil_r. reflexivity.
  - apply Forall_forall. intros s Hs. apply list_elem_of_In, in_map_iff in Hs.
    destruct Hs as (e & <- & _). intros x. exists x. reflexivity.
  - rewrite (lookup_map _ _ _ _ Hi). reflexivity.
  - exact Hnot.
Qed.

(** *** The handlers that are registered *)

Lemma registered_app (evs evs' : list Event) :
  registered (evs ++ evs') = registered evs ++ registered evs'.
Proof. unfold registered. apply flat_map_app. Qed.

Lemma listeners_absorb (evs : list Event) (p : Process) :
  signal_listeners p = registered (trace p) ->
  signal_listeners (absorb evs p) = registered (trace (absorb evs p)).
Proof.
  intros H. rewrite signal_listeners_absorb, trace_absorb, registered_app, H. reflexivity.
Qed.

Lemma listeners_spawn (f : Prog unit) (p : Process) :
  signal_listeners p = registered (trace p) ->
  signal_listeners (spawn f p) = registered (trace (spawn f p)).
Proof.
  intros H. unfold spawn. destruct (ended p); [exact H|].
  destruct (start f) as [evs t].
  rewrite signal_listeners_unhandled, trace_unhandled. apply listeners_absorb. exact H.
Qed.

Lemma listeners_react (p : Process) (input : Input) :
  signal_listeners p = registered (trace p) ->
  signal_listeners (react p input) = registered (trace (react p input)).
Proof.
  intros H. unfold react. destruct (ended p); [exact H|].
  destruct input as [[|n] i r|topic payload|n value| |signal].
  - destruct (resume (top p) i r) as [evs t]. apply listeners_absorb. exact H.
  - destruct (detached p !! n) as [t|]; [|exact H].
    destruct (resume t i r) as [evs t'].
    rewrite signal_listeners_unhandled, trace_unhandled. apply listeners_absorb. exact H.
  - generalize (message_listeners p). intros ls. revert p H.
    induction ls as [|[entities jemas] ls IH]; intros q H.
    + exact H.
    + cbn [fold_left]. apply IH. apply listeners_spawn. exact H.
  - destruct (monitor_listeners p !! n) as [[jema entity]|]; [|exact H].
    apply listeners_spawn. exact H.
  - destruct (interval p) as [entities|]; [|exact H]. apply listeners_spawn. exact H.
  - destruct (filter _ (signal_listeners p)) as [|h hs]; [exact H|].
    generalize (h :: hs). clear h hs. intros hs. revert p H.
    induction hs as [|[s [entities jemas]] hs IH]; intros q H.
    + exact H.
    + cbn [fold_left]. apply IH. apply listeners_spawn. exact H.
Qed.

(** The handlers of a process are those its [process.on] calls have
    registered: none, as long as [main] has not come to lines 199-200. *)
Lemma listeners_reacts (env : Settings) (inputs : list Input) :
  signal_listeners (reacts (boot env) inputs)
  = registered (trace (reacts (boot env) inputs)).
Proof.
  assert (Hboot : signal_listeners (boot env) = registered (trace (boot env))).
  { unfold boot. destruct (start (main env)) as [evs t]. apply listeners_absorb.
    reflexivity. }
  revert Hboot. generalize (boot env). unfold reacts.
  induction inputs as [|input rest IH]; intros p H; [exact H|].
  cbn [fold_left]. apply IH. apply listeners_react. exact H.
Qed.

(** *** Shutdown, and the process under it *)

(** C7, as the code has it.  The handler cancels the timer, sends the offline
    publish of every entity, then closes the connection, then leaves the
    process, in this order and never otherwise; every offline publish has
    been sent before the connection is closed.  When nothing fails the
    process exits with code 0.  There is no handler for failures: when an
    offline publish is rejected, whichever it is and whichever have resolved
    before, the connection is not closed and [process.exit(0)] is not
    reached, and when closing is rejected [process.exit(0)] is not reached;
    in both cases the promise of the handler, which the signal callback has
    dropped, is rejected with nothing to handle it, and the process ends
    with code 1 instead. *)
Theorem shutdown_in_order_until_failure
    (entities : list Entity) (jemas : gmap string Jema) :
  let handler := shutdownHandler entities jemas in
  let published := settle_from 0 (map (fun _ => VUnit) entities) in
  (forall inputs,
     shutdown_post entities (exec handler inputs).1 (status (exec handler inputs).2)) /\
  (forall resolved i entity reason rest,
     ~ In i resolved -> entities !! i = Some entity ->
     exec handler (map (fun j => (j, Resolve VUnit)) resolved ++ (i, Reject reason) :: rest)
     = (shutdown_prefix entities, Failed (External reason))) /\
  (forall reason rest,
     exec handler (published ++ (0, Reject reason) :: rest)
     = (shutdown_prefix entities ++ [Called EndAsync], Failed (External reason))) /\
  exec handler (published ++ [(0, Resolve VUnit)])
  = (shutdown_prefix entities ++ shutdown_tail, Halted 0) /\
  (forall p signal,
     ended p = None ->
     filter (fun h => Signal_eqb h.1 signal = true) (signal_listeners p)
     = [(signal, (entities, jemas))] ->
     let n := length (detached p) in
     let stopping := react p (Kill signal) in
     (forall resolved i entity reason,
        ~ In i resolved -> entities !! i = Some entity ->
        let failed :=
          reacts stopping
                 (settles n (map (fun j => (j, Resolve VUnit)) resolved
                             ++ [(i, Reject reason)])) in
        trace failed = trace p ++ shutdown_prefix entities /\
        ended failed = Some (ExitCode 1)) /\
     (forall reason,
        let failed := reacts stopping (settles n (published ++ [(0, Reject reason)])) in
        trace failed = trace p ++ shutdown_prefix entities ++ [Called EndAsync] /\
        ended failed = Some (ExitCode 1)) /\
     (let left := reacts stopping (settles n (published ++ [(0, Resolve VUnit)])) in
      trace left = trace p ++ shutdown_prefix entities ++ shutdown_tail /\
      ended left = Some (ExitCode 0))).
Proof.
  intros handler published.
  assert (Hquiet : Forall (fun ev => is_exit ev = false) (shutdown_prefix entities)).
  { unfold shutdown_prefix. apply Forall_app. split; [repeat constructor|].
    apply Forall_forall. intros ev Hev. apply list_elem_of_In, in_map_iff in Hev.
    destruct Hev as (e & <- & _). reflexivity. }
  assert (Hend : forall reason rest,
            exec handler (published ++ (0, Reject reason) :: rest)
            = (shutdown_prefix entities ++ [Called EndAsync], Failed (External reason))).
  { intros reason rest. subst handler published. rewrite shutdown_published.
    unfold shutdown_closing, await. cbn [bind start continue run resume].
    rewrite run_settled by reflexivity. reflexivity. }
  assert (Hwait : exists k,
            exec handler published
            = (shutdown_prefix entities ++ [Called EndAsync], Waiting EndAsync k) /\
            start (k tt) = ([Did (Log Info "mqtt-client: closed"); Did (ProcessExit 0)],
                            Halted 0)).
  { subst handler published. rewrite <- (app_nil_r (settle_from 0 _)).
    rewrite shutdown_published.
    unfold shutdown_closing, await. cbn [bind act await_all start continue run fst snd].
    eexists. split; [rewrite app_nil_r; reflexivity|].
    cbn [start]. rewrite launch_returns, collect_fulfilled. reflexivity. }
  split; [|split; [|split; [|split]]].
  - intros inputs.
    apply (holds_exec handler inputs [] _ (shutdownHandler_holds entities jemas)).
  - intros resolved i entity reason rest. apply shutdown_publish_rejected.
  - exact Hend.
  - subst handler published. rewrite shutdown_published.
    unfold shutdown_closing, await.
    cbn [bind act await_all start continue run resume decode].
    rewrite launch_returns, collect_fulfilled. reflexivity.
  - intros p signal Halive Hlisteners n stopping. split; [|split].
    + intros resolved i entity reason Hnot Hi. cbn zeta.
      pose proof (shutdown_publish_rejected entities jemas resolved i entity reason []
                    Hnot Hi) as Hexec.
      destruct (handled_signal_runs p signal entities jemas
                  (map (fun j => (j, Resolve VUnit)) resolved ++ [(i, Reject reason)])
                  Halive Hlisteners) as (Htrace & _ & Hended).
      { rewrite Hexec. exact Hquiet. }
      rewrite Hexec in Htrace, Hended. split; [exact Htrace|exact Hended].
    + intros reason. cbn zeta.
      destruct (handled_signal_runs p signal entities jemas
                  (published ++ [(0, Reject reason)]) Halive Hlisteners)
        as (Htrace & _ & Hended).
      { fold handler. rewrite Hend.
        apply Forall_app. split; [exact Hquiet|repeat constructor]. }
      fold handler in Htrace, Hended. rewrite Hend in Htrace, Hended.
      split; [exact Htrace|exact Hended].
    + cbn zeta. destruct Hwait as (k & Hexec & Hk).
      destruct (handled_signal_runs p signal entities jemas published Halive Hlisteners)
        as (Htrace & Hdetached & Hended).
      { fold handler. rewrite Hexec.
        apply Forall_app. split; [exact Hquiet|repeat constructor]. }
      fold handler stopping n in Htrace, Hdetached, Hended.
      rewrite Hexec in Htrace, Hdetached, Hended. cbn [fst snd] in Htrace, Hdetached, Hended.
      unfold settles, reacts. rewrite map_app, fold_left_app. cbn [map fold_left].
      fold (settles n published). fold (reacts stopping (settles n published)).
      set (closing := reacts stopping (settles n published)) in *.
      unfold react. rewrite Hended, Hdetached. subst n. rewrite lookup_snoc.
      cbn [resume decode]. rewrite Hk.
      rewrite trace_unhandled, trace_absorb. cbn [set_detached trace]. rewrite Htrace.
      split; [unfold shutdown_tail; rewrite <- !app_assoc; reflexivity|].
      reflexivity.
Qed.

Lemma shutdown_in_order_until_failure_witness :
  ended sample_ready = None /\
  filter (fun h => Signal_eqb h.1 SIGTERM = true) (signal_listeners sample_ready)
  = [(SIGTERM, (entities sample_config, sample_jemas))] /\
  ~ In 1 [0] /\ entities sample_config !! 1 = Some garage /\
  let failed :=
    reacts (react sample_ready (Kill SIGTERM))
           (settles (length (detached sample_ready))
                    (map (fun j => (j, Resolve VUnit)) [0] ++ [(1, Reject "ECONNRESET")])) in
  trace failed = trace sample_ready ++ shutdown_prefix (entities sample_config) /\
  ended failed = Some (ExitCode 1).
Proof.
  assert (Halive : ended sample_ready = None) by (vm_compute; reflexivity).
  assert (Hlisteners :
    filter (fun h => Signal_eqb h.1 SIGTERM = true) (signal_listeners sample_ready)
    = [(SIGTERM, (entities sample_config, sample_jemas))])
    by (vm_compute; reflexivity).
  assert (Hnot : ~ In 1 [0]) by (intros [H|[]]; discriminate).
  split; [exact Halive|]. split; [exact Hlisteners|]. split; [exact Hnot|].
  split; [reflexivity|].
  exact (proj1 (proj2 (proj2 (proj2 (proj2
           (shutdown_in_order_until_failure (entities sample_config) sample_jemas))))
           sample_ready SIGTERM Halive Hlisteners)
           [0] 1 garage "ECONNRESET" Hnot eq_refl).
Defined.

(** C7, as the specification has it, fails: a rejected offline publish
    rejects the handler, and the steps after it do not run: the connection
    is not closed, and the process ends with code 1. *)
Lemma shutdown_stops_at_failed_publish :
  exec (shutdownHandler (entities sample_config) sample_jemas)
       [ (0, Reject "ECONNRESET"); (1, Resolve VUnit); (0, Resolve VUnit) ]
  = ([ Did (Log Info "jema2mqtt: shutdown"); Did ClearInterval;
       Called (PublishAsync "jema2mqtt/front-door/availability" (Text "offline") false);
       Called (PublishAsync "jema2mqtt/garage/availability" (Text "offline") false) ],
     Failed (External "ECONNRESET")) /\
  ended (reacts sample_ready
           [Kill SIGINT; Settle (Detached 0) 0 (Reject "ECONNRESET");
            Settle (Detached 0) 1 (Resolve VUnit); Settle (Detached 0) 0 (Resolve VUnit)])
  = Some (ExitCode 1).
Proof. split; vm_compute; reflexivity. Qed.

(** *** One signal after another *)

(** C8, as the code has it.  No state records that a shutdown has begun:
    once its handler is registered, each signal that reaches the live
    process starts [shutdownHandler] afresh, whatever is already in flight,
    which cancels the timer and sends the offline publishes again; the
    handlers stay registered.  As long as [main] has not called
    [process.on] no handler exists, and a signal ends the process at once,
    with no step of the shutdown.  When the process has been left nothing
    reacts any more. *)
Theorem registered_signal_starts_shutdown
    (p : Process) (signal : Signal) (entities : list Entity) (jemas : gmap string Jema) :
  ended p = None ->
  filter (fun h => Signal_eqb h.1 signal = true) (signal_listeners p)
  = [(signal, (entities, jemas))] ->
  let p' := react p (Kill signal) in
  (trace p' = trace p ++ (start (shutdownHandler entities jemas)).1 /\
   exists evs, (start (shutdownHandler entities jemas)).1 = shutdown_prefix entities ++ evs) /\
  detached p' = detached p ++ [(start (shutdownHandler entities jemas)).2] /\
  signal_listeners p' = signal_listeners p /\
  ended p' = None /\
  (forall q input, ended q <> None -> react q input = q) /\
  (forall env inputs,
     let q := reacts (boot env) inputs in
     ended q = None ->
     Forall (fun ev => is_process_on ev = false) (trace q) ->
     trace (react q (Kill signal)) = trace q /\
     ended (react q (Kill signal)) = Some (KilledBy signal)).
Proof.
  intros Halive Hlisteners. cbn zeta.
  destruct (handled_signal p signal entities jemas Halive Hlisteners)
    as (Htrace & Hdetached & Hsame & Hended).
  split; [split; [exact Htrace|]|].
  { rewrite start_shutdownHandler. eexists. reflexivity. }
  split; [exact Hdetached|]. split; [exact Hsame|]. split; [exact Hended|].
  split; [intros q input; apply react_ended|].
  intros env inputs Hq Hnone.
  pose proof (listeners_reacts env inputs) as Hreg.
  rewrite (registered_quiet _ Hnone) in Hreg.
  unfold react. rewrite Hq, Hreg. split; reflexivity.
Qed.

Lemma registered_signal_starts_shutdown_witness :
  ended sample_ready = None /\
  filter (fun h => Signal_eqb h.1 SIGTERM = true) (signal_listeners sample_ready)
  = [(SIGTERM, (entities sample_config, sample_jemas))] /\
  trace (react sample_ready (Kill SIGTERM))
  = trace sample_ready ++ (start (shutdownHandler (entities sample_config) sample_jemas)).1 /\
  let starting := reacts (boot sample_env) (take 5 sample_startup) in
  ended starting = None /\
  Forall (fun ev => is_process_on ev = false) (trace starting) /\
  trace (react starting (Kill SIGTERM)) = trace starting /\
  ended (react starting (Kill SIGTERM)) = Some (KilledBy SIGTERM).
Proof.
  assert (Halive : ended sample_ready = None) by (vm_compute; reflexivity).
  assert (Hlisteners :
    filter (fun h => Signal_eqb h.1 SIGTERM = true) (signal_listeners sample_ready)
    = [(SIGTERM, (entities sample_config, sample_jemas))])
    by (vm_compute; reflexivity).
  assert (Hstarting : ended (reacts (boot sample_env) (take 5 sample_startup)) = None)
    by (vm_compute; reflexivity).
  assert (Hnone : Forall (fun ev => is_process_on ev = false)
                         (trace (reacts (boot sample_env) (take 5 sample_startup))))
    by (vm_compute; repeat constructor).
  pose proof (registered_signal_starts_shutdown sample_ready SIGTERM
                (entities sample_config) sample_jemas Halive Hlisteners) as H.
  split; [exact Halive|]. split; [exact Hlisteners|].
  split; [exact (proj1 (proj1 H))|].
  cbn zeta. split; [exact Hstarting|]. split; [exact Hnone|].
  exact (proj2 (proj2 (proj2 (proj2 (proj2 H)))) sample_env (take 5 sample_startup)
           Hstarting Hnone).
Defined.

(** C8, as the specification has it, fails: a second signal that arrives
    while the first shutdown waits for its offline publishes runs the
    shutdown steps a second time. *)
Lemma second_signal_repeats_shutdown :
  let stopping := reacts sample_ready [Kill SIGINT; Kill SIGTERM] in
  trace stopping
  = trace sample_ready
    ++ shutdown_prefix (entities sample_config)
    ++ shutdown_prefix (entities sample_config) /\
  length (detached stopping) = 2 /\ ended stopping = None.
Proof. cbv zeta. split; [|split]; vm_compute; reflexivity. Qed.

(** ** The scenario of the specification *)

(** The lock [front-door] reads false; ACTIVE arrives and one pulse is sent;
    the monitor turns true and ACTIVE is published, retained; a second
    ACTIVE arrives while the monitor reads true, and no pulse is sent. *)
Example front_door_scenario :
  trace (reacts sample_ready
           [ Message "jema2mqtt/front-door/set" "ACTIVE";
             Settle (Detached 0) 0 (Resolve (VBool false));
             Settle (Detached 0) 0 (Resolve VUnit);
             MonitorChange 0 true;
             Settle (Detached 1) 0 (Resolve VUnit);
             Message "jema2mqtt/front-door/set" "ACTIVE";
             Settle (Detached 2) 0 (Resolve (VBool true)) ])
  = trace sample_ready
    ++ [ Called (GetMonitor (JemaRef 0)); Called (SendControl (JemaRef 0));
         Called (PublishAsync "jema2mqtt/front-door/state" (Text "ACTIVE") true);
         Called (GetMonitor (JemaRef 0)) ].
Proof. vm_compute. reflexivity. Qed.

(** * Further properties of [index.ts] *)

(** ** Topics and commands *)

(** X1. The topics the bridge publishes to are never taken for commands: a
    message on the state or availability topic of any entity, configured or
    not, ends [handleMessage] at once, with no call and no error. *)
Theorem own_publish_topics_are_not_commands
    (entities : list Entity) (jemas : gmap string Jema) (entity : Entity)
    (type : TopicType) (message : string) (inputs : list (nat * Response)) :
  type <> COMMAND ->
  exec (handleMessage entities jemas (getTopic entity type) message) inputs
  = ([], Done tt).
Proof.
  intros Htype. unfold exec, handleMessage.
  rewrite find_no_topic.
  - cbn [start]. rewrite run_settled by reflexivity. reflexivity.
  - intros e _ Heq. apply getTopic_inj in Heq. destruct Heq as [_ Heq].
    apply Htype. symmetry. exact Heq.
Qed.

Lemma own_publish_topics_are_not_commands_witness :
  STATE <> COMMAND /\
  exec (handleMessage (entities sample_config) sample_jemas
          (getTopic garage STATE) "ACTIVE") [(0, Resolve (VBool false))]
  = ([], Done tt).
Proof.
  assert (H : STATE <> COMMAND) by discriminate.
  split; [exact H|].
  exact (own_publish_topics_are_not_commands (entities sample_config) sample_jemas
           garage STATE "ACTIVE" [(0, Resolve (VBool false))] H).
Defined.

(** X2. Whatever is settled and in whatever order, one command on the topic
    of a configured entity calls nothing but [getMonitor] and [sendControl]
    of that entity's own binding, and pulses at most once. *)
Theorem handleMessage_touches_own_binding_only
    (entities : list Entity) (jemas : gmap string Jema) (entity : Entity)
    (message : string) (inputs : list (nat * Response)) :
  In entity entities -> bound entities jemas ->
  exists jema,
    jemas !! id entity = Some jema /\
    let evs := (exec (handleMessage entities jemas (getTopic entity COMMAND) message)
                     inputs).1 in
    (evs = [Called (GetMonitor jema)]
     \/ evs = [Called (GetMonitor jema); Called (SendControl jema)]) /\
    count is_pulse evs <= 1.
Proof.
  intros Hin Hbound.
  destruct (handleMessage_bound entities jemas entity message Hin Hbound)
    as (jema & Hjema & ->).
  exists jema. split; [exact Hjema|]. cbn zeta.
  set (post := fun (hist : list Event) (_ : Outcome unit) =>
                 hist = [Called (GetMonitor jema)]
                 \/ hist = [Called (GetMonitor jema); Called (SendControl jema)]).
  assert (Hpost : post (exec (Await (Call (GetMonitor jema)) (fun monitor =>
                     if (String.eqb message StatusMessage.ACTIVE && negb monitor)
                        || (String.eqb message StatusMessage.INACTIVE && monitor)
                     then await (SendControl jema) else Return tt)) inputs).1
                   (status (exec (Await (Call (GetMonitor jema)) (fun monitor =>
                     if (String.eqb message StatusMessage.ACTIVE && negb monitor)
                        || (String.eqb message StatusMessage.INACTIVE && monitor)
                     then await (SendControl jema) else Return tt)) inputs).2)).
  { apply (holds_exec _ inputs [] post). cbn [holds app].
    split; [left; reflexivity|]. split; [intros reason; left; reflexivity|].
    intros monitor.
    destruct ((String.eqb message StatusMessage.ACTIVE && negb monitor)
              || (String.eqb message StatusMessage.INACTIVE && monitor)).
    - cbn [await holds app]. split; [right; reflexivity|].
      split; [intros reason; right; reflexivity|]. intros u. right. reflexivity.
    - left. reflexivity. }
  split; [exact Hpost|].
  destruct Hpost as [H|H]; rewrite H; cbv; lia.
Qed.

Lemma handleMessage_touches_own_binding_only_witness :
  In garage (entities sample_config) /\
  bound (entities sample_config) sample_jemas /\
  count is_pulse
    (exec (handleMessage (entities sample_config) sample_jemas
             (getTopic garage COMMAND) "INACTIVE")
          [(0, Resolve (VBool true)); (0, Reject "EIO"); (0, Resolve (VBool true))]).1
  <= 1.
Proof.
  assert (Hin : In garage (entities sample_config)) by (right; left; reflexivity).
  split; [exact Hin|]. split; [exact sample_bound|].
  destruct (handleMessage_touches_own_binding_only (entities sample_config) sample_jemas
              garage "INACTIVE"
              [(0, Resolve (VBool true)); (0, Reject "EIO"); (0, Resolve (VBool true))]
              Hin sample_bound) as (jema & _ & _ & Hcount).
  exact Hcount.
Defined.

(** ** Discovery messages, further *)

(** X3. [getDiscoveryMessage] throws exactly for the domains outside lock,
    switch and cover, and the error names the domain; for the three domains
    it returns a message. *)
Theorem getDiscoveryMessage_throws_iff_unknown
    (deviceId : string) (qos : Z) (entity : Entity) :
  match getDiscoveryMessage deviceId qos entity with
  | inr _ => known_domain (domain entity) = true
  | inl err =>
      known_domain (domain entity) = false /\
      err = JsError ("unknown domain: " +:+ domain entity)
  end.
Proof.
  unfold getDiscoveryMessage, known_domain.
  destruct (String.eqb (domain entity) "lock"); [reflexivity|].
  destruct (String.eqb (domain entity) "switch"); [reflexivity|].
  destruct (String.eqb (domain entity) "cover"); [reflexivity|].
  split; reflexivity.
Qed.

(** X4. The discovery message of an entity of a known domain points to the
    very topics the bridge uses for that entity: [command_topic],
    [state_topic] and [availability_topic] are [getTopic] of the three
    categories; it carries the configured name and QoS, asks for retained
    commands and is not optimistic. *)
Theorem discovery_message_names_the_topics
    (deviceId : string) (qos : Z) (entity : Entity) :
  known_domain (domain entity) = true ->
  exists message,
    getDiscoveryMessage deviceId qos entity = inr message /\
    get_field "unique_id" message
      = Some (JString ("jema2mqtt_" +:+ deviceId +:+ "_" +:+ id entity)) /\
    get_field "name" message = Some (JString (name entity)) /\
    get_field "command_topic" message = Some (JString (getTopic entity COMMAND)) /\
    get_field "state_topic" message = Some (JString (getTopic entity STATE)) /\
    get_field "availability_topic" message
      = Some (JString (getTopic entity AVAILABILITY)) /\
    get_field "optimistic" message = Some (JBool false) /\
    get_field "qos" message = Some (JNumber qos) /\
    get_field "retain" message = Some (JBool true).
Proof.
  unfold known_domain, getDiscoveryMessage. intros Hknown.
  destruct (String.eqb (domain entity) "lock");
    [|destruct (String.eqb (domain entity) "switch");
      [|destruct (String.eqb (domain entity) "cover"); [|discriminate]]];
    eexists; (split; [reflexivity|]); repeat split.
Qed.

Lemma discovery_message_names_the_topics_witness :
  known_domain (domain garage) = true /\
  exists message,
    getDiscoveryMessage "rpi" 1 garage = inr message /\
    get_field "command_topic" message = Some (JString "jema2mqtt/garage/set").
Proof.
  split; [reflexivity|].
  destruct (discovery_message_names_the_topics "rpi" 1 garage eq_refl)
    as (message & Hmessage & _ & _ & Hcommand & _).
  exists message. split; [exact Hmessage|exact Hcommand].
Defined.

(** X5. Every state the bridge publishes for an entity of a known domain is
    one the entity's discovery message declares: the publish goes to the
    message's [state_topic], and its payload is the value of one of the
    message's state keys, the one for the active state when the monitor is
    true and the one for the inactive state when it is false. *)
Theorem published_state_is_declared
    (deviceId : string) (qos : Z) (entity : Entity) (value : bool) :
  known_domain (domain entity) = true ->
  exists message key topic token,
    getDiscoveryMessage deviceId qos entity = inr message /\
    In key (if value then ["state_locked"; "state_on"; "state_closed"]
            else ["state_unlocked"; "state_off"; "state_open"]) /\
    get_field key message = Some (JString token) /\
    get_field "state_topic" message = Some (JString topic) /\
    publishState entity value = PublishAsync topic (Text token) true.
Proof.
  unfold known_domain, getDiscoveryMessage, publishState. intros Hknown.
  destruct (String.eqb (domain entity) "lock");
    [|destruct (String.eqb (domain entity) "switch");
      [|destruct (String.eqb (domain entity) "cover"); [|discriminate]]];
    destruct value; eexists.
  - exists "state_locked". do 2 eexists. split; [reflexivity|].
    split; [left; reflexivity|]. repeat split.
  - exists "state_unlocked". do 2 eexists. split; [reflexivity|].
    split; [left; reflexivity|]. repeat split.
  - exists "state_on". do 2 eexists. split; [reflexivity|].
    split; [right; left; reflexivity|]. repeat split.
  - exists "state_off". do 2 eexists. split; [reflexivity|].
    split; [right; left; reflexivity|]. repeat split.
  - exists "state_closed". do 2 eexists. split; [reflexivity|].
    split; [right; right; left; reflexivity|]. repeat split.
  - exists "state_open". do 2 eexists. split; [reflexivity|].
    split; [right; right; left; reflexivity|]. repeat split.
Qed.

Lemma published_state_is_declared_witness :
  known_domain (domain front_door) = true /\
  exists message key topic token,
    getDiscoveryMessage "rpi" 1 front_door = inr message /\
    In key ["state_locked"; "state_on"; "state_closed"] /\
    get_field key message = Some (JString token) /\
    get_field "state_topic" message = Some (JString topic) /\
    publishState front_door true = PublishAsync topic (Text token) true.
Proof.
  split; [reflexivity|].
  exact (published_state_is_declared "rpi" 1 front_door true eq_refl).
Defined.

(** X6. Under one device id, entities with distinct ids get distinct
    [unique_id]s in their discovery messages. *)
Theorem unique_id_distinct (deviceId : string) (e1 e2 : Entity) :
  id e1 <> id e2 -> unique_id_of deviceId e1 <> unique_id_of deviceId e2.
Proof.
  unfold unique_id_of. intros Hne Heq. apply Hne.
  apply append_inj_l in Heq. apply append_inj_l in Heq.
  apply append_inj_l in Heq. exact Heq.
Qed.

Lemma unique_id_distinct_witness :
  id front_door <> id garage /\
  unique_id_of "rpi" front_door <> unique_id_of "rpi" garage.
Proof.
  assert (H : id front_door <> id garage) by discriminate.
  split; [exact H | exact (unique_id_distinct "rpi" front_door garage H)].
Defined.

(** ** The map of bindings *)

Lemma new_Map_acc_lookup (pairs : list (string * Jema)) (m : gmap string Jema)
    (key : string) :
  ~ In key (map fst pairs) ->
  fold_left (fun m kv => <[kv.1 := kv.2]> m) pairs m !! key = m !! key.
Proof.
  revert m. induction pairs as [|[k v] rest IH]; intros m Hnot; simpl.
  - reflexivity.
  - rewrite IH by (intros Hin; apply Hnot; right; exact Hin).
    apply lookup_insert_ne. intros ->. apply Hnot. left. reflexivity.
Qed.



(** ** What the functions never do *)

Lemma async_emits_only_may {R} (Q : Event -> Prop) (t : Async R) (ev : Event) :
  async_emits_only Q t -> may t (Emits ev) -> Q ev.
Proof.
  induction t as [r|e|code|eff k IH|X op k IH]; simpl.
  - intros _ [=].
  - intros _ [=].
  - intros HQ [[= ->]|[=]]. exact HQ.
  - intros [HQ Hk] [[= ->]|Hmay]; [exact HQ|exact (IH Hk Hmay)].
  - intros [HQ Hk] [[= ->]|[[reason [=]]|[x Hmay]]]; [exact HQ|exact (IH x (Hk x) Hmay)].
Qed.

(** A function whose every possible event satisfies [Q] emits only such
    events in every execution. *)
Lemma emits_only_holds {A} (Q : Event -> Prop) (p : Prog A) (hist : list Event) :
  emits_only Q p -> Forall Q hist -> holds p hist (fun h _ => Forall Q h).
Proof.
  revert hist. induction p as [a|e|code|eff k IH|R aw k IH]; intros hist Hp Hhist.
  - exact Hhist.
  - exact Hhist.
  - apply Forall_snoc; assumption.
  - destruct Hp as [HQ Hk]. apply IH; [exact Hk|]. apply Forall_snoc; assumption.
  - destruct aw as [R op|R tasks].
    + destruct Hp as [HQ Hk].
      assert (Hhist' : Forall Q (hist ++ [Called op])) by (apply Forall_snoc; assumption).
      split; [exact Hhist'|]. split; [intros reason; exact Hhist'|].
      intros x. apply IH; [apply Hk|exact Hhist'].
    + destruct Hp as [Htasks Hk]. cbn [holds]. apply launched_may.
      intros evs Hevs.
      assert (Hhist' : Forall Q (hist ++ evs)).
      { apply Forall_app. split; [exact Hhist|].
        eapply Forall_impl; [exact Hevs|]. intros ev Hex.
        apply Exists_exists in Hex. destruct Hex as (t & Ht & Hmay).
        rewrite Forall_forall in Htasks.
        exact (async_emits_only_may Q t ev (Htasks t Ht) Hmay). }
      split; [exact Hhist'|]. split; [intros e _; exact Hhist'|].
      split; [intros code _; exact Hhist'|].
      intros rs _. apply IH; [apply Hk|exact Hhist'].
Qed.

Lemma emits_only_exec {A} (Q : Event -> Prop) (p : Prog A)
    (inputs : list (nat * Response)) :
  emits_only Q p -> Forall Q (exec p inputs).1.
Proof.
  intros Hp.
  exact (holds_exec p inputs [] _ (emits_only_holds Q p [] Hp (List.Forall_nil _))).
Qed.

Lemma emits_only_log_subscriptions {A} (Q : Event -> Prop) (entities : list Entity)
    (k : Prog A) :
  (forall text, Q (Did (Log Debug text))) -> emits_only Q k ->
  emits_only Q (log_subscriptions entities k).
Proof.
  intros HQ Hk. induction entities as [|e rest IH]; [exact Hk|].
  split; [apply HQ|exact IH].
Qed.

Lemma publishAvailability_emits_only (Q : Event -> Prop) (entities : list Entity)
    (value : string) :
  (forall topic, Q (Called (PublishAsync topic (Text value) false))) ->
  Forall (async_emits_only Q) (publishAvailability entities value).
Proof.
  intros HQ. apply Forall_forall. intros t Ht.
  apply list_elem_of_In, in_map_iff in Ht. destruct Ht as (e & <- & _).
  split; [apply HQ|]. intros x. exact I.
Qed.

Lemma main_never_pulses (env : Settings) :
  emits_only (fun ev => is_pulse ev = false) (main env).
Proof.
  unfold main, main_configured. cbn [bind act eval await await_all].
  split; [reflexivity|].
  destruct (QOS env) as [reason|qos]; cbn [bind emits_only]; [exact I|].
  split; [reflexivity|]. intros config. split.
  { apply Forall_forall. intros t Ht. apply list_elem_of_In, in_map_iff in Ht.
    destruct Ht as (e & <- & _). split; [reflexivity|]. intros x. exact I. }
  intros pairs.
  destruct (MQTT_BROKER env) as [reason|broker]; cbn [bind emits_only]; [exact I|].
  split; [reflexivity|]. intros _. split; [reflexivity|].
  rewrite bind_log_subscriptions. apply emits_only_log_subscriptions; [reflexivity|].
  cbn [bind emits_only]. split; [reflexivity|]. intros _. split; [reflexivity|].
  split.
  { apply Forall_forall. intros t Ht. apply list_elem_of_In, in_map_iff in Ht.
    destruct Ht as (e & <- & _). unfold announce.
    destruct (new_Map pairs !! id e) as [jema|]; [|exact I].
    split; [reflexivity|]. split; [reflexivity|]. intros value.
    split; [reflexivity|]. intros _.
    destruct (getDiscoveryMessage (deviceId config) qos e); [exact I|].
    split; [reflexivity|]. intros _. exact I. }
  intros _.
  destruct (AVAILABILITY_INTERVAL env) as [reason|ms]; cbn [bind emits_only]; [exact I|].
  repeat (split; [reflexivity|]). split.
  { apply publishAvailability_emits_only. reflexivity. }
  intros _. split; [reflexivity|exact I].
Qed.

Lemma shutdownHandler_calls_no_binding (entities : list Entity) (jemas : gmap string Jema) :
  emits_only (fun ev => is_binding_call ev = false) (shutdownHandler entities jemas).
Proof.
  unfold shutdownHandler. cbn [bind act await await_all emits_only].
  repeat (split; [reflexivity|]). split.
  { apply publishAvailability_emits_only. reflexivity. }
  intros _. split; [reflexivity|]. intros _. split; [reflexivity|]. split.
  { apply Forall_forall. intros t Ht. apply list_elem_of_In, in_map_iff in Ht.
    destruct Ht as (kv & <- & _). exact I. }
  intros _. reflexivity.
Qed.

Lemma emits_only_impl {A} (Q Q' : Event -> Prop) (p : Prog A) :
  (forall ev, Q ev -> Q' ev) -> emits_only Q p -> emits_only Q' p.
Proof.
  intros HQ. induction p as [a|e|code|eff k IH|R aw k IH]; simpl; try tauto.
  - apply HQ.
  - intros [Heff Hk]. split; [apply HQ; exact Heff|apply IH; exact Hk].
  - destruct aw as [R op|R tasks].
    + intros [Hop Hk]. split; [apply HQ; exact Hop|]. intros x. apply IH, Hk.
    + intros [Htasks Hk]. split; [|intros rs; apply IH, Hk].
      eapply Forall_impl; [exact Htasks|]. clear -HQ. intros t.
      induction t as [r|e|code|eff k IH|X op k IH]; simpl; try tauto.
      * apply HQ.
      * intros [Heff Hk]. split; [apply HQ; exact Heff|apply IH; exact Hk].
      * intros [Hop Hk]. split; [apply HQ; exact Hop|]. intros x. apply IH, Hk.
Qed.

Lemma binding_call_pulse (ev : Event) : is_binding_call ev = false -> is_pulse ev = false.
Proof. destruct ev as [eff|R op]; [reflexivity|]. destruct op; try reflexivity. discriminate. Qed.

Lemma monitorListener_never_pulses (entity : Entity) (value : bool) :
  emits_only (fun ev => is_pulse ev = false) (monitorListener entity value).
Proof. split; [reflexivity|]. intros x. exact I. Qed.

Lemma heartbeat_never_pulses (entities : list Entity) :
  emits_only (fun ev => is_pulse ev = false) (heartbeat entities).
Proof.
  split; [|intros rs; exact I]. apply publishAvailability_emits_only. reflexivity.
Qed.

(** A function that never pulses, once started, has not pulsed and stays
    so. *)
Lemma start_never_pulses (f : Prog unit) :
  emits_only (fun ev => is_pulse ev = false) f ->
  Forall (fun ev => is_pulse ev = false) (start f).1 /\
  exists hist, task_holds (start f).2 hist never_pulses.
Proof.
  intros Hf.
  pose proof (start_holds f [] never_pulses
                (emits_only_holds _ f [] Hf (List.Forall_nil _))) as Hstart.
  split; [exact (task_holds_status _ _ _ Hstart)|]. eexists. exact Hstart.
Qed.

Lemma resume_never_pulses (t : Task unit) (i : nat) (r : Response) :
  (exists hist, task_holds t hist never_pulses) ->
  Forall (fun ev => is_pulse ev = false) (resume t i r).1 /\
  exists hist, task_holds (resume t i r).2 hist never_pulses.
Proof.
  intros [hist Ht].
  pose proof (resume_holds t i r hist never_pulses Ht) as Hstep.
  split; [|eexists; exact Hstep].
  pose proof (task_holds_status _ _ _ Hstep) as Hall. unfold never_pulses in Hall.
  apply Forall_app in Hall. exact (proj2 Hall).
Qed.

Lemma pulse_free_spawn (f : Prog unit) (p : Process) :
  emits_only (fun ev => is_pulse ev = false) f -> pulse_free p -> pulse_free (spawn f p).
Proof.
  intros Hf (Htrace & Htop & Hdetached). unfold spawn.
  destruct (ended p); [repeat split; assumption|].
  destruct (start_never_pulses f Hf) as [Hevs Ht].
  destruct (start f) as [evs t]. cbn [fst snd] in Hevs, Ht.
  unfold pulse_free.
  rewrite trace_unhandled, top_unhandled, detached_unhandled.
  rewrite trace_absorb, top_absorb, detached_absorb. cbn [set_detached trace top detached].
  split; [apply Forall_app; split; assumption|]. split; [exact Htop|].
  apply Forall_app. split; [exact Hdetached|]. constructor; [exact Ht|constructor].
Qed.

Lemma pulse_free_react (p : Process) (input : Input) :
  is_message input = false -> pulse_free p -> pulse_free (react p input).
Proof.
  intros Hinput Hp. unfold react. destruct (ended p) eqn:Hended; [exact Hp|].
  destruct input as [[|n] i r|topic payload|n value| |signal].
  - destruct Hp as (Htrace & Htop & Hdetached).
    destruct (resume_never_pulses (top p) i r Htop) as [Hevs Ht].
    destruct (resume (top p) i r) as [evs t]. cbn [fst snd] in Hevs, Ht.
    unfold pulse_free. rewrite trace_absorb, top_absorb, detached_absorb.
    cbn [set_top trace top detached].
    split; [|split; [exact Ht|exact Hdetached]].
    apply Forall_app. split; [exact Htrace|]. apply Forall_app. split; [exact Hevs|].
    destruct t; repeat constructor.
  - destruct (detached p !! n) as [t|] eqn:Hn; [|exact Hp].
    destruct Hp as (Htrace & Htop & Hdetached).
    assert (Ht : exists hist, task_holds t hist never_pulses).
    { rewrite Forall_forall in Hdetached. apply Hdetached.
      apply list_elem_of_lookup. exists n. exact Hn. }
    destruct (resume_never_pulses t i r Ht) as [Hevs Ht'].
    destruct (resume t i r) as [evs t']. cbn [fst snd] in Hevs, Ht'.
    unfold pulse_free.
    rewrite trace_unhandled, top_unhandled, detached_unhandled.
    rewrite trace_absorb, top_absorb, detached_absorb.
    cbn [set_detached trace top detached].
    split; [apply Forall_app; split; assumption|]. split; [exact Htop|].
    apply Forall_insert; assumption.
  - discriminate.
  - destruct (monitor_listeners p !! n) as [[jema entity]|]; [|exact Hp].
    apply pulse_free_spawn; [apply monitorListener_never_pulses|exact Hp].
  - destruct (interval p) as [entities|]; [|exact Hp].
    apply pulse_free_spawn; [apply heartbeat_never_pulses|exact Hp].
  - destruct (filter _ (signal_listeners p)) as [|h hs]; [exact Hp|].
    generalize (h :: hs). clear h hs. intros hs. clear Hended. revert p Hp.
    induction hs as [|[s [entities jemas]] hs IH]; intros q Hq; [exact Hq|].
    cbn [fold_left]. apply IH. apply pulse_free_spawn; [|exact Hq].
    eapply emits_only_impl; [|apply shutdownHandler_calls_no_binding].
    apply binding_call_pulse.
Qed.

Lemma pulse_free_boot (env : Settings) : pulse_free (boot env).
Proof.
  unfold boot. destruct (start_never_pulses (main env) (main_never_pulses env)) as [Hevs Ht].
  destruct (start (main env)) as [evs t]. cbn [fst snd] in Hevs, Ht.
  unfold pulse_free. rewrite trace_absorb, top_absorb, detached_absorb.
  cbn [trace top detached app].
  split; [|split; [exact Ht|constructor]].
  apply Forall_app. split; [exact Hevs|]. destruct t; repeat constructor.
Qed.

(** X8. No command, no pulse.  [main] itself never calls [sendControl], in
    any execution.  And in every run of the process from its start, under
    any settlements, monitor changes, timer ticks and signals, no control
    line is pulsed as long as the broker delivers no message: a pulse can
    only come from the handling of a command. *)
Theorem no_pulse_without_command (env : Settings) :
  (forall inputs, count is_pulse (exec (main env) inputs).1 = 0) /\
  (forall inputs,
     Forall (fun input => is_message input = false) inputs ->
     count is_pulse (trace (reacts (boot env) inputs)) = 0).
Proof.
  assert (Hcount : forall evs, Forall (fun ev => is_pulse ev = false) evs ->
                               count is_pulse evs = 0).
  { intros evs H. unfold count. induction H as [|ev evs Hev _ IH]; [reflexivity|].
    cbn [List.filter]. rewrite Hev. exact IH. }
  split.
  - intros inputs. apply Hcount.
    exact (emits_only_exec _ (main env) inputs (main_never_pulses env)).
  - intros inputs Hinputs. apply Hcount.
    assert (Hfree : pulse_free (reacts (boot env) inputs)).
    { pose proof (pulse_free_boot env) as Hboot. revert Hboot.
      generalize (boot env). unfold reacts.
      induction Hinputs as [|input rest Hinput _ IH]; intros p Hp; [exact Hp|].
      cbn [fold_left]. apply IH. apply pulse_free_react; assumption. }
    exact (proj1 Hfree).
Qed.

Lemma no_pulse_without_command_witness :
  Forall (fun input => is_message input = false)
         (sample_startup ++ [MonitorChange 0 true; Tick; Kill SIGINT]) /\
  count is_pulse
    (trace (reacts (boot sample_env)
                   (sample_startup ++ [MonitorChange 0 true; Tick; Kill SIGINT]))) = 0.
Proof.
  assert (H : Forall (fun input => is_message input = false)
                     (sample_startup ++ [MonitorChange 0 true; Tick; Kill SIGINT]))
    by (repeat constructor).
  split; [exact H|].
  exact (proj2 (no_pulse_without_command sample_env) _ H).
Defined.

(** X9. [shutdownHandler] makes no call on any hardware binding, in any
    execution: it neither reads a monitor nor pulses a control line, and it
    releases nothing; its last [Promise.all] is over the bindings
    themselves. *)
Theorem shutdown_calls_no_binding
    (entities : list Entity) (jemas : gmap string Jema) (inputs : list (nat * Response)) :
  Forall (fun ev => is_binding_call ev = false)
         (exec (shutdownHandler entities jemas) inputs).1.
Proof.
  apply emits_only_exec, shutdownHandler_calls_no_binding.
Qed.

(** ** Joins, step by step *)

(** Every pending promise of a join resolves once, first to last, and every
    member goes on to its next [await]. *)
Lemma join_advances {X Y Y' R A} (op : X -> Op Y) (k : X -> Y -> Async R)
    (val : X -> Value) (res : X -> Y) (evs : X -> list Event)
    (op' : X -> Op Y') (k' : X -> Y' -> Async R) (K : list R -> Prog A)
    (todo done : list X) (rest : list (nat * Response)) :
  (forall x, decode (op x) (val x) = Some (res x)) ->
  (forall x, In x todo ->
     start_async (k x (res x)) = (evs x, Suspends (Pending (op' x) (k' x)))) ->
  run (Joining (map (fun x => Pending (op' x) (k' x)) done
                ++ map (fun x => Pending (op x) (k x)) todo) K)
      (settle_from (length done) (map val todo) ++ rest)
  = continue (flat_map evs todo,
              Joining (map (fun x => Pending (op' x) (k' x)) (done ++ todo)) K) rest.
Proof.
  intros Hval. revert done. induction todo as [|x todo IH]; intros done Hstart.
  - cbn [map settle_from app flat_map]. rewrite !app_nil_r, continue_nil_events.
    reflexivity.
  - cbn [map settle_from app flat_map]. rewrite run_cons.
    assert (Hstep :
      resume (Joining (map (fun x => Pending (op' x) (k' x)) done
                       ++ Pending (op x) (k x) :: map (fun x => Pending (op x) (k x)) todo) K)
             (length done) (Resolve (val x))
      = (evs x, Joining (map (fun x => Pending (op' x) (k' x)) (done ++ [x])
                         ++ map (fun x => Pending (op x) (k x)) todo) K)).
    { assert (Hlookup :
        (map (fun x => Pending (op' x) (k' x)) done
         ++ Pending (op x) (k x) :: map (fun x => Pending (op x) (k x)) todo)
          !! length done = Some (Pending (op x) (k x))).
      { apply list_lookup_middle. rewrite length_map. reflexivity. }
      rewrite (join_member_suspends _ K (length done) _ _ (val x) (res x) (evs x)
                 (op' x) (k' x) Hlookup (Hval x) (Hstart x (or_introl eq_refl))).
      rewrite insert_app_r_alt by (rewrite length_map; reflexivity).
      rewrite length_map, Nat.sub_diag. cbn [insert list_insert].
      rewrite map_app, <- app_assoc. reflexivity. }
    rewrite Hstep. cbn [continue].
    specialize (IH (done ++ [x]) (fun y Hy => Hstart y (or_intror Hy))).
    rewrite length_app, Nat.add_1_r in IH. rewrite IH.
    rewrite <- app_assoc. cbn [app continue].
    destruct (run _ rest) as [evs' t']. rewrite app_assoc. reflexivity.
Qed.

Lemma launch_do_awaits {X Y R} (eff : X -> Effect) (op : X -> Op Y)
    (k : X -> Y -> Async R) (xs : list X) :
  launch (map (fun x => Do (eff x) (Await (op x) (k x))) xs)
  = (flat_map (fun x => [Did (eff x); Called (op x)]) xs,
     JSlots (map (fun x => Pending (op x) (k x)) xs)).
Proof.
  induction xs as [|x rest IH]; simpl; [reflexivity|]. rewrite IH. reflexivity.
Qed.

Lemma new_Map_lookup_nodup (entities : list Entity) (binding : Entity -> Jema)
    (entity : Entity) :
  NoDup (map id entities) -> In entity entities ->
  new_Map (map (fun e => (id e, binding e)) entities) !! id entity
  = Some (binding entity).
Proof.
  intros Hnodup Hin. apply in_split in Hin. destruct Hin as (l1 & l2 & ->).
  rewrite map_app in Hnodup |- *. cbn [map] in Hnodup |- *.
  unfold new_Map. rewrite fold_left_app. cbn [fold_left fst snd].
  rewrite new_Map_acc_lookup.
  - apply lookup_insert_eq.
  - rewrite map_map. cbn [fst].
    apply NoDup_app in Hnodup. destruct Hnodup as (_ & _ & Hnodup).
    apply NoDup_cons in Hnodup. destruct Hnodup as [Hnot _].
    intros Hin. apply Hnot. apply list_elem_of_In. exact Hin.
Qed.

(** ** A start-up in which every call resolves *)

Lemma discovery_unique_id (deviceId : string) (qos : Z) (entity : Entity) :
  known_domain (domain entity) = true ->
  exists message,
    getDiscoveryMessage deviceId qos entity = inr message /\
    get_field "unique_id" message = Some (JString (unique_id_of deviceId entity)).
Proof.
  unfold known_domain, getDiscoveryMessage. intros Hknown.
  destruct (String.eqb (domain entity) "lock");
    [|destruct (String.eqb (domain entity) "switch");
      [|destruct (String.eqb (domain entity) "cover"); [|discriminate]]];
    eexists; split; reflexivity.
Qed.

Lemma announce_join_completes {A} (prefix deviceId : string) (qos : Z)
    (jemas : gmap string Jema) (entities : list Entity)
    (binding : Entity -> Jema) (monitor : Entity -> bool)
    (K : list unit -> Prog A) (rest : list (nat * Response)) :
  (forall e, In e entities -> jemas !! id e = Some (binding e)) ->
  (forall e, In e entities -> known_domain (domain e) = true) ->
  continue (start (Await (All (map (announce prefix deviceId qos jemas) entities)) K))
           (announce_schedule monitor entities ++ rest)
  = (announce_trace prefix deviceId qos binding monitor entities
       ++ (continue (start (K (map (fun _ => tt) entities))) rest).1,
     (continue (start (K (map (fun _ => tt) entities))) rest).2).
Proof.
  intros Hbinding Hknown.
  set (message_of := fun e => match getDiscoveryMessage deviceId qos e with
                              | inr m => m | inl _ => [] end).
  set (publish := fun e => PublishAsync
                   (prefix +:+ "/" +:+ domain e +:+ "/"
                      +:+ unique_id_of deviceId e +:+ "/config")
                   (Stringified (message_of e)) true).
  set (k2 := fun (e : Entity) (_ : unit) =>
        match getDiscoveryMessage deviceId qos e with
        | inl err => @Throw Op unit err
        | inr discoveryMessage =>
            let unique_id :=
              match get_field "unique_id" discoveryMessage with
              | Some (JString s) => s
              | _ => "undefined"
              end in
            Await (PublishAsync
                     (prefix +:+ "/" +:+ domain e +:+ "/" +:+ unique_id +:+ "/config")
                     (Stringified discoveryMessage) true)
                  (fun _ => Return tt)
        end).
  set (k1 := fun (e : Entity) (value : bool) => Await (publishState e value) (k2 e)).
  assert (Hform : map (announce prefix deviceId qos jemas) entities
                  = map (fun e => Do (SetMonitorListener (binding e) e)
                                     (Await (GetMonitor (binding e)) (k1 e))) entities).
  { apply map_ext_in. intros e He. unfold announce. rewrite (Hbinding e He).
    reflexivity. }
  assert (Hk2 : forall e, In e entities ->
            start_async (k2 e tt)
            = (discovery_publish prefix deviceId qos e,
               Suspends (Pending (publish e) (fun _ => Return tt)))).
  { intros e He.
    destruct (discovery_unique_id deviceId qos e (Hknown e He)) as (m & Hm & Hid).
    subst k2 publish message_of. unfold discovery_publish. cbn beta.
    rewrite Hm. cbn zeta. rewrite Hid. reflexivity. }
  rewrite Hform. cbn [start]. rewrite launch_do_awaits.
  unfold announce_schedule, announce_trace.
  destruct entities as [|e0 es] eqn:Hentities.
  - cbn [map collect settle_from app flat_map].
    destruct (start (K [])) as [evs t]. cbn [continue].
    destruct (run t rest) as [evs' t']. reflexivity.
  - rewrite <- Hentities in *. 
    assert (Hne : entities <> []) by (rewrite Hentities; discriminate).
    assert (Hpending : collect (map (fun e => Pending (GetMonitor (binding e)) (k1 e))
                                    entities) = None)
      by (rewrite Hentities; reflexivity).
    clear Hentities. rewrite Hpending. cbn [continue].
    pose proof (join_advances (fun e => GetMonitor (binding e)) k1
                  (fun e => VBool (monitor e)) monitor
                  (fun e => [Called (publishState e (monitor e))])
                  (fun e => publishState e (monitor e)) k2 K entities []
                  (settle_from 0 (map (fun _ => VUnit) entities)
                   ++ settle_from 0 (map (fun _ => VUnit) entities) ++ rest)
                  (fun _ => eq_refl) (fun _ _ => eq_refl)) as Hround1.
    cbn [map app length] in Hround1. rewrite <- !app_assoc. rewrite Hround1.
    cbn [continue].
    pose proof (join_advances (fun e => publishState e (monitor e)) k2
                  (fun _ => VUnit) (fun _ => tt)
                  (discovery_publish prefix deviceId qos)
                  publish (fun _ _ => Return tt) K entities []
                  (settle_from 0 (map (fun _ => VUnit) entities) ++ rest)
                  (fun _ => eq_refl) Hk2) as Hround2.
    cbn [map app length] in Hround2. rewrite Hround2. cbn [continue].
    pose proof (join_completes publish (fun _ _ => tt) (fun _ => VUnit) (fun _ => tt)
                  K entities [] rest Hne (fun _ => eq_refl)) as Hround3.
    cbn [map app length] in Hround3. rewrite Hround3.
    destruct (continue (start (K (map (fun _ => tt) entities))) rest) as [evs t].
    cbn [fst snd]. rewrite <- ?app_assoc. reflexivity.
Qed.

Lemma continue_log_subscriptions {A} (entities : list Entity) (k : Prog A)
    (inputs : list (nat * Response)) :
  continue (start (log_subscriptions entities k)) inputs
  = (map (fun e => Did (Log Debug ("subscribe: " +:+ getTopic e COMMAND))) entities
       ++ (continue (start k) inputs).1,
     (continue (start k) inputs).2).
Proof.
  induction entities as [|e rest IH]; cbn [log_subscriptions map app].
  - destruct (continue (start k) inputs). reflexivity.
  - rewrite continue_do, IH. reflexivity.
Qed.

(** [main] up to the announcements, when the settings for it are valid,
    the ids differ, the domains are known and every call resolves. *)
Lemma main_until_announced (env : Settings) (qos : Z) (broker : string)
    (config : Config) (binding : Entity -> Jema) (monitor : Entity -> bool)
    (rest : list (nat * Response)) :
  QOS env = inr qos -> MQTT_BROKER env = inr broker ->
  NoDup (map id (entities config)) ->
  (forall e, In e (entities config) -> known_domain (domain e) = true) ->
  let announced :=
    continue (start (main_announced env (entities config)
                       (new_Map (map (fun e => (id e, binding e)) (entities config)))))
             rest in
  exec (main env) (announced_schedule config binding monitor ++ rest)
  = (announced_trace env qos broker config binding monitor ++ announced.1, announced.2).
Proof.
  intros Hqos Hbroker Hnodup Hknown announced.
  unfold announced_schedule. cbn [app].
  rewrite (exec_main_config env qos config _ Hqos). rewrite exec_continue.
  unfold main_configured, acquire. cbn [bind await_all await act eval].
  rewrite <- !app_assoc.
  rewrite (start_all_bare (fun e => RequestJemaAccess (controlGpio e) (monitorGpio e))
             (fun e jema => (id e, jema)) (fun e => VJema (binding e)) binding);
    [|reflexivity].
  rewrite Hbroker. cbn [bind eval app].
  rewrite (continue_call _ _ VUnit tt) by reflexivity.
  rewrite continue_do, bind_log_subscriptions, continue_log_subscriptions.
  cbn [bind]. rewrite (continue_call _ _ VUnit tt) by reflexivity.
  rewrite continue_do.
  rewrite (announce_join_completes _ _ _ _ _ binding monitor);
    [|intros e He; apply new_Map_lookup_nodup; assumption|exact Hknown].
  cbn [fst snd]. subst announced. unfold announced_trace, main_announced.
  cbn [bind await_all await act eval app].
  repeat (progress (rewrite <- ?app_assoc; cbn [app])). reflexivity.
Qed.

Lemma sample_ids_differ : NoDup (map id (entities sample_config)).
Proof.
  apply NoDup_cons_2; [|apply NoDup_cons_2; [|apply NoDup_nil_2]].
  - intros H. apply list_elem_of_In in H. destruct H as [H|[]]. discriminate.
  - intros H. apply list_elem_of_In in H. destruct H.
Defined.

Lemma sample_domains_known :
  forall e, In e (entities sample_config) -> known_domain (domain e) = true.
Proof. intros e [<-|[<-|[]]]; reflexivity. Defined.

(** X10. A start-up with valid settings, distinct ids, known domains and
    every call resolving runs to the end, in this order: the bindings are
    requested, the broker is connected, the command topics are subscribed
    and the message handler registered; for the entities the listener is
    set and the monitor read, the state published, the discovery message
    published; then the heartbeat timer and both signal handlers are
    installed, every entity is reported online, and the bridge says it is
    ready. *)
Theorem startup_completes_in_order (env : Settings) (qos ms : Z) (broker : string)
    (config : Config) (binding : Entity -> Jema) (monitor : Entity -> bool) :
  QOS env = inr qos -> MQTT_BROKER env = inr broker ->
  AVAILABILITY_INTERVAL env = inr ms ->
  NoDup (map id (entities config)) ->
  (forall e, In e (entities config) -> known_domain (domain e) = true) ->
  let jemas := new_Map (map (fun e => (id e, binding e)) (entities config)) in
  exec (main env)
       (announced_schedule config binding monitor
        ++ settle_from 0 (map (fun _ => VUnit) (entities config)))
  = (announced_trace env qos broker config binding monitor
     ++ [ Did (SetInterval (entities config) ms);
          Did (ProcessOn SIGINT (entities config) jemas);
          Did (ProcessOn SIGTERM (entities config) jemas) ]
     ++ map online_publish (entities config)
     ++ [Did (Log Info "jema2mqtt: ready")],
     Done tt).
Proof.
  intros Hqos Hbroker Hms Hnodup Hknown jemas.
  rewrite (main_until_announced env qos broker config binding monitor _
             Hqos Hbroker Hnodup Hknown).
  cbn zeta. fold jemas. unfold main_announced. rewrite Hms.
  cbn [bind eval act await_all]. rewrite !continue_do.
  unfold publishAvailability, promise.
  rewrite <- (app_nil_r (settle_from 0 _)).
  rewrite (start_all_bare
             (fun e => PublishAsync (getTopic e AVAILABILITY) (Text "online") false)
             (fun _ r => r) (fun _ => VUnit) (fun _ => tt)); [|reflexivity].
  cbn [start continue run fst snd app]. reflexivity.
Qed.

Lemma startup_completes_in_order_witness :
  QOS sample_env = inr 1%Z /\ MQTT_BROKER sample_env = inr "mqtt://broker" /\
  AVAILABILITY_INTERVAL sample_env = inr 10000%Z /\
  NoDup (map id (entities sample_config)) /\
  (forall e, In e (entities sample_config) -> known_domain (domain e) = true) /\
  (exec (main sample_env)
        (announced_schedule sample_config sample_binding (fun _ => false)
         ++ settle_from 0 (map (fun _ => VUnit) (entities sample_config)))).2
  = Done tt.
Proof.
  split; [reflexivity|]. split; [reflexivity|]. split; [reflexivity|].
  split; [exact sample_ids_differ|]. split; [exact sample_domains_known|].
  exact (f_equal snd
           (startup_completes_in_order sample_env 1 10000 "mqtt://broker" sample_config
              sample_binding (fun _ => false) eq_refl eq_refl eq_refl
              sample_ids_differ sample_domains_known)).
Defined.

(** X11. When the availability interval is refused, [main] is rejected
    after every entity has been announced: the discovery messages and the
    states are on the broker, retained, but no heartbeat timer and no signal
    handler is installed and no entity is reported online. *)
Theorem bad_interval_fails_after_announcing (env : Settings) (qos : Z)
    (broker reason : string) (config : Config) (binding : Entity -> Jema)
    (monitor : Entity -> bool) (rest : list (nat * Response)) :
  QOS env = inr qos -> MQTT_BROKER env = inr broker ->
  AVAILABILITY_INTERVAL env = inl reason ->
  NoDup (map id (entities config)) ->
  (forall e, In e (entities config) -> known_domain (domain e) = true) ->
  exec (main env) (announced_schedule config binding monitor ++ rest)
  = (announced_trace env qos broker config binding monitor, Failed (External reason)).
Proof.
  intros Hqos Hbroker Hms Hnodup Hknown.
  rewrite (main_until_announced env qos broker config binding monitor _
             Hqos Hbroker Hnodup Hknown).
  cbn zeta. unfold main_announced. rewrite Hms.
  cbn [bind eval start continue]. rewrite run_settled by reflexivity.
  cbn [fst snd]. rewrite !app_nil_r. reflexivity.
Qed.

Lemma bad_interval_fails_after_announcing_witness :
  QOS bad_interval_env = inr 1%Z /\ MQTT_BROKER bad_interval_env = inr "mqtt://broker" /\
  AVAILABILITY_INTERVAL bad_interval_env
    = inl "AVAILABILITY_INTERVAL should be a positive integer" /\
  NoDup (map id (entities sample_config)) /\
  (forall e, In e (entities sample_config) -> known_domain (domain e) = true) /\
  (exec (main bad_interval_env)
        (announced_schedule sample_config sample_binding (fun _ => true) ++ [])).2
  = Failed (External "AVAILABILITY_INTERVAL should be a positive integer").
Proof.
  split; [reflexivity|]. split; [reflexivity|]. split; [reflexivity|].
  split; [exact sample_ids_differ|]. split; [exact sample_domains_known|].
  exact (f_equal snd
           (bad_interval_fails_after_announcing bad_interval_env 1 "mqtt://broker"
              "AVAILABILITY_INTERVAL should be a positive integer" sample_config
              sample_binding (fun _ => true) [] eq_refl eq_refl eq_refl
              sample_ids_differ sample_domains_known)).
Defined.



(** X13. A refused QoS rejects [main] at once: the start is logged, and
    neither the configuration is read nor anything else called, whatever
    the outside does. *)
Theorem bad_qos_fails_before_reading (env : Settings) (reason : string)
    (inputs : list (nat * Response)) :
  QOS env = inl reason ->
  exec (main env) inputs
  = ([Did (Log Info "jema2mqtt: start")], Failed (External reason)).
Proof.
  intros Hqos. unfold exec, main. rewrite Hqos.
  cbn [bind act eval start]. rewrite run_settled by reflexivity. reflexivity.
Qed.

Lemma bad_qos_fails_before_reading_witness :
  QOS bad_qos_env = inl "QOS should be a positive integer" /\
  exec (main bad_qos_env) [(0, Resolve (VConfig sample_config))]
  = ([Did (Log Info "jema2mqtt: start")],
     Failed (External "QOS should be a positive integer")).
Proof.
  split; [reflexivity|].
  exact (bad_qos_fails_before_reading bad_qos_env "QOS should be a positive integer"
           [(0, Resolve (VConfig sample_config))] eq_refl).
Defined.



(** ** The heartbeat *)

Lemma interval_absorb (evs : list Event) (p : Process) :
  Forall (fun ev => is_timer ev = false) evs -> interval (absorb evs p) = interval p.
Proof.
  revert p. induction evs as [|ev evs IH]; intros p Hquiet; [reflexivity|].
  inversion Hquiet as [|? ? Hev Hevs]; subst.
  cbn [absorb fold_left]. unfold absorb in IH. rewrite (IH _ Hevs).
  destruct ev as [[]|R op]; try reflexivity; discriminate.
Qed.

Lemma calls_quiet {X R} (op : X -> Op R) (xs : list X) :
  Forall (fun ev => is_timer ev = false /\ is_exit ev = false)
         (map (fun x => Called (op x)) xs).
Proof.
  apply Forall_forall. intros ev Hev. apply list_elem_of_In, in_map_iff in Hev.
  destruct Hev as (x & <- & _). split; reflexivity.
Qed.

Lemma heartbeat_holds (entities : list Entity) :
  holds (heartbeat entities) [] (heartbeat_post entities).
Proof.
  unfold heartbeat, publishAvailability, promise. cbn [bind await_all holds].
  apply (launched_bare
           (fun entity => PublishAsync (getTopic entity AVAILABILITY) (Text "online") false)
           (fun _ r => r)).
  - split; [reflexivity|]. left. reflexivity.
  - intros reason. split; [reflexivity|]. right. right. exists reason. reflexivity.
  - intros _. split; [reflexivity|]. right. left. reflexivity.
Qed.

Lemma start_heartbeat (entities : list Entity) :
  (start (heartbeat entities)).1 = map online_publish entities.
Proof.
  unfold heartbeat, publishAvailability, promise. cbn [bind await_all start].
  rewrite (launch_awaits
             (fun e => PublishAsync (getTopic e AVAILABILITY) (Text "online") false)
             (fun _ => Return)).
  destruct entities as [|e es]; reflexivity.
Qed.

Lemma start_heartbeat_unfailed (entities : list Entity) (e : Error) :
  (start (heartbeat entities)).2 <> Failed e.
Proof.
  unfold heartbeat, publishAvailability, promise. cbn [bind await_all start].
  rewrite (launch_awaits
             (fun e => PublishAsync (getTopic e AVAILABILITY) (Text "online") false)
             (fun _ => Return)).
  destruct entities as [|e' es]; discriminate.
Qed.

(** X15. Each time the timer fires while the process runs, every entity is
    reported online, once, in configuration order, not retained; the timer
    stays armed and the process goes on.  Whatever the publishes settle
    with, the heartbeat calls nothing else: it returns, or its promise is
    rejected with the rejection of a publish. *)
Theorem tick_reports_every_entity_online (p : Process) (entities : list Entity) :
  ended p = None -> interval p = Some entities ->
  let p' := react p Tick in
  trace p' = trace p ++ map online_publish entities /\
  interval p' = Some entities /\ ended p' = None /\
  forall inputs,
    (exec (heartbeat entities) inputs).1 = map online_publish entities /\
    (status (exec (heartbeat entities) inputs).2 = Running \/
     status (exec (heartbeat entities) inputs).2 = Returned tt \/
     exists reason,
       status (exec (heartbeat entities) inputs).2 = Threw (External reason)).
Proof.
  intros Halive Htimer. cbn zeta.
  pose proof (calls_quiet
                (fun e => PublishAsync (getTopic e AVAILABILITY) (Text "online") false)
                entities) as Hquiet.
  unfold react. rewrite Halive, Htimer. unfold spawn. rewrite Halive.
  pose proof (start_heartbeat entities) as Hstart.
  pose proof (start_heartbeat_unfailed entities) as Hunfailed.
  destruct (start (heartbeat entities)) as [evs t]. cbn [fst snd] in Hstart, Hunfailed.
  subst evs. rewrite unhandled_running by (intros e; apply Hunfailed).
  rewrite trace_absorb, interval_absorb, ended_absorb.
  - split; [reflexivity|]. split; [exact Htimer|]. split; [exact Halive|].
    intros inputs. exact (holds_exec _ inputs [] _ (heartbeat_holds entities)).
  - eapply Forall_impl; [exact Hquiet|]. intros ev [_ H]. exact H.
  - eapply Forall_impl; [exact Hquiet|]. intros ev [H _]. exact H.
Qed.

Lemma tick_reports_every_entity_online_witness :
  ended sample_ready = None /\ interval sample_ready = Some (entities sample_config) /\
  trace (react sample_ready Tick)
  = trace sample_ready
    ++ [ Called (PublishAsync "jema2mqtt/front-door/availability" (Text "online") false);
         Called (PublishAsync "jema2mqtt/garage/availability" (Text "online") false) ].
Proof.
  assert (Halive : ended sample_ready = None) by (vm_compute; reflexivity).
  assert (Htimer : interval sample_ready = Some (entities sample_config))
    by (vm_compute; reflexivity).
  split; [exact Halive|]. split; [exact Htimer|].
  exact (proj1 (tick_reports_every_entity_online sample_ready (entities sample_config)
                  Halive Htimer)).
Defined.

Lemma spawn_shutdown_disarms (entities : list Entity) (jemas : gmap string Jema)
    (p : Process) :
  ended p = None ->
  interval (spawn (shutdownHandler entities jemas) p) = None /\
  ended (spawn (shutdownHandler entities jemas) p) = None.
Proof.
  intros Halive. unfold spawn. rewrite Halive.
  pose proof (start_shutdownHandler entities jemas) as Hstart.
  pose proof (shutdown_start_quiet entities jemas) as Hquiet.
  pose proof (start_shutdownHandler_waits entities jemas) as Hwaits.
  destruct (start (shutdownHandler entities jemas)) as [evs t]. cbn [fst snd] in *.
  rewrite unhandled_running by (intros e ->; discriminate).
  split.
  - subst evs. unfold shutdown_prefix.
    rewrite <- !app_assoc, absorb_app. rewrite interval_absorb; [reflexivity|].
    apply Forall_app. split.
    + eapply Forall_impl; [apply (calls_quiet
        (fun e => PublishAsync (getTopic e AVAILABILITY) (Text "offline") false))|].
      intros ev [H _]. exact H.
    + destruct entities; repeat constructor.
  - rewrite ended_absorb; [exact Halive|].
    eapply Forall_impl; [exact Hquiet|]. intros ev [H _]. exact H.
Qed.

Lemma shutdowns_disarm (hs : list (Signal * Closure)) (p : Process) :
  ended p = None ->
  let p' := fold_left (fun q '(_, (entities, jemas)) =>
                         spawn (shutdownHandler entities jemas) q) hs p in
  ended p' = None /\ (interval p = None \/ hs <> [] -> interval p' = None).
Proof.
  revert p. induction hs as [|[signal [entities jemas]] hs IH]; intros p Halive; cbn zeta.
  - cbn [fold_left]. split; [exact Halive|]. intros [H|H]; [exact H|contradiction].
  - cbn [fold_left].
    destruct (spawn_shutdown_disarms entities jemas p Halive) as [Hoff Hon].
    destruct (IH _ Hon) as [Hended Hinterval].
    split; [exact Hended|]. intros _. apply Hinterval. left. exact Hoff.
Qed.

(** X16. A signal that some handler is registered for stops the heartbeat:
    once the process has reacted to it the timer is cleared, so a tick that
    comes while the shutdown is still waiting publishes nothing, although
    the process has not ended yet. *)
Theorem handled_signal_stops_heartbeat (p : Process) (signal : Signal) :
  ended p = None ->
  filter (fun h => Signal_eqb h.1 signal = true) (signal_listeners p) <> [] ->
  let p' := react p (Kill signal) in
  interval p' = None /\ ended p' = None /\ react p' Tick = p'.
Proof.
  intros Halive Hhandled. cbn zeta.
  assert (H : interval (react p (Kill signal)) = None /\
              ended (react p (Kill signal)) = None).
  { unfold react. rewrite Halive.
    destruct (filter _ (signal_listeners p)) as [|h hs] eqn:Hfilter; [contradiction|].
    destruct (shutdowns_disarm (h :: hs) p Halive) as [Hended Hinterval].
    split; [apply Hinterval; right; discriminate|exact Hended]. }
  destruct H as [Hinterval Hended].
  split; [exact Hinterval|]. split; [exact Hended|].
  unfold react at 1. rewrite Hended, Hinterval. reflexivity.
Qed.

Lemma handled_signal_stops_heartbeat_witness :
  ended sample_ready = None /\
  filter (fun h => Signal_eqb h.1 SIGINT = true) (signal_listeners sample_ready) <> [] /\
  interval (react sample_ready (Kill SIGINT)) = None /\
  trace (reacts sample_ready [Kill SIGINT; Tick])
  = trace (react sample_ready (Kill SIGINT)).
Proof.
  assert (Halive : ended sample_ready = None) by (vm_compute; reflexivity).
  assert (Hhandled :
    filter (fun h => Signal_eqb h.1 SIGINT = true) (signal_listeners sample_ready) <> [])
    by (vm_compute; discriminate).
  split; [exact Halive|]. split; [exact Hhandled|].
  split; [exact (proj1 (handled_signal_stops_heartbeat sample_ready SIGINT Halive Hhandled))|].
  exact (f_equal trace
           (proj2 (proj2 (handled_signal_stops_heartbeat sample_ready SIGINT
                            Halive Hhandled)))).
Defined.
